(** * SOP Analyzer: a shallow embedding of [sop_analyzer.py]

    The development follows the source file top to bottom:
    - Python values, exceptions and the insertion-ordered [dict];
    - the aggregation methods of [SOPAnalyzer] ([get_metadata],
      [analyze_records], [analyze_tables], [get_actions_summary]);
    - the decoding pipeline ([load_data], [_decompress_data] and the four
      [_try_*] strategies), parametrised by the library calls it makes
      ([zlib.decompress], [bytes.decode], [json.loads]);
    - models of those calls themselves, used to run the pipeline on concrete
      archives: [zlib.decompress] (RFC 1950/1951/1952 as decoded by zlib's
      [inflate]), the UTF-8 codec and the [json] scanner. *)

From Stdlib Require Import List ZArith NArith Lia Bool.
From Stdlib Require Import Strings.String Strings.Ascii Strings.Byte.
From Stdlib Require Import Numbers.DecimalString.
From Stdlib Require Import Permutation Sorted.
Import ListNotations.

Local Open Scope string_scope.
Local Open Scope list_scope.

(** ** Python values and exceptions *)

Definition bytes := list byte.

(** The exception classes the analyzer raises, catches or lets through. *)
Inductive exn_class :=
| FileNotFoundError
| ValueError
| BadZipFile
| JSONDecodeError
| UnicodeDecodeError
| ZlibError
| TypeError
| AttributeError
| OtherError (name : string).

(** An exception object: its class and [str(e)]. *)
Record exn := Raise { exn_cls : exn_class; exn_msg : string }.

Definition str (e : exn) : string := exn_msg e.

Inductive result (A : Type) :=
| Ok (a : A)
| Err (e : exn).
Arguments Ok {A} a.
Arguments Err {A} e.

Definition bind {A B} (r : result A) (k : A -> result B) : result B :=
  match r with
  | Ok a => k a
  | Err e => Err e
  end.

Declare Scope py_scope.
Delimit Scope py_scope with py.
Notation "x <- r ;; k" := (bind r (fun x => k))
  (at level 61, r at next level, right associativity) : py_scope.
Notation "' pat <- r ;; k" := (bind r (fun pat => k))
  (at level 61, pat pattern, r at next level, right associativity) : py_scope.
Local Open Scope py_scope.

(** What [json.loads] produces.  [JNull] is Python's [None]; a number
    without fraction or exponent is an [int], any other a [float], kept as
    the literal it was read from; a string is kept as its UTF-8 bytes; an
    object is a [dict] read through [get], kept as the list of its items
    (one per key). *)
#[warnings="-register-all"]
Inductive json :=
| JNull
| JBool (b : bool)
| JInt (z : Z)
| JFloat (literal : string)
| JStr (s : string)
| JArr (items : list json)
| JObj (items : list (string * json)).

Definition type_name (v : json) : string :=
  match v with
  | JNull => "NoneType"
  | JBool _ => "bool"
  | JInt _ => "int"
  | JFloat _ => "float"
  | JStr _ => "str"
  | JArr _ => "list"
  | JObj _ => "dict"
  end.

Fixpoint assoc {V} (k : string) (m : list (string * V)) : option V :=
  match m with
  | [] => None
  | (k', v) :: m' => if String.eqb k k' then Some v else assoc k m'
  end.

(** [v.get(key, default)]: only a [dict] has the method. *)
Definition py_get (v : json) (key : string) (default : json) : result json :=
  match v with
  | JObj m => Ok (match assoc key m with Some x => x | None => default end)
  | _ => Err (Raise AttributeError
                ("'" ++ type_name v ++ "' object has no attribute 'get'"))
  end.

(** The characters of a string, each with the bytes that continue it. *)
Definition continues (c : ascii) : bool :=
  (N.land (N_of_ascii c) 192 =? 128)%N.

Fixpoint split_chars (s : string) : list string :=
  match s with
  | EmptyString => []
  | String c s' =>
      match split_chars s' with
      | String d t :: ts =>
          if continues d then String c (String d t) :: ts
          else String c EmptyString :: String d t :: ts
      | ts => String c EmptyString :: ts
      end
  end.

Definition chars (s : string) : list json := map JStr (split_chars s).

(** [len(v)]. *)
Definition py_len (v : json) : result nat :=
  match v with
  | JArr l => Ok (List.length l)
  | JObj m => Ok (List.length m)
  | JStr s => Ok (List.length (chars s))
  | _ => Err (Raise TypeError
                ("object of type '" ++ type_name v ++ "' has no len()"))
  end.

(** The items a [for] loop over [v] visits: the elements of a list, the keys
    of a dict, the characters of a string. *)
Definition py_iter (v : json) : result (list json) :=
  match v with
  | JArr l => Ok l
  | JObj m => Ok (map (fun kv => JStr (fst kv)) m)
  | JStr s => Ok (chars s)
  | _ => Err (Raise TypeError
                ("'" ++ type_name v ++ "' object is not iterable"))
  end.

(** [v == 'literal'] and [v is True]. *)
Definition py_eq_str (v : json) (s : string) : bool :=
  match v with
  | JStr s' => String.eqb s' s
  | _ => false
  end.

Definition py_is_True (v : json) : bool :=
  match v with
  | JBool true => true
  | _ => false
  end.

(** ** A [float] as a dict key

    [json.loads] turns a number with a fraction or an exponent into the
    binary64 value nearest to it (ties to even; beyond the range,
    infinity), and [NaN], [Infinity] and [-Infinity] into the three
    constants of the [json] module.  A dict files a float under its value. *)
Module Float.

Inductive value :=
| Finite (m e : Z)
| Inf (negative : bool)
| NaN.

Definition is_digit (c : ascii) : bool :=
  (48 <=? N_of_ascii c)%N && (N_of_ascii c <=? 57)%N.

Fixpoint span_digits (s : string) : string * string :=
  match s with
  | String c s' =>
      if is_digit c then let '(d, r) := span_digits s' in (String c d, r)
      else (EmptyString, s)
  | EmptyString => (EmptyString, EmptyString)
  end.

Fixpoint digits_value (d : string) (acc : Z) : Z :=
  match d with
  | String c d' => digits_value d' (10 * acc + Z.of_N (N_of_ascii c - 48))%Z
  | EmptyString => acc
  end.

Fixpoint strip_zeros (d : string) : string :=
  match d with
  | String "0" d' => strip_zeros d'
  | _ => d
  end.

Definition round_half_even (n d : Z) : Z :=
  let q := (n / d)%Z in
  let r := (n mod d)%Z in
  if (2 * r <? d)%Z then q
  else if (d <? 2 * r)%Z then (q + 1)%Z
  else if Z.even q then q else (q + 1)%Z.

(** The binary64 value nearest to [d * 10 ^ k], for [d] of [nd] digits. *)
Definition of_decimal (negative : bool) (d nd k : Z) : value :=
  if (d =? 0)%Z then Finite 0 0
  else if (400 <? k + nd)%Z then Inf negative
  else if (k + nd <? -400)%Z then Finite 0 0
  else
    let num := (if (0 <=? k)%Z then d * 10 ^ k else d)%Z in
    let den := (if (0 <=? k)%Z then 1 else 10 ^ (- k))%Z in
    let scaled (e : Z) :=
      (if (0 <=? e)%Z then (num, den * 2 ^ e) else (num * 2 ^ (- e), den))%Z in
    let e0 := (Z.log2 num - Z.log2 den - 52)%Z in
    let e1 :=
      let '(n, dd) := scaled e0 in
      if (n <? dd * 2 ^ 52)%Z then (e0 - 1)%Z else e0 in
    let e := Z.max e1 (-1074) in
    let '(n, dd) := scaled e in
    let m := round_half_even n dd in
    if (0 <=? e)%Z && (2 ^ 1024 <=? m * 2 ^ e)%Z then Inf negative
    else Finite (if negative then - m else m) e.

(** The value of a literal as the scanner of [json] accepts it. *)
Definition of_literal (literal : string) : value :=
  if String.eqb literal "NaN" then NaN
  else if String.eqb literal "Infinity" then Inf false
  else if String.eqb literal "-Infinity" then Inf true
  else
    let '(negative, s1) :=
      match literal with
      | String "-" s' => (true, s')
      | _ => (false, literal)
      end in
    let '(int_part, s2) := span_digits s1 in
    let '(frac, s3) :=
      match s2 with
      | String "." s' => span_digits s'
      | _ => (EmptyString, s2)
      end in
    let exponent :=
      match s3 with
      | String _ (String "-" s') => (- digits_value (fst (span_digits s')) 0)%Z
      | String _ (String "+" s') => digits_value (fst (span_digits s')) 0
      | String _ s' => digits_value (fst (span_digits s')) 0
      | EmptyString => 0%Z
      end in
    let digits := (int_part ++ frac)%string in
    of_decimal negative (digits_value digits 0)
      (Z.of_nat (String.length (strip_zeros digits)))
      (exponent - Z.of_nat (String.length frac)).

End Float.

(** ** The insertion-ordered [dict]

    A key is looked up through its hash and [==]: [True], [1] and [1.0]
    (and [False], [0], [0.0]) are the same key, lists and dicts are
    unhashable.  [hkey] is the equivalence class of a key: a number is filed
    under its value, an integer ([HInt]), a fraction with a power of two for
    denominator ([HFrac], in lowest terms), an infinity or the [nan] of the
    [json] module.  The dict keeps, for every class, the key object that was
    inserted first, in insertion order. *)
Inductive hkey :=
| HNone
| HInt (z : Z)
| HStr (s : string)
| HFrac (numerator denominator : Z)
| HInf (negative : bool)
| HNaN.

Definition hkey_eq_dec (a b : hkey) : {a = b} + {a <> b}.
Proof.
  decide equality;
    first [apply Z.eq_dec | apply string_dec | apply Bool.bool_dec].
Defined.

Definition hkey_eqb (a b : hkey) : bool :=
  if hkey_eq_dec a b then true else false.

(** The class of a float. *)
Definition float_key (literal : string) : hkey :=
  match Float.of_literal literal with
  | Float.Finite m e =>
      if (0 <=? e)%Z then HInt (m * 2 ^ e)
      else
        let d := (2 ^ (- e))%Z in
        let g := Z.gcd m d in
        if (d / g =? 1)%Z then HInt (m / g) else HFrac (m / g) (d / g)
  | Float.Inf negative => HInf negative
  | Float.NaN => HNaN
  end.

Definition py_hash (v : json) : result hkey :=
  match v with
  | JNull => Ok HNone
  | JBool b => Ok (HInt (Z.b2z b))
  | JInt z => Ok (HInt z)
  | JStr s => Ok (HStr s)
  | JFloat literal => Ok (float_key literal)
  | _ => Err (Raise TypeError ("unhashable type: '" ++ type_name v ++ "'"))
  end.

Definition pydict (V : Type) := list (hkey * (json * V)).

Fixpoint dict_lookup {V} (k : hkey) (d : pydict V) : option V :=
  match d with
  | [] => None
  | (k', (_, v)) :: d' => if hkey_eqb k k' then Some v else dict_lookup k d'
  end.

(** [d[key] = v]: an existing entry keeps its place and its key object. *)
Fixpoint dict_store {V} (k : hkey) (key : json) (v : V) (d : pydict V)
  : pydict V :=
  match d with
  | [] => [(k, (key, v))]
  | (k', (key', v')) :: d' =>
      if hkey_eqb k k' then (k', (key', v)) :: d'
      else (k', (key', v')) :: dict_store k key v d'
  end.

Definition dict_keys {V} (d : pydict V) : list hkey := map fst d.
Definition dict_values {V} (d : pydict V) : list V :=
  map (fun e => snd (snd e)) d.

(** A [for] loop whose body may raise. *)
Fixpoint for_each {S} (body : S -> json -> result S) (items : list json)
  (s : S) : result S :=
  match items with
  | [] => Ok s
  | x :: items' => s' <- body s x ;; for_each body items' s'
  end.

(** ** The aggregation methods

    Each method starts with [data = self.load_data()]; the definitions below
    are the method bodies as functions of [data]. *)

Record Metadata := {
  md_name : json;
  md_pack_application_id : json;
  md_timestamp : json;
  md_version : json
}.

Definition get_metadata (data : json) : result Metadata :=
  name <- py_get data "name" (JStr "Неизвестно") ;;
  app <- py_get data "pack_application_id" (JStr "Неизвестно") ;;
  ts <- py_get data "timestamp" JNull ;;
  ver <- py_get data "version" (JStr "Неизвестно") ;;
  Ok {| md_name := name; md_pack_application_id := app;
        md_timestamp := ts; md_version := ver |}.

Record RecordStats := {
  total : nat;
  deletes : nat;
  strong_overwrites : nat
}.

Definition analyze_records_step (stats : RecordStats) (record : json)
  : result RecordStats :=
  action <- py_get record "action" JNull ;;
  let stats1 :=
    if py_eq_str action "delete"
    then {| total := total stats; deletes := S (deletes stats);
            strong_overwrites := strong_overwrites stats |}
    else stats in
  flag <- py_get record "is_strong_overwrite" JNull ;;
  Ok (if py_is_True flag
      then {| total := total stats1; deletes := deletes stats1;
              strong_overwrites := S (strong_overwrites stats1) |}
      else stats1).

Definition analyze_records (data : json) : result RecordStats :=
  records <- py_get data "records" (JArr []) ;;
  n <- py_len records ;;
  items <- py_iter records ;;
  for_each analyze_records_step items
    {| total := n; deletes := 0; strong_overwrites := 0 |}.

Record TableInfo := {
  name : json;
  record_count : nat;
  actions : pydict nat
}.

(** The value stored under a table name: [{'count': n, 'actions': {...}}]. *)
Record table_data := { count : nat; table_actions : pydict nat }.

Definition dict_get_default {V} (k : hkey) (d : pydict V) (default : V) : V :=
  match dict_lookup k d with
  | Some v => v
  | None => default
  end.

Definition analyze_tables_step (tables : pydict table_data) (record : json)
  : result (pydict table_data) :=
  table_name <- py_get record "table_name" (JStr "unknown") ;;
  action <- py_get record "action" (JStr "unknown") ;;
  kt <- py_hash table_name ;;
  let entry := dict_get_default kt tables {| count := 0; table_actions := [] |} in
  ka <- py_hash action ;;
  let acts := table_actions entry in
  let acts' := dict_store ka action (dict_get_default ka acts 0 + 1) acts in
  Ok (dict_store kt table_name
        {| count := count entry + 1; table_actions := acts' |} tables).

(** [sorted(items, key=count, reverse=True)]: a stable sort, so items with
    equal counts stay in the order of the input. *)
Fixpoint insert_desc {A} (key : A -> nat) (x : A) (l : list A) : list A :=
  match l with
  | [] => [x]
  | y :: l' =>
      if Nat.ltb (key x) (key y) then y :: insert_desc key x l'
      else x :: y :: l'
  end.

Definition sorted_desc {A} (key : A -> nat) (l : list A) : list A :=
  fold_right (insert_desc key) [] l.

(** The [TableInfo] made of an item [(table_name, table_data)]. *)
Definition table_info (kv : hkey * (json * table_data)) : TableInfo :=
  {| name := fst (snd kv);
     record_count := count (snd (snd kv));
     actions := table_actions (snd (snd kv)) |}.

Definition analyze_tables (data : json) : result (list TableInfo) :=
  records <- py_get data "records" (JArr []) ;;
  items <- py_iter records ;;
  tables <- for_each analyze_tables_step items [] ;;
  let sorted_tables := sorted_desc (fun kv => count (snd (snd kv))) tables in
  Ok (map table_info sorted_tables).

Definition get_actions_summary_step (acts : pydict nat) (record : json)
  : result (pydict nat) :=
  action <- py_get record "action" (JStr "unknown") ;;
  ka <- py_hash action ;;
  Ok (dict_store ka action (dict_get_default ka acts 0 + 1) acts).

Definition get_actions_summary (data : json) : result (pydict nat) :=
  records <- py_get data "records" (JArr []) ;;
  items <- py_iter records ;;
  for_each get_actions_summary_step items [].

(** ** The decoding pipeline

    [print] is modelled by the list of lines written; the file system by what
    the path holds when the call is made. *)

Definition msg_success (method : string) : string :=
  "✓ Успешная декомпрессия методом: " ++ method.

Definition msg_failure (method : string) (e : exn) : string :=
  "✗ Метод " ++ method ++ " не сработал: " ++ str e.

Definition exhausted_error : exn :=
  Raise ValueError "Не удалось декомпрессировать данные ни одним из методов".

Definition headers_failed_error : exn :=
  Raise ValueError "Все методы с заголовками не сработали".

Definition missing_data_error : exn :=
  Raise ValueError "В архиве не найден файл с данными (.data)".

Definition bad_zip_error : exn :=
  Raise ValueError "Некорректный ZIP архив".

Definition json_error (e : exn) : exn :=
  Raise ValueError ("Ошибка парсинга JSON: " ++ str e).

Definition file_not_found_error (path : string) : exn :=
  Raise FileNotFoundError ("SOP файл не найден: " ++ path).

Definition gzip_header : bytes := [x1f; x8b; x08; x00; x00; x00; x00; x00; x02; xff].
Definition gzip_trailer : bytes := [x00; x00; x00; x00; x00; x00; x00; x00].
Definition headers_to_try : list bytes := [[]; [x78; x9c]; [x78; x01]; [x78; xda]].

(** What a path holds: nothing; something [zipfile.ZipFile] raises on
    ([BadZipFile] for a file that is no zip archive); or an archive: its
    entries in listing order, each with what reading it gives. *)
Inductive file :=
| NoFile
| Unreadable (e : exn)
| ZipArchive (entries : list (string * result bytes)).

Definition filesystem := string -> file.

(** [name.endswith(suffix)]. *)
Definition endswith (name suffix : string) : bool :=
  let n := String.length name in
  let k := String.length suffix in
  Nat.leb k n && String.eqb (substring (n - k) k name) suffix.

Definition namelist (entries : list (string * result bytes)) : list string :=
  map fst entries.

(** [sop_zip.open(name).read()]: a member is found by name, and of several
    members of one name the archive's name table keeps the last. *)
Fixpoint zip_read (entries : list (string * result bytes)) (name : string)
  : result bytes :=
  match entries with
  | [] => Err (Raise (OtherError "KeyError")
                 ("There is no item named '" ++ name ++ "' in the archive"))
  | (n, r) :: entries' =>
      if String.eqb n name && negb (existsb (String.eqb name) (namelist entries'))
      then r
      else zip_read entries' name
  end.

Record SOPAnalyzer := {
  sop_file_path : string;
  _data : json
}.

(** [SOPAnalyzer(path)]. *)
Definition init (path : string) : SOPAnalyzer :=
  {| sop_file_path := path; _data := JNull |}.

Definition is_None (v : json) : bool :=
  match v with
  | JNull => true
  | _ => false
  end.

Section Pipeline.

(** The library calls: [zlib.decompress(data, wbits)],
    [data.decode('utf-8')] and [json.loads(text)]. *)
Variable zlib_decompress : bytes -> Z -> result bytes.
Variable utf8_decode : bytes -> result string.
Variable json_loads : string -> result json.

Definition _try_raw_deflate (data : bytes) : result bytes :=
  zlib_decompress data (-15).

Definition _try_zlib_deflate (data : bytes) : result bytes :=
  zlib_decompress data 15.

Definition _try_gzip_format (data : bytes) : result bytes :=
  let gzip_data := gzip_header ++ data ++ gzip_trailer in
  zlib_decompress gzip_data (15 + 32).

(** The two loops of [_try_with_headers]: [Some] at the first attempt that
    returns, [None] when every attempt raised. *)
Fixpoint try_headers (headers : list bytes) (data : bytes) : option bytes :=
  match headers with
  | [] => None
  | header :: headers' =>
      match zlib_decompress (header ++ data) 15 with
      | Ok r => Some r
      | Err _ => try_headers headers' data
      end
  end.

Fixpoint try_offsets (offsets : list nat) (data : bytes) : option bytes :=
  match offsets with
  | [] => None
  | i :: offsets' =>
      match zlib_decompress (skipn i data) (-15) with
      | Ok r => Some r
      | Err _ => try_offsets offsets' data
      end
  end.

Definition _try_with_headers (data : bytes) : result bytes :=
  match try_headers headers_to_try data with
  | Some r => Ok r
  | None =>
      match try_offsets (seq 0 (Nat.min 10 (List.length data))) data with
      | Some r => Ok r
      | None => Err headers_failed_error
      end
  end.

Definition methods : list (string * (bytes -> result bytes)) :=
  [("_try_raw_deflate", _try_raw_deflate);
   ("_try_zlib_deflate", _try_zlib_deflate);
   ("_try_gzip_format", _try_gzip_format);
   ("_try_with_headers", _try_with_headers)].

(** The loop of [_decompress_data]: the result, and the lines printed. *)
Fixpoint try_methods (ms : list (string * (bytes -> result bytes)))
  (compressed_data : bytes) : result bytes * list string :=
  match ms with
  | [] => (Err exhausted_error, [])
  | (method_name, method) :: ms' =>
      match method compressed_data with
      | Ok r => (Ok r, [msg_success method_name])
      | Err e =>
          let '(res, out) := try_methods ms' compressed_data in
          (res, msg_failure method_name e :: out)
      end
  end.

Definition _decompress_data (compressed_data : bytes)
  : result bytes * list string :=
  try_methods methods compressed_data.

(** The two [except] clauses of [load_data]. *)
Definition handle (e : exn) : exn :=
  match exn_cls e with
  | BadZipFile => bad_zip_error
  | JSONDecodeError => json_error e
  | _ => e
  end.

(** Opening the archive and reading the data entry. *)
Definition read_data_file (path : string) (f : file) : result bytes :=
  match f with
  | NoFile =>
      Err (Raise FileNotFoundError
             ("[Errno 2] No such file or directory: '" ++ path ++ "'"))
  | Unreadable e => Err e
  | ZipArchive entries =>
      let data_files := filter (fun f => endswith f ".data") (namelist entries) in
      match data_files with
      | [] => Err missing_data_error
      | first :: _ => zip_read entries first
      end
  end.

(** The body of [load_data] below the cache test. *)
Definition decode (fs : filesystem) (self : SOPAnalyzer)
  : result json * SOPAnalyzer * list string :=
  let path := sop_file_path self in
  match fs path with
  | NoFile => (Err (file_not_found_error path), self, [])
  | f =>
      match read_data_file path f with
      | Err e => (Err (handle e), self, [])
      | Ok compressed_data =>
          let '(res, out) := _decompress_data compressed_data in
          match res with
          | Err e => (Err (handle e), self, out)
          | Ok decompressed_data =>
              match utf8_decode decompressed_data with
              | Err e => (Err (handle e), self, out)
              | Ok text =>
                  match json_loads text with
                  | Err e => (Err (handle e), self, out)
                  | Ok doc =>
                      (Ok doc,
                       {| sop_file_path := path; _data := doc |},
                       out)
                  end
              end
          end
      end
  end.

Definition load_data (fs : filesystem) (self : SOPAnalyzer)
  : result json * SOPAnalyzer * list string :=
  if negb (is_None (_data self)) then (Ok (_data self), self, [])
  else decode fs self.

(** A method of the analyzer: [data = self.load_data()], then its body. *)
Definition method {A} (body : json -> result A) (fs : filesystem)
  (self : SOPAnalyzer) : result A * SOPAnalyzer * list string :=
  let '(res, self', out) := load_data fs self in
  (data <- res ;; body data, self', out).

End Pipeline.

(** ** A model of [zlib.decompress]

    The decoder of the zlib library as [zlib.decompress(data, wbits)] runs it
    on a whole buffer: the deflate format (RFC 1951) under no wrapper
    ([wbits = -15]), the zlib wrapper ([wbits = 15], RFC 1950) or the wrapper
    found in the stream ([wbits = 47], zlib or gzip, RFC 1952).  The call
    returns when the stream ends (bytes after it are ignored) and raises
    [zlib.error] when the data are invalid or stop short. *)
Module Zlib.

Definition error (msg : string) : exn := Raise ZlibError msg.

Definition truncated : exn :=
  error "Error -5 while decompressing data: incomplete or truncated stream".

Definition data_error (msg : string) : exn :=
  error ("Error -3 while decompressing data: " ++ msg).

Definition need_dict : exn := error "Error 2 while decompressing data".

(** *** Reading bits, least significant first *)

Record bitstream := { cur : list bool; rest : bytes }.

Definition byte_bits (b : byte) : list bool :=
  let '(b0, (b1, (b2, (b3, (b4, (b5, (b6, b7))))))) := Byte.to_bits b in
  [b0; b1; b2; b3; b4; b5; b6; b7].

Definition getbit (s : bitstream) : result (bool * bitstream) :=
  match cur s with
  | b :: c => Ok (b, {| cur := c; rest := rest s |})
  | [] =>
      match rest s with
      | [] => Err truncated
      | x :: r =>
          match byte_bits x with
          | b :: c => Ok (b, {| cur := c; rest := r |})
          | [] => Err truncated
          end
      end
  end.

Fixpoint getbits (n : nat) (s : bitstream) : result (nat * bitstream) :=
  match n with
  | O => Ok (0, s)
  | S n' =>
      '(b, s1) <- getbit s ;;
      '(v, s2) <- getbits n' s1 ;;
      Ok (Nat.b2n b + 2 * v, s2)
  end.

(** [take n l]: the first [n] items and the rest, when there are [n]. *)
Fixpoint take {A} (n : nat) (l : list A) : option (list A * list A) :=
  match n, l with
  | O, _ => Some ([], l)
  | S _, [] => None
  | S n', x :: l' =>
      match take n' l' with
      | Some (a, b) => Some (x :: a, b)
      | None => None
      end
  end.

Definition le_value (l : bytes) : N :=
  fold_right (fun b acc => (Byte.to_N b + 256 * acc)%N) 0%N l.

Definition be_value (l : bytes) : N := le_value (rev l).

(** *** Checksums *)

Definition adler32 (data : bytes) : N :=
  let '(a, b) :=
    fold_left (fun '(a, b) x =>
                 let a' := ((a + Byte.to_N x) mod 65521)%N in
                 (a', ((b + a') mod 65521)%N))
              data (1%N, 0%N) in
  (b * 65536 + a)%N.

Fixpoint crc_shift (n : nat) (c : N) : N :=
  match n with
  | O => c
  | S n' =>
      crc_shift n' (if N.odd c then N.lxor (N.shiftr c 1) 3988292384
                    else N.shiftr c 1)
  end.

Definition crc32 (data : bytes) : N :=
  N.lxor 4294967295
    (fold_left (fun c x => crc_shift 8 (N.lxor c (Byte.to_N x)))
               data 4294967295%N).

(** *** Huffman codes

    A code is given by the code length of every symbol; it is kept as the
    symbols of each length, shortest first ([levels]). *)

Fixpoint syms_of_len (len : nat) (lens : list nat) (i : nat) : list nat :=
  match lens with
  | [] => []
  | l :: lens' =>
      if Nat.eqb l len then i :: syms_of_len len lens' (S i)
      else syms_of_len len lens' (S i)
  end.

Definition max_len (lens : list nat) : nat := fold_right Nat.max 0 lens.

Definition levels (lens : list nat) : list (list nat) :=
  map (fun len => syms_of_len len lens 0) (seq 1 (max_len lens)).

(** The code space left after each length; [None]: over-subscribed. *)
Fixpoint code_left (lv : list (list nat)) (space : Z) : option Z :=
  match lv with
  | [] => Some space
  | syms :: lv' =>
      let space' := (2 * space - Z.of_nat (List.length syms))%Z in
      if (space' <? 0)%Z then None else code_left lv' space'
  end.

Inductive code_kind := CODES | LENS | DISTS.

Definition is_CODES (k : code_kind) : bool :=
  match k with
  | CODES => true
  | _ => false
  end.

(** [inflate_table]: an empty set of lengths gives a code in which no bit
    is valid; an incomplete set is accepted only as a single code of one
    bit, and never for the code-length code. *)
Definition inflate_table (kind : code_kind) (lens : list nat)
  : option (list (list nat)) :=
  let m := max_len lens in
  if Nat.eqb m 0 then Some [[]]
  else
    match code_left (levels lens) 1 with
    | None => None
    | Some space =>
        if (0 <? space)%Z && (is_CODES kind || negb (Nat.eqb m 1))
        then None
        else Some (levels lens)
    end.

(** Decoding one symbol, a bit at a time; [None]: the bits read are no
    code word. *)
Fixpoint decode_sym (lv : list (list nat)) (code first : nat) (s : bitstream)
  : result (option nat * bitstream) :=
  match lv with
  | [] => Ok (None, s)
  | syms :: lv' =>
      '(b, s1) <- getbit s ;;
      let code := code + Nat.b2n b in
      let cnt := List.length syms in
      if Nat.ltb code (first + cnt)
      then Ok (nth_error syms (code - first), s1)
      else decode_sym lv' (2 * code) (2 * (first + cnt)) s1
  end.

Definition decode (lv : list (list nat)) (s : bitstream)
  : result (option nat * bitstream) :=
  match lv with
  | [] :: [] => '(_, s1) <- getbit s ;; Ok (None, s1)
  | _ => decode_sym lv 0 0 s
  end.

Definition fixed_lit_lens : list nat :=
  repeat 8 144 ++ repeat 9 112 ++ repeat 7 24 ++ repeat 8 8.

Definition fixed_dist_lens : list nat := repeat 5 32.

Definition lbase : list nat :=
  [3; 4; 5; 6; 7; 8; 9; 10; 11; 13; 15; 17; 19; 23; 27; 31; 35; 43; 51; 59;
   67; 83; 99; 115; 131; 163; 195; 227; 258].

Definition lext : list nat :=
  [0; 0; 0; 0; 0; 0; 0; 0; 1; 1; 1; 1; 2; 2; 2; 2; 3; 3; 3; 3; 4; 4; 4; 4;
   5; 5; 5; 5; 0].

Definition dbase : list nat :=
  map N.to_nat
    [1; 2; 3; 4; 5; 7; 9; 13; 17; 25; 33; 49; 65; 97; 129; 193; 257; 385;
     513; 769; 1025; 1537; 2049; 3073; 4097; 6145; 8193; 12289; 16385;
     24577]%N.

Definition dext : list nat :=
  [0; 0; 0; 0; 1; 1; 2; 2; 3; 3; 4; 4; 5; 5; 6; 6; 7; 7; 8; 8; 9; 9; 10;
   10; 11; 11; 12; 12; 13; 13].

Definition order : list nat :=
  [16; 17; 18; 0; 8; 7; 9; 6; 10; 5; 11; 4; 12; 3; 13; 2; 14; 1; 15].

Definition byte_of_nat (n : nat) : byte :=
  match Byte.of_N (N.of_nat n) with
  | Some b => b
  | None => x00
  end.

(** *** The output: the bytes written so far, last first *)

Record output := { written : bytes; size : N }.

Definition put (b : byte) (o : output) : output :=
  {| written := b :: written o; size := N.succ (size o) |}.

Fixpoint copy_match (len dist : nat) (o : output) : output :=
  match len with
  | O => o
  | S len' =>
      copy_match len' dist (put (nth (dist - 1) (written o) x00) o)
  end.

(** *** Blocks *)

(** The symbols of a compressed block, up to its end-of-block symbol. *)
Fixpoint inflate_codes (fuel : nat) (lit dist : list (list nat))
  (s : bitstream) (o : output) : result (bitstream * output) :=
  match fuel with
  | O => Err truncated
  | S fuel' =>
      '(sym, s1) <- decode lit s ;;
      match sym with
      | None => Err (data_error "invalid literal/length code")
      | Some v =>
          if Nat.ltb v 256 then
            inflate_codes fuel' lit dist s1 (put (byte_of_nat v) o)
          else if Nat.eqb v 256 then Ok (s1, o)
          else if Nat.leb 286 v then
            Err (data_error "invalid literal/length code")
          else
            '(extra, s2) <- getbits (nth (v - 257) lext 0) s1 ;;
            let len := nth (v - 257) lbase 0 + extra in
            '(dsym, s3) <- decode dist s2 ;;
            match dsym with
            | None => Err (data_error "invalid distance code")
            | Some d =>
                if Nat.leb 30 d then
                  Err (data_error "invalid distance code")
                else
                  '(dextra, s4) <- getbits (nth d dext 0) s3 ;;
                  let distance := nth d dbase 0 + dextra in
                  if (size o <? N.of_nat distance)%N then
                    Err (data_error "invalid distance too far back")
                  else
                    inflate_codes fuel' lit dist s4
                      (copy_match len distance o)
            end
      end
  end.

(** A stored block: [LEN], its complement, then [LEN] bytes. *)
Definition inflate_stored (s : bitstream) (o : output)
  : result (bitstream * output) :=
  match rest s with
  | l0 :: l1 :: n0 :: n1 :: data =>
      let len := le_value [l0; l1] in
      let nlen := le_value [n0; n1] in
      if negb (len =? N.lxor nlen 65535)%N then
        Err (data_error "invalid stored block lengths")
      else
        match take (N.to_nat len) data with
        | None => Err truncated
        | Some (block, data') =>
            Ok ({| cur := []; rest := data' |},
                {| written := rev_append block (written o);
                   size := (size o + len)%N |})
        end
  | _ => Err truncated
  end.

(** The code lengths of a dynamic block, read with the code-length code;
    [lens] holds them last first. *)
Fixpoint read_lens (fuel : nat) (cl : list (list nat)) (want : nat)
  (lens : list nat) (s : bitstream) : result (list nat * bitstream) :=
  match fuel with
  | O => Err truncated
  | S fuel' =>
      let have := List.length lens in
      if Nat.leb want have then Ok (rev_append lens [], s)
      else
        '(sym, s1) <- decode cl s ;;
        let v := match sym with Some v => v | None => 0 end in
        if Nat.ltb v 16 then read_lens fuel' cl want (v :: lens) s1
        else
          '(len, copy, s2) <-
            (if Nat.eqb v 16 then
               '(x, s2) <- getbits 2 s1 ;;
               match lens with
               | [] => Err (data_error "invalid bit length repeat")
               | last :: _ => Ok (last, 3 + x, s2)
               end
             else if Nat.eqb v 17 then
               '(x, s2) <- getbits 3 s1 ;; Ok (0, 3 + x, s2)
             else
               '(x, s2) <- getbits 7 s1 ;; Ok (0, 11 + x, s2)) ;;
          if Nat.ltb want (have + copy) then
            Err (data_error "invalid bit length repeat")
          else read_lens fuel' cl want (repeat len copy ++ lens) s2
  end.

Fixpoint read_code_lens (n : nat) (s : bitstream)
  : result (list nat * bitstream) :=
  match n with
  | O => Ok ([], s)
  | S n' =>
      '(v, s1) <- getbits 3 s ;;
      '(vs, s2) <- read_code_lens n' s1 ;;
      Ok (v :: vs, s2)
  end.

(** The lengths read in the order of [order], as the lengths of the
    symbols 0..18. *)
Definition code_length_lens (vs : list nat) : list nat :=
  map (fun sym =>
         match find (fun p => Nat.eqb (fst p) sym) (combine order vs) with
         | Some p => snd p
         | None => 0
         end)
      (seq 0 19).

Definition inflate_dynamic (fuel : nat) (s : bitstream) (o : output)
  : result (bitstream * output) :=
  '(hlit, s1) <- getbits 5 s ;;
  '(hdist, s2) <- getbits 5 s1 ;;
  '(hclen, s3) <- getbits 4 s2 ;;
  let nlen := hlit + 257 in
  let ndist := hdist + 1 in
  let ncode := hclen + 4 in
  if Nat.ltb 286 nlen || Nat.ltb 30 ndist then
    Err (data_error "too many length or distance symbols")
  else
    '(vs, s4) <- read_code_lens ncode s3 ;;
    match inflate_table CODES (code_length_lens vs) with
    | None => Err (data_error "invalid code lengths set")
    | Some cl =>
        '(lens, s5) <- read_lens (S (nlen + ndist)) cl (nlen + ndist) [] s4 ;;
        if Nat.eqb (nth 256 lens 0) 0 then
          Err (data_error "invalid code -- missing end-of-block")
        else
          match inflate_table LENS (firstn nlen lens) with
          | None => Err (data_error "invalid literal/lengths set")
          | Some lit =>
              match inflate_table DISTS (skipn nlen lens) with
              | None => Err (data_error "invalid distances set")
              | Some dist => inflate_codes fuel lit dist s5 o
              end
          end
    end.

(** The blocks of a deflate stream, through the final one. *)
Fixpoint inflate_blocks (fuel : nat) (s : bitstream) (o : output)
  : result (bitstream * output) :=
  match fuel with
  | O => Err truncated
  | S fuel' =>
      '(last, s1) <- getbit s ;;
      '(type, s2) <- getbits 2 s1 ;;
      '(s3, o3) <-
        (match type with
         | 0 => inflate_stored s2 o
         | 1 => inflate_codes fuel' (levels fixed_lit_lens)
                  (levels fixed_dist_lens) s2 o
         | 2 => inflate_dynamic fuel' s2 o
         | _ => Err (data_error "invalid block type")
         end) ;;
      if last : bool then Ok (s3, o3) else inflate_blocks fuel' s3 o3
  end.

(** Every step of the loops above reads a bit, so the bits of the input
    bound their length: a loop stops on the end of its block, on an error
    or on the end of the input before this fuel is spent. *)
Definition fuel_for (data : bytes) : nat := S (8 * List.length data).

Definition start (data : bytes) : bitstream := {| cur := []; rest := data |}.

Definition empty : output := {| written := []; size := 0 |}.

Definition result_of (o : output) : bytes := rev_append (written o) [].

(** *** Wrappers *)

Definition inflate_raw (data : bytes) : result bytes :=
  '(_, o) <- inflate_blocks (fuel_for data) (start data) empty ;;
  Ok (result_of o).

(** The two header bytes of a zlib stream: a multiple of 31, method 8, a
    window of at most 32K. *)
Definition zlib_header (cmf flg : byte) : result bool :=
  let c := Byte.to_N cmf in
  let f := Byte.to_N flg in
  if negb (((c * 256 + f) mod 31) =? 0)%N then
    Err (data_error "incorrect header check")
  else if negb (N.land c 15 =? 8)%N then
    Err (data_error "unknown compression method")
  else if (7 <? N.shiftr c 4)%N then
    Err (data_error "invalid window size")
  else Ok (N.testbit f 5).

Definition inflate_zlib (data : bytes) : result bytes :=
  match data with
  | cmf :: flg :: body =>
      fdict <- zlib_header cmf flg ;;
      if fdict : bool then
        match take 4 body with
        | None => Err truncated
        | Some _ => Err need_dict
        end
      else
        '(s, o) <- inflate_blocks (fuel_for body) (start body) empty ;;
        match take 4 (rest s) with
        | None => Err truncated
        | Some (check, _) =>
            if (be_value check =? adler32 (result_of o))%N
            then Ok (result_of o)
            else Err (data_error "incorrect data check")
        end
  | _ => Err truncated
  end.

Fixpoint skip_zero_terminated (l : bytes) : option bytes :=
  match l with
  | [] => None
  | x :: l' => if Byte.eqb x x00 then Some l' else skip_zero_terminated l'
  end.

Definition when {A} (c : bool) (f : A -> result A) (a : A) : result A :=
  if c then f a else Ok a.

(** The gzip header after its two magic bytes; returns the deflate data. *)
Definition gzip_header_rest (data body : bytes) : result bytes :=
  match body with
  | cm :: flg :: body1 =>
      let f := Byte.to_N flg in
      if negb (Byte.eqb cm x08) then
        Err (data_error "unknown compression method")
      else if negb (N.land f 224 =? 0)%N then
        Err (data_error "unknown header flags set")
      else
        match take 6 body1 with
        | None => Err truncated
        | Some (_, body2) =>
            body3 <- when (N.testbit f 2)
              (fun b =>
                 match take 2 b with
                 | None => Err truncated
                 | Some (xlen, b') =>
                     match take (N.to_nat (le_value xlen)) b' with
                     | None => Err truncated
                     | Some (_, b'') => Ok b''
                     end
                 end) body2 ;;
            body4 <- when (N.testbit f 3)
              (fun b => match skip_zero_terminated b with
                        | None => Err truncated
                        | Some b' => Ok b'
                        end) body3 ;;
            body5 <- when (N.testbit f 4)
              (fun b => match skip_zero_terminated b with
                        | None => Err truncated
                        | Some b' => Ok b'
                        end) body4 ;;
            when (N.testbit f 1)
              (fun b =>
                 match take 2 b with
                 | None => Err truncated
                 | Some (hcrc, b') =>
                     let header :=
                       firstn (List.length data - List.length b) data in
                     if (le_value hcrc =? N.land (crc32 header) 65535)%N
                     then Ok b'
                     else Err (data_error "header crc mismatch")
                 end) body5
        end
  | _ => Err truncated
  end.

Definition inflate_gzip (data body : bytes) : result bytes :=
  deflated <- gzip_header_rest data body ;;
  '(s, o) <- inflate_blocks (fuel_for deflated) (start deflated) empty ;;
  match take 4 (rest s) with
  | None => Err truncated
  | Some (check, trailer) =>
      if negb (le_value check =? crc32 (result_of o))%N then
        Err (data_error "incorrect data check")
      else
        match take 4 trailer with
        | None => Err truncated
        | Some (isize, _) =>
            if (le_value isize =? size o mod 4294967296)%N
            then Ok (result_of o)
            else Err (data_error "incorrect length check")
        end
  end.

Definition inflate_auto (data : bytes) : result bytes :=
  match data with
  | x1f :: x8b :: body => inflate_gzip data body
  | _ => inflate_zlib data
  end.

(** [zlib.decompress(data, wbits)] for the values of [wbits] the analyzer
    passes; any other value is refused. *)
Definition decompress (data : bytes) (wbits : Z) : result bytes :=
  if (wbits =? -15)%Z then inflate_raw data
  else if (wbits =? 15)%Z then inflate_zlib data
  else if (wbits =? 47)%Z then inflate_auto data
  else Err (error "Error -2 while preparing to decompress data: inconsistent stream state").





End Zlib.

(** ** A model of [bytes.decode('utf-8')] and of [json.loads]

    A Python [str] is kept as its UTF-8 bytes (a lone surrogate, which only
    a [\u] escape can produce, as the three bytes of its code point). *)

Definition decimal (n : nat) : string :=
  NilEmpty.string_of_uint (Nat.to_uint n).

Definition hex_digit (n : N) : string :=
  String.substring (N.to_nat n) 1 "0123456789abcdef".

Definition hex2 (b : byte) : string :=
  hex_digit (Byte.to_N b / 16) ++ hex_digit (Byte.to_N b mod 16).

Definition is_continuation (b : byte) : bool :=
  (N.land (Byte.to_N b) 192 =? 128)%N.

(** The number of code points of a text: its bytes that continue none. *)
Definition code_points (s : bytes) : nat :=
  List.length (filter (fun b => negb (is_continuation b)) s).

Module Utf8.

(** What stops the decoder at a byte sequence. *)
Inductive fault :=
| InvalidStart
| UnexpectedEnd
| InvalidContinuation (accepted : nat).

(** The sequence at the head of [s]: its length, or what is wrong. *)
Definition scan (s : bytes) : nat + fault :=
  match s with
  | [] => inl 0
  | b :: s1 =>
      let ch := Byte.to_N b in
      if (ch <? 128)%N then inl 1
      else if (ch <? 194)%N then inr InvalidStart
      else if (ch <? 224)%N then
        match s1 with
        | [] => inr UnexpectedEnd
        | b2 :: _ =>
            if is_continuation b2 then inl 2 else inr (InvalidContinuation 1)
        end
      else if (ch <? 240)%N then
        match s1 with
        | [] => inr UnexpectedEnd
        | b2 :: s2 =>
            let ch2 := Byte.to_N b2 in
            if negb (is_continuation b2)
               || (if (ch2 <? 160)%N then (ch =? 224)%N else (ch =? 237)%N)
            then inr (InvalidContinuation 1)
            else
              match s2 with
              | [] => inr UnexpectedEnd
              | b3 :: _ =>
                  if is_continuation b3 then inl 3
                  else inr (InvalidContinuation 2)
              end
        end
      else if (ch <? 245)%N then
        match s1 with
        | [] => inr UnexpectedEnd
        | b2 :: s2 =>
            let ch2 := Byte.to_N b2 in
            if negb (is_continuation b2)
               || (if (ch2 <? 144)%N then (ch =? 240)%N else (ch =? 244)%N)
            then inr (InvalidContinuation 1)
            else
              match s2 with
              | [] => inr UnexpectedEnd
              | b3 :: s3 =>
                  if negb (is_continuation b3) then inr (InvalidContinuation 2)
                  else
                    match s3 with
                    | [] => inr UnexpectedEnd
                    | b4 :: _ =>
                        if is_continuation b4 then inl 4
                        else inr (InvalidContinuation 3)
                    end
              end
        end
      else inr InvalidStart
  end.

Definition error (data : bytes) (start stop : nat) (reason : string) : exn :=
  Raise UnicodeDecodeError
    (if Nat.eqb stop (S start) then
       "'utf-8' codec can't decode byte 0x" ++ hex2 (nth start data x00)
         ++ " in position " ++ decimal start ++ ": " ++ reason
     else
       "'utf-8' codec can't decode bytes in position " ++ decimal start
         ++ "-" ++ decimal (stop - 1) ++ ": " ++ reason).

(** Where [s], a suffix of [data], starts. *)
Definition position (data s : bytes) : nat :=
    List.length data - List.length s.

Fixpoint check (fuel : nat) (data s : bytes) : result unit :=
    match fuel with
    | O => Ok tt
    | S fuel' =>
        match s with
        | [] => Ok tt
        | _ =>
            match scan s with
            | inl n => check fuel' data (skipn n s)
            | inr InvalidStart =>
                Err (error data (position data s) (S (position data s))
                       "invalid start byte")
            | inr UnexpectedEnd =>
                Err (error data (position data s) (List.length data)
                       "unexpected end of data")
            | inr (InvalidContinuation k) =>
                Err (error data (position data s) (position data s + k)
                       "invalid continuation byte")
            end
        end
    end.

Definition decode (data : bytes) : result string :=
  _ <- check (List.length data) data data ;;
  Ok (string_of_list_byte data).

(** The bytes of a code point (below 0x110000). *)
Definition encode (c : N) : bytes :=
  let byte_of n := match Byte.of_N n with Some b => b | None => x00 end in
  let cont n := byte_of (128 + n mod 64)%N in
  if (c <? 128)%N then [byte_of c]
  else if (c <? 2048)%N then [byte_of (192 + c / 64)%N; cont c]
  else if (c <? 65536)%N then
    [byte_of (224 + c / 4096)%N; cont (c / 64)%N; cont c]
  else
    [byte_of (240 + c / 262144)%N; cont (c / 4096)%N; cont (c / 64)%N; cont c].

End Utf8.

Module Json.

(** [JSONDecodeError(msg, doc, pos)], with [pos] where [s], a suffix of
    [doc], starts. *)
Definition error (msg : string) (doc s : bytes) : exn :=
  let before := firstn (List.length doc - List.length s) doc in
  let line := List.length (filter (Byte.eqb x0a) before) in
  let column :=
    (fix col (l : bytes) (acc : bytes) : bytes :=
       match l with
       | [] => acc
       | b :: l' => if Byte.eqb b x0a then col l' [] else col l' (b :: acc)
       end) before [] in
  Raise JSONDecodeError
    (msg ++ ": line " ++ decimal (S line)
         ++ " column " ++ decimal (S (code_points column))
         ++ " (char " ++ decimal (code_points before) ++ ")").

Definition is_whitespace (b : byte) : bool :=
  match b with
  | x20 | x09 | x0a | x0d => true
  | _ => false
  end.

Fixpoint skip_whitespace (s : bytes) : bytes :=
  match s with
  | b :: s' => if is_whitespace b then skip_whitespace s' else s
  | [] => []
  end.

Definition is_digit (b : byte) : bool :=
  (48 <=? Byte.to_N b)%N && (Byte.to_N b <=? 57)%N.

Fixpoint span_digits (s : bytes) : bytes * bytes :=
  match s with
  | b :: s' =>
      if is_digit b then let '(d, r) := span_digits s' in (b :: d, r)
      else ([], s)
  | [] => ([], [])
  end.

Definition digits_value (d : bytes) : Z :=
  fold_left (fun acc b => (10 * acc + Z.of_N (Byte.to_N b - 48))%Z) d 0%Z.

Fixpoint starts_with (p s : bytes) : option bytes :=
  match p, s with
  | [], _ => Some s
  | x :: p', y :: s' => if Byte.eqb x y then starts_with p' s' else None
  | _ :: _, [] => None
  end.

(** A number: the integer part, then a fraction and an exponent when they
    are complete. *)
Definition match_number (doc s : bytes) : result (json * bytes) :=
  let '(sign, s1) :=
    match s with
    | x2d :: s' => ([x2d], s')
    | _ => ([], s)
    end in
  let '(int_part, s2) :=
    match s1 with
    | x30 :: s' => ([x30], s')
    | _ => if match s1 with b :: _ => is_digit b | [] => false end
           then span_digits s1 else ([], s1)
    end in
  match int_part with
  | [] => Err (error "Expecting value" doc s)
  | _ =>
      let '(frac, s3) :=
        match s2 with
        | x2e :: b :: s' =>
            if is_digit b
            then let '(d, r) := span_digits (b :: s') in (x2e :: d, r)
            else ([], s2)
        | _ => ([], s2)
        end in
      let '(expo, s4) :=
        match s3 with
        | e :: c :: s' =>
            if Byte.eqb e x65 || Byte.eqb e x45 then
              let '(esign, s'') :=
                match c, s' with
                | x2d, _ :: _ => ([c], s')
                | x2b, _ :: _ => ([c], s')
                | _, _ => ([], c :: s')
                end in
              let '(d, r) := span_digits s'' in
              match d with
              | [] => ([], s3)
              | _ => (e :: esign ++ d, r)
              end
            else ([], s3)
        | _ => ([], s3)
        end in
      match frac, expo with
      | [], [] =>
          let v := digits_value int_part in
          Ok (JInt (match sign with [] => v | _ => (- v)%Z end), s4)
      | _, _ =>
          Ok (JFloat (string_of_list_byte (sign ++ int_part ++ frac ++ expo)),
              s4)
      end
  end.

Definition hex_value (b : byte) : option N :=
  let n := Byte.to_N b in
  if is_digit b then Some (n - 48)%N
  else if (97 <=? n)%N && (n <=? 102)%N then Some (n - 87)%N
  else if (65 <=? n)%N && (n <=? 70)%N then Some (n - 55)%N
  else None.

Definition hex4 (h1 h2 h3 h4 : byte) : option N :=
  match hex_value h1, hex_value h2, hex_value h3, hex_value h4 with
  | Some a, Some b, Some c, Some d => Some (((a * 16 + b) * 16 + c) * 16 + d)%N
  | _, _, _, _ => None
  end.

Definition escape_char (c : byte) : option byte :=
  match c with
  | x22 => Some x22
  | x5c => Some x5c
  | x2f => Some x2f
  | x62 => Some x08
  | x66 => Some x0c
  | x6e => Some x0a
  | x72 => Some x0d
  | x74 => Some x09
  | _ => None
  end.

(** The inside of a string, from after its opening quote at [start]; [acc]
    holds the bytes read, last first. *)
Fixpoint scanstring (fuel : nat) (doc start s : bytes) (acc : bytes)
  : result (string * bytes) :=
  match fuel with
  | O => Err (error "Unterminated string starting at" doc start)
  | S fuel' =>
      match s with
      | [] => Err (error "Unterminated string starting at" doc start)
      | x22 :: s1 => Ok (string_of_list_byte (rev_append acc []), s1)
      | x5c :: s1 =>
          match s1 with
          | [] => Err (error "Unterminated string starting at" doc start)
          | x75 :: s2 =>
              match s2 with
              | h1 :: h2 :: h3 :: h4 :: (_ :: _) as s3 =>
                  match hex4 h1 h2 h3 h4 with
                  | None => Err (error "Invalid \uXXXX escape" doc s1)
                  | Some c =>
                      let single :=
                        scanstring fuel' doc start s3
                          (rev_append (Utf8.encode c) acc) in
                      if (55296 <=? c)%N && (c <=? 56319)%N then
                        match s3 with
                        | x5c :: x75 :: g1 :: g2 :: g3 :: g4 :: (_ :: _) as s4 =>
                            match hex4 g1 g2 g3 g4 with
                            | None =>
                                Err (error "Invalid \uXXXX escape" doc
                                       (skipn 1 s3))
                            | Some c2 =>
                                if (56320 <=? c2)%N && (c2 <=? 57343)%N then
                                  scanstring fuel' doc start s4
                                    (rev_append
                                       (Utf8.encode
                                          (65536 + (c - 55296) * 1024
                                           + (c2 - 56320))%N)
                                       acc)
                                else single
                            end
                        | _ => single
                        end
                      else single
                  end
              | _ => Err (error "Invalid \uXXXX escape" doc s1)
              end
          | c :: s2 =>
              match escape_char c with
              | Some b => scanstring fuel' doc start s2 (b :: acc)
              | None => Err (error "Invalid \escape" doc s)
              end
          end
      | c :: s1 =>
          if (Byte.to_N c <=? 31)%N then
            Err (error "Invalid control character at" doc s)
          else scanstring fuel' doc start s1 (c :: acc)
      end
  end.

(** [d[key] = value] while an object is read. *)
Fixpoint set_item (key : string) (value : json) (items : list (string * json))
  : list (string * json) :=
  match items with
  | [] => [(key, value)]
  | (k, v) :: items' =>
      if String.eqb key k then (k, value) :: items'
      else (k, v) :: set_item key value items'
  end.

Definition string_at (doc s : bytes) : result (string * bytes) :=
  match s with
  | x22 :: s1 => scanstring (S (List.length s1)) doc s s1 []
  | _ => Err (error "Expecting property name enclosed in double quotes" doc s)
  end.

Fixpoint scan_once (fuel : nat) (doc s : bytes) : result (json * bytes) :=
  match fuel with
  | O => Err (error "Expecting value" doc s)
  | S fuel' =>
      match s with
      | [] => Err (error "Expecting value" doc s)
      | x22 :: s1 =>
          '(text, s2) <- scanstring (S (List.length s1)) doc s s1 [] ;;
          Ok (JStr text, s2)
      | x7b :: s1 =>
          match skip_whitespace s1 with
          | x7d :: s2 => Ok (JObj [], s2)
          | s2 => object_items fuel' doc s2 []
          end
      | x5b :: s1 =>
          match skip_whitespace s1 with
          | x5d :: s2 => Ok (JArr [], s2)
          | s2 => array_items fuel' doc s2 []
          end
      | _ =>
          let literal (text : string) (v : json) :=
            match starts_with (list_byte_of_string text) s with
            | Some s' => Some (v, s')
            | None => None
            end in
          let found :=
            match s with
            | x6e :: _ => literal "null" JNull
            | x74 :: _ => literal "true" (JBool true)
            | x66 :: _ => literal "false" (JBool false)
            | x4e :: _ => literal "NaN" (JFloat "NaN")
            | x49 :: _ => literal "Infinity" (JFloat "Infinity")
            | x2d :: _ => literal "-Infinity" (JFloat "-Infinity")
            | _ => None
            end in
          match found with
          | Some r => Ok r
          | None => match_number doc s
          end
      end
  end

with object_items (fuel : nat) (doc s : bytes) (items : list (string * json))
  : result (json * bytes) :=
  match fuel with
  | O => Err (error "Expecting value" doc s)
  | S fuel' =>
      '(key, s1) <- string_at doc s ;;
      match skip_whitespace s1 with
      | x3a :: s2 =>
          '(value, s3) <- scan_once fuel' doc (skip_whitespace s2) ;;
          let items' := set_item key value items in
          match skip_whitespace s3 with
          | x7d :: s4 => Ok (JObj items', s4)
          | x2c :: s4 => object_items fuel' doc (skip_whitespace s4) items'
          | s4 => Err (error "Expecting ',' delimiter" doc s4)
          end
      | s2 => Err (error "Expecting ':' delimiter" doc s2)
      end
  end

with array_items (fuel : nat) (doc s : bytes) (items : list json)
  : result (json * bytes) :=
  match fuel with
  | O => Err (error "Expecting value" doc s)
  | S fuel' =>
      '(value, s1) <- scan_once fuel' doc s ;;
      match skip_whitespace s1 with
      | x5d :: s2 => Ok (JArr (rev_append (value :: items) []), s2)
      | x2c :: s2 => array_items fuel' doc (skip_whitespace s2) (value :: items)
      | s2 => Err (error "Expecting ',' delimiter" doc s2)
      end
  end.

(** [json.loads(text)]. *)
Definition loads (text : string) : result json :=
  let doc := list_byte_of_string text in
  match starts_with [xef; xbb; xbf] doc with
  | Some _ =>
      Err (error "Unexpected UTF-8 BOM (decode using utf-8-sig)" doc doc)
  | None =>
      '(obj, s) <- scan_once (2 * List.length doc + 2) doc (skip_whitespace doc) ;;
      match skip_whitespace s with
      | [] => Ok obj
      | s' => Err (error "Extra data" doc s')
      end
  end.

End Json.

(** ** Notions used in the statements *)

(** The records a method walks: [data.get('records', [])], iterated. *)
Definition records_of (data : json) : result (list json) :=
  records <- py_get data "records" (JArr []) ;; py_iter records.

(** A field of a record, when the record is an object that has it. *)
Definition field (record : json) (key : string) : option json :=
  match record with
  | JObj m => assoc key m
  | _ => None
  end.

(** The record carries [is_strong_overwrite] with the boolean [true]. *)
Definition strong_flag (record : json) : bool :=
  match field record "is_strong_overwrite" with
  | Some (JBool true) => true
  | _ => false
  end.

(** The record carries [action] with the string [delete]. *)
Definition delete_action (record : json) : bool :=
  match field record "action" with
  | Some (JStr s) => String.eqb s "delete"
  | _ => false
  end.

(** The bucket of a record: its table name as a dict key. *)
Definition table_key (record : json) : result hkey :=
  t <- py_get record "table_name" (JStr "unknown") ;; py_hash t.

(** The position at which [k] first occurs in [keys]. *)
Fixpoint first_index (k : hkey) (keys : list hkey) : nat :=
  match keys with
  | [] => 0
  | k' :: keys' => if hkey_eqb k k' then 0 else S (first_index k keys')
  end.

(** The scenario of the documentation: four records over three tables. *)
Definition sample_record (table action : string) (strong : list (string * json))
  : json :=
  JObj ([("table_name", JStr table); ("action", JStr action)] ++ strong).

Definition sample_data : json :=
  JObj [("records",
         JArr [sample_record "users" "insert" [];
               sample_record "users" "delete" [];
               sample_record "products" "update"
                 [("is_strong_overwrite", JBool true)];
               sample_record "orders" "insert" []])].

(** The sum of a measure over the values. *)
Definition dict_total {V} (m : V -> nat) (d : pydict V) : nat :=
  list_sum (map (fun e => m (snd (snd e))) d).

(** Every entry is filed under the hash of the key object it keeps. *)
Definition well_keyed {V} (d : pydict V) : Prop :=
  Forall (fun e => py_hash (fst (snd e)) = Ok (fst e)) d.

(** [x] goes before [y]: a greater count, or the same count and an earlier
    rank. *)
Definition goes_before {A} (key rank : A -> nat) (x y : A) : Prop :=
  key y < key x \/ (key x = key y /\ rank x < rank y).

(** The count filed under a key. *)
Definition count_of (tables : pydict table_data) (k : hkey) : nat :=
  count (dict_get_default k tables {| count := 0; table_actions := [] |}).

(** What holds of [tables] once the records with the keys [p] are filed. *)
Record tables_inv (p : list hkey) (tables : pydict table_data) : Prop := {
  inv_keyed : well_keyed tables;
  inv_nodup : NoDup (dict_keys tables);
  inv_keys : forall k, In k (dict_keys tables) <-> In k p;
  inv_count : forall k, count_of tables k = count_occ hkey_eq_dec p k;
  inv_order :
    StronglySorted (fun a b => first_index a p < first_index b p)
      (dict_keys tables)
}.

(** The lines printed for strategies that raised, in the order tried. *)
Definition failure_lines (data : bytes) (lines : list string)
  (ms : list (string * (bytes -> result bytes))) : Prop :=
  Forall2 (fun line m => exists e, snd m data = Err e /\
                                   line = msg_failure (fst m) e)
          lines ms.


(** ** Archives used in the examples

    Each archive holds one entry, [package.data]; the bytes of the first
    three are what [zlib.compress] returns for the JSON text named. *)

(** The text of [sample_data] as [json.dumps] writes it. *)
Definition sample_compressed : bytes :=
  [x78; x9c; x8d; x8e; x41; x0a; x84; x30; x10; x04; xbf; x12; xe6; xec; x0b;
   xfc; x8a; x2c; x21; x26; xcd; x12; x70; x33; x32; x33; x71; x0f; xe2; xdf;
   x1d; xaf; xe2; xc2; x1e; xbb; xa8; x6e; x7a; x27; x41; x66; x29; x4a; x63;
   x98; x76; xb2; x34; x2f; x88; x2d; x7d; xe0; x99; xba; x42; x94; x86; x40;
   x29; x5b; xe5; x76; xa1; xda; x9c; x19; x1d; x43; xf8; x43; x2e; x58; x60;
   x78; x92; x57; xe1; xd2; xb3; xdd; xfc; xbe; x96; xe4; xbe; xb3; xaa; x51;
   x4d; xb8; xbd; x23; x6f; x90; xaf; x54; xbb; x6a; x26; x1d; x0f; x63; x7e;
   xff; xe7; xcf; xd7; x71; x02; x49; xdc; x4b; xac].

(** The text [null]. *)
Definition null_compressed : bytes :=
  [x78; x9c; xcb; x2b; xcd; xc9; x01; x00; x04; x5f; x01; xbc].

(** The text of the empty object. *)
Definition empty_object_compressed : bytes :=
  [x78; x9c; xab; xae; x05; x00; x01; x75; x00; xf9].

Definition archive_of (entries : list (string * result bytes)) : filesystem :=
  fun path =>
    if String.eqb path "package.sop" then ZipArchive entries else NoFile.

Definition package_of (compressed : bytes) : filesystem :=
  archive_of [("package.data", Ok compressed)].

Definition no_files : filesystem := fun _ => NoFile.

(** What [analyze_tables] returns on [sample_data]. *)
Definition sample_tables : list TableInfo :=
  [{| name := JStr "users"; record_count := 2;
      actions := [(HStr "insert", (JStr "insert", 1));
                  (HStr "delete", (JStr "delete", 1))] |};
   {| name := JStr "products"; record_count := 1;
      actions := [(HStr "update", (JStr "update", 1))] |};
   {| name := JStr "orders"; record_count := 1;
      actions := [(HStr "insert", (JStr "insert", 1))] |}].





(** ** The diagnostic view, the report and the table printer *)

(** [zipfile.ZipFile(path, 'r')]: the entries, or what it raises. *)
Definition zip_open (path : string) (f : file)
  : result (list (string * result bytes)) :=
  match f with
  | NoFile =>
      Err (Raise FileNotFoundError
             ("[Errno 2] No such file or directory: '" ++ path ++ "'"))
  | Unreadable e => Err e
  | ZipArchive entries => Ok entries
  end.

(** [data.hex()]. *)
Definition bytes_hex (data : bytes) : string :=
  String.concat "" (map hex2 data).

(** [data[:n]] and [data[-n:]]. *)
Definition first_bytes (n : nat) (data : bytes) : bytes := firstn n data.

Definition last_bytes (n : nat) (data : bytes) : bytes :=
  skipn (List.length data - n) data.

(** What [get_raw_data_info] returns: the dict with the one key [error], or
    the dict with the four keys of the data entry. *)
Inductive raw_data_info :=
| InfoError (error : string)
| Info (data_file_size : nat) (first_10_bytes last_10_bytes : string)
    (files_in_archive : list string).

Definition get_raw_data_info (fs : filesystem) (self : SOPAnalyzer)
  : raw_data_info :=
  let path := sop_file_path self in
  let attempt :=
    entries <- zip_open path (fs path) ;;
    match filter (fun f => endswith f ".data") (namelist entries) with
    | [] => Ok (InfoError "No .data file found")
    | first :: _ =>
        raw_data <- zip_read entries first ;;
        Ok (Info (List.length raw_data)
              (bytes_hex (first_bytes 10 raw_data))
              (bytes_hex (last_bytes 10 raw_data))
              (namelist entries))
    end in
  match attempt with
  | Ok info => info
  | Err e => InfoError (str e)
  end.

(** The dict [generate_report] returns. *)
Record Report := {
  report_metadata : Metadata;
  total_records : nat;
  delete_operations : nat;
  report_strong_overwrites : nat;
  actions_breakdown : pydict nat;
  report_tables : list TableInfo;
  file_path : string;
  file_size : nat;
  analysis_date : string
}.

Section Report.

Variable zlib_decompress : bytes -> Z -> result bytes.
Variable utf8_decode : bytes -> result string.
Variable json_loads : string -> result json.

(** [self.sop_file_path.stat().st_size], which may raise, and
    [datetime.datetime.now().isoformat()]. *)
Variable stat_size : string -> result nat.
Variable now_isoformat : string.

(** A step of a method that calls others on [self]: the result, the
    analyzer after it, the lines printed. *)
Definition step (A : Type) : Type :=
  SOPAnalyzer -> result A * SOPAnalyzer * list string.

Definition and_then {A B} (m : step A) (k : A -> step B) : step B :=
  fun self =>
    let '(res, self1, out1) := m self in
    match res with
    | Err e => (Err e, self1, out1)
    | Ok a =>
        let '(res2, self2, out2) := k a self1 in
        (res2, self2, out1 ++ out2)
    end.

Definition generate_report (fs : filesystem) : step Report :=
  and_then (method zlib_decompress utf8_decode json_loads get_metadata fs)
    (fun metadata =>
  and_then (method zlib_decompress utf8_decode json_loads analyze_records fs)
    (fun record_stats =>
  and_then (method zlib_decompress utf8_decode json_loads analyze_tables fs)
    (fun tables =>
  and_then (method zlib_decompress utf8_decode json_loads get_actions_summary fs)
    (fun actions self =>
       (size <- stat_size (sop_file_path self) ;;
        Ok {| report_metadata := metadata;
              total_records := total record_stats;
              delete_operations := deletes record_stats;
              report_strong_overwrites := strong_overwrites record_stats;
              actions_breakdown := actions;
              report_tables := tables;
              file_path := sop_file_path self;
              file_size := size;
              analysis_date := now_isoformat |},
        self, []))))).

End Report.

(** [len(s)] for a text: its characters, the bytes that continue none. *)
Definition str_len (s : string) : nat :=
  List.length (filter (fun c => negb (continues c)) (list_ascii_of_string s)).

Fixpoint str_repeat (s : string) (n : nat) : string :=
  match n with
  | O => ""
  | S n' => s ++ str_repeat s n'
  end.

(** [f"{s:<{width}}"]: [s], then spaces up to [width] characters. *)
Definition ljust (s : string) (width : nat) : string :=
  s ++ str_repeat " " (width - str_len s).

(** The width of column [i]: the longest of the header and of the cells the
    rows have there, plus 2. *)
Definition col_width (rows : list (list string)) (i : nat) (header : string)
  : nat :=
  fold_left (fun max_width row =>
               match nth_error row i with
               | Some cell => Nat.max max_width (str_len cell)
               | None => max_width
               end)
            rows (str_len header) + 2.

Fixpoint enumerate_from {A} (i : nat) (l : list A) : list (nat * A) :=
  match l with
  | [] => []
  | x :: l' => (i, x) :: enumerate_from (S i) l'
  end.

Definition enumerate {A} (l : list A) : list (nat * A) := enumerate_from 0 l.

Definition col_widths (headers : list string) (rows : list (list string))
  : list nat :=
  map (fun ih => col_width rows (fst ih) (snd ih)) (enumerate headers).

Definition index_error : exn := Raise (OtherError "IndexError") "list index out of range".

(** The cells of a line, each padded to the width of its column; a cell
    beyond the last column has no width to look up. *)
Fixpoint format_cells (widths : list nat) (cells : list (nat * string))
  : result string :=
  match cells with
  | [] => Ok ""
  | (i, cell) :: cells' =>
      match nth_error widths i with
      | None => Err index_error
      | Some w =>
          rest <- format_cells widths cells' ;;
          Ok (ljust cell w ++ rest)%string
      end
  end.

(** *** [print]

    The standard output encodes to UTF-8.  A [str] is kept as its UTF-8
    bytes, a lone surrogate (which [json.loads] makes of an unpaired [\u]
    escape) as the three bytes of its code point: such a line cannot be
    encoded, and [print] raises [UnicodeEncodeError] having written nothing
    of it. *)

(** The surrogate at the head of [s]. *)
Definition surrogate (s : bytes) : option N :=
  match s with
  | xed :: b2 :: b3 :: _ =>
      let c2 := Byte.to_N b2 in
      let c3 := Byte.to_N b3 in
      if (160 <=? c2)%N && (c2 <=? 191)%N && is_continuation b3
      then Some (53248 + (c2 - 128) * 64 + (c3 - 128))%N
      else None
  | _ => None
  end.

(** The surrogates that follow one another at the head of [s]. *)
Fixpoint surrogate_run (fuel : nat) (s : bytes) : nat :=
  match fuel with
  | O => 0
  | S fuel' =>
      match surrogate s with
      | Some _ => S (surrogate_run fuel' (skipn 3 s))
      | None => 0
      end
  end.

(** Where the encoder stops: the index of the character, and the text from
    there on. *)
Fixpoint unencodable (fuel : nat) (s : bytes) (pos : nat)
  : option (nat * bytes) :=
  match fuel with
  | O => None
  | S fuel' =>
      match s with
      | [] => None
      | _ =>
          match Utf8.scan s with
          | inl n => unencodable fuel' (skipn n s) (S pos)
          | inr _ => Some (pos, s)
          end
      end
  end.

Definition byte_of_N (n : N) : byte :=
  match Byte.of_N n with
  | Some b => b
  | None => x00
  end.

Definition encode_error (pos : nat) (s : bytes) : exn :=
  let run := surrogate_run (List.length s) s in
  Raise (OtherError "UnicodeEncodeError")
    (if Nat.leb run 1 then
       let c := match surrogate s with Some c => c | None => 65533%N end in
       "'utf-8' codec can't encode character '\u"
         ++ hex2 (byte_of_N (c / 256)) ++ hex2 (byte_of_N (c mod 256))
         ++ "' in position " ++ decimal pos ++ ": surrogates not allowed"
     else
       "'utf-8' codec can't encode characters in position " ++ decimal pos
         ++ "-" ++ decimal (pos + run - 1) ++ ": surrogates not allowed").

(** What [print(line)] raises, if it does. *)
Definition print_error (line : string) : option exn :=
  let s := list_byte_of_string line in
  match unencodable (List.length s) s 0 with
  | Some (pos, s') => Some (encode_error pos s')
  | None => None
  end.

(** [print(line)], then [next]: what was written, and how it ended. *)
Definition print (line : string) (next : result unit * list string)
  : result unit * list string :=
  match print_error line with
  | Some e => (Err e, [])
  | None => let '(res, out) := next in (res, line :: out)
  end.

(** The loop that prints the rows: stops at the first row that raises. *)
Fixpoint print_rows (widths : list nat) (rows : list (list string))
  : result unit * list string :=
  match rows with
  | [] => (Ok tt, [])
  | row :: rows' =>
      match format_cells widths (enumerate row) with
      | Err e => (Err e, [])
      | Ok line => print line (print_rows widths rows')
      end
  end.

Definition newline : string := String (ascii_of_nat 10) "".

(** [OutputFormatter.print_table(headers, rows, title)]: what each [print]
    call wrote, and how the call ended. *)
Definition print_table (headers : list string) (rows : list (list string))
  (title : string) : result unit * list string :=
  let table :=
    match rows with
    | [] => print "Нет данных" (Ok tt, [])
    | _ =>
        let widths := col_widths headers rows in
        match format_cells widths (enumerate headers) with
        | Err e => (Err e, [])
        | Ok header_line =>
            print header_line
              (print (str_repeat "-" (str_len header_line))
                 (print_rows widths rows))
        end
    end in
  if String.eqb title "" then table
  else print (newline ++ title) (print (str_repeat "=" 60) table).

(** ** Notions used in the further statements *)

Definition is_object (v : json) : bool :=
  match v with
  | JObj _ => true
  | _ => false
  end.

(** What [v.get(...)] raises on a value that is no dict. *)
Definition no_get_error (v : json) : exn :=
  Raise AttributeError ("'" ++ type_name v ++ "' object has no attribute 'get'").

(** The action of a record as a dict key. *)
Definition action_key (record : json) : result hkey :=
  a <- py_get record "action" (JStr "unknown") ;; py_hash a.

(** What holds of a dict of counters once the keys [p] are counted: [m]
    reads the counter off a value. *)
Record counts_inv {V} (m : V -> nat) (default : V) (p : list hkey)
  (d : pydict V) : Prop := {
  cnt_keyed : well_keyed d;
  cnt_nodup : NoDup (dict_keys d);
  cnt_keys : forall k, In k (dict_keys d) <-> In k p;
  cnt_count : forall k, m (dict_get_default k d default) = count_occ hkey_eq_dec p k;
  cnt_order :
    StronglySorted (fun a b => first_index a p < first_index b p) (dict_keys d)
}.

(** A plain dict key: [None], a boolean, an integer or a string. *)
Definition plain_key (v : json) : bool :=
  match v with
  | JNull | JBool _ | JInt _ | JStr _ => true
  | _ => false
  end.

(** A record that is an object whose [table_name] and [action], when it has
    them, are plain keys. *)
Definition well_formed (record : json) : bool :=
  match record with
  | JObj m =>
      plain_key (match assoc "table_name" m with
                 | Some x => x
                 | None => JStr "unknown"
                 end)
      && plain_key (match assoc "action" m with
                    | Some x => x
                    | None => JStr "unknown"
                    end)
  | _ => false
  end.

(** What hashing a list or a dict raises. *)
Definition unhashable_error (v : json) : exn :=
  Raise TypeError ("unhashable type: '" ++ type_name v ++ "'").

(** The occurrences of the action [k] over all the tables. *)
Definition action_total (k : hkey) (tables : pydict table_data) : nat :=
  dict_total (fun v => dict_get_default k (table_actions v) 0) tables.

(** Every table's actions add up to its count. *)
Definition balanced (tables : pydict table_data) : Prop :=
  Forall (fun e => dict_total (fun n => n) (table_actions (snd (snd e)))
                   = count (snd (snd e)))
         tables.

(** An attempt of [_try_with_headers] raises: the one with the header, the
    one from the offset. *)
Definition header_fails (zlib_decompress : bytes -> Z -> result bytes)
  (data header : bytes) : Prop :=
  exists e, zlib_decompress (header ++ data) 15%Z = Err e.

Definition offset_fails (zlib_decompress : bytes -> Z -> result bytes)
  (data : bytes) (i : nat) : Prop :=
  exists e, zlib_decompress (skipn i data) (-15)%Z = Err e.

(** A text [print] writes. *)
Definition printable (line : string) : Prop := print_error line = None.

(** A byte sequence that is UTF-8. *)
Inductive utf8 : bytes -> Prop :=
| utf8_nil : utf8 []
| utf8_seq (s : bytes) (n : nat) :
    s <> [] -> Utf8.scan s = inl n -> utf8 (skipn n s) -> utf8 s.

(** The lines [print_table] writes for its title. *)
Definition title_lines (title : string) : list string :=
  if String.eqb title "" then []
  else [(newline ++ title)%string; str_repeat "=" 60].

(** The line under the header. *)
Definition separator (header_line : string) : string :=
  str_repeat "-" (str_len header_line).

(** The report of the package that holds [sample_data], for a file of 261
    bytes. *)
Definition sample_report : Report :=
  {| report_metadata :=
       {| md_name := JStr "Неизвестно";
          md_pack_application_id := JStr "Неизвестно";
          md_timestamp := JNull;
          md_version := JStr "Неизвестно" |};
     total_records := 4;
     delete_operations := 1;
     report_strong_overwrites := 1;
     actions_breakdown :=
       [(HStr "insert", (JStr "insert", 2)); (HStr "delete", (JStr "delete", 1));
        (HStr "update", (JStr "update", 1))];
     report_tables := sample_tables;
     file_path := "package.sop";
     file_size := 261;
     analysis_date := "2024-01-01T00:00:00" |}.

(** The bits left to read. *)
Definition bits (s : Zlib.bitstream) : nat :=
  List.length (Zlib.cur s) + 8 * List.length (Zlib.rest s).

(** [s2] is [s1] with [t] appended to its input. *)
Definition extends (t : bytes) (s1 s2 : Zlib.bitstream) : Prop :=
  Zlib.cur s2 = Zlib.cur s1 /\ Zlib.rest s2 = Zlib.rest s1 ++ t.

(** A step of the decoder, whose result [r] holds the stream [st r] it leaves
    and a value [val r]: it gives back no input, and on an input extended by
    [t] it either reads into [t] or does what it does on the input itself. *)
Definition tame {R V} (st : R -> Zlib.bitstream) (val : R -> V)
  (f : Zlib.bitstream -> result R) : Prop :=
  (forall s r, f s = Ok r ->
     List.length (Zlib.rest (st r)) <= List.length (Zlib.rest s) /\
     bits (st r) <= bits s) /\
  (forall t s1 s2 r2,
     extends t s1 s2 -> f s2 = Ok r2 ->
     List.length (Zlib.rest (st r2)) < List.length t \/
     exists r1, f s1 = Ok r1 /\ val r1 = val r2 /\ extends t (st r1) (st r2)).

Definition reads {A} (f : Zlib.bitstream -> result (A * Zlib.bitstream)) : Prop :=
  tame snd fst f.

Definition writes (f : Zlib.bitstream -> result (Zlib.bitstream * Zlib.output))
  : Prop :=
  tame fst snd f.

(** * Properties *)

(** ** Loops *)

Lemma bind_Ok {A B} (r : result A) (k : A -> result B) (b : B) :
  bind r k = Ok b -> exists a, r = Ok a /\ k a = Ok b.
Proof.
  destruct r as [a|e]; simpl; intros H; [eauto | discriminate].
Qed.

Ltac bind_inv H :=
  let a := fresh "a" in
  let Ha := fresh "Ha" in
  apply bind_Ok in H; destruct H as (a & Ha & H).

Lemma for_each_app {S} (body : S -> json -> result S) (l1 l2 : list json) (s : S) :
  for_each body (l1 ++ l2) s = (s' <- for_each body l1 s ;; for_each body l2 s').
Proof.
  revert s; induction l1 as [|x l1 IH]; intros s; simpl; [reflexivity|].
  destruct (body s x) as [s1|e]; simpl; [apply IH | reflexivity].
Qed.

Lemma py_get_Ok (v : json) (key : string) (default x : json) :
  py_get v key default = Ok x ->
  exists m, v = JObj m /\
            x = match assoc key m with Some y => y | None => default end.
Proof.
  destruct v; simpl; intros H; try discriminate.
  injection H as <-; eauto.
Qed.

(** ** Metadata *)

(** C9 (as the code has it).  A decoded document that is an object without
    the [name] field gets the default name, which is the string
    [Неизвестно]. *)
Theorem get_metadata_default_name (m : list (string * json)) :
  assoc "name" m = None ->
  exists md, get_metadata (JObj m) = Ok md /\ md_name md = JStr "Неизвестно".
Proof.
  intros Hname. unfold get_metadata; simpl. rewrite Hname.
  eexists; split; reflexivity.
Qed.

Lemma get_metadata_default_name_witness :
  assoc "name" [("version", JStr "1.0")] = None /\
  exists md, get_metadata (JObj [("version", JStr "1.0")]) = Ok md /\
             md_name md = JStr "Неизвестно".
Proof.
  split; [reflexivity|].
  apply (get_metadata_default_name [("version", JStr "1.0")]); reflexivity.
Defined.

(** C9 (as the specification words it) fails: the default is not the string
    [unknown]. *)
Lemma get_metadata_default_name_not_unknown :
  ~ (forall m, assoc "name" m = None ->
       exists md, get_metadata (JObj m) = Ok md /\ md_name md = JStr "unknown").
Proof.
  intros H. destruct (H [] eq_refl) as (md & Hmd & Hname).
  simpl in Hmd. injection Hmd as <-. discriminate Hname.
Qed.

(** ** Record statistics *)

Lemma analyze_records_step_spec (s s' : RecordStats) (r : json) :
  analyze_records_step s r = Ok s' ->
  total s' = total s /\
  deletes s' = deletes s + (if delete_action r then 1 else 0) /\
  strong_overwrites s' = strong_overwrites s + (if strong_flag r then 1 else 0).
Proof.
  unfold analyze_records_step, delete_action, strong_flag, field.
  destruct r as [| | | | | |m]; simpl; try discriminate.
  intros H; injection H as <-.
  destruct (assoc "action" m) as [[| | | |a| |]|];
    destruct (assoc "is_strong_overwrite" m) as [[|[|]| | | | |]|];
    simpl; try destruct (String.eqb a "delete"); simpl; lia.
Qed.

Lemma analyze_records_loop (items : list json) (s s' : RecordStats) :
  for_each analyze_records_step items s = Ok s' ->
  total s' = total s /\
  deletes s' = deletes s + List.length (filter delete_action items) /\
  strong_overwrites s' =
    strong_overwrites s + List.length (filter strong_flag items).
Proof.
  revert s; induction items as [|r items IH]; intros s H; simpl in H.
  - injection H as <-; simpl; lia.
  - bind_inv H. apply analyze_records_step_spec in Ha.
    apply IH in H. simpl.
    destruct (delete_action r), (strong_flag r); simpl; lia.
Qed.

Lemma py_len_iter (v : json) (n : nat) (items : list json) :
  py_len v = Ok n -> py_iter v = Ok items -> n = List.length items.
Proof.
  destruct v; simpl; intros H1 H2; try discriminate;
    injection H1 as <-; injection H2 as <-; auto using length_map.
Qed.

(** C3.  The strong-overwrite count is the number of records whose
    [is_strong_overwrite] is the boolean [true] (the total and the delete
    count are as documented too); a record whose flag is the string [true],
    or the number 1, is not counted. *)
Theorem analyze_records_strong_overwrites (data : json) (stats : RecordStats) :
  analyze_records data = Ok stats ->
  (exists items,
      records_of data = Ok items /\
      total stats = List.length items /\
      deletes stats = List.length (filter delete_action items) /\
      strong_overwrites stats = List.length (filter strong_flag items)) /\
  (forall m, assoc "is_strong_overwrite" m = Some (JStr "true") ->
             strong_flag (JObj m) = false) /\
  analyze_records
    (JObj [("records",
            JArr [JObj [("is_strong_overwrite", JStr "true")];
                  JObj [("is_strong_overwrite", JInt 1)];
                  JObj [("is_strong_overwrite", JBool true)]])])
  = Ok {| total := 3; deletes := 0; strong_overwrites := 1 |}.
Proof.
  intros H. split; [|split].
  - unfold analyze_records in H. unfold records_of.
    bind_inv H. rewrite Ha; simpl. bind_inv H. bind_inv H.
    exists a1. split; [assumption|].
    apply analyze_records_loop in H; simpl in H.
    pose proof (py_len_iter _ _ _ Ha0 Ha1). lia.
  - intros m Hm. unfold strong_flag; simpl. rewrite Hm. reflexivity.
  - reflexivity.
Qed.

Lemma analyze_records_strong_overwrites_witness :
  analyze_records sample_data
    = Ok {| total := 4; deletes := 1; strong_overwrites := 1 |} /\
  exists items,
    records_of sample_data = Ok items /\
    4 = List.length items /\
    1 = List.length (filter delete_action items) /\
    1 = List.length (filter strong_flag items).
Proof.
  split; [reflexivity|].
  exact (proj1 (analyze_records_strong_overwrites sample_data
                  {| total := 4; deletes := 1; strong_overwrites := 1 |}
                  eq_refl)).
Defined.

(** ** The insertion-ordered dict *)

Lemma hkey_eqb_eq (a b : hkey) : hkey_eqb a b = true <-> a = b.
Proof.
  unfold hkey_eqb; destruct (hkey_eq_dec a b); split; congruence.
Qed.

Lemma hkey_eqb_refl (a : hkey) : hkey_eqb a a = true.
Proof. apply hkey_eqb_eq; reflexivity. Qed.

Lemma hkey_eqb_neq (a b : hkey) : a <> b -> hkey_eqb a b = false.
Proof.
  unfold hkey_eqb; destruct (hkey_eq_dec a b); congruence.
Qed.

Ltac case_key a b :=
  let E := fresh "E" in
  destruct (hkey_eq_dec a b) as [E|E];
  [ try subst; rewrite ?hkey_eqb_refl in *
  | rewrite ?(hkey_eqb_neq a b E) in * ].

Section Dict.

Context {V : Type}.
Implicit Types (d : pydict V) (k : hkey) (key : json) (v : V).

Lemma dict_lookup_None k d :
  dict_lookup k d = None <-> ~ In k (dict_keys d).
Proof.
  induction d as [|[k' [key' v']] d IH]; simpl.
  - tauto.
  - case_key k k'.
    + split; [discriminate | intros H; exfalso; auto].
    + rewrite IH. split; intros H; [intros [?|?]; auto | tauto].
Qed.

Lemma dict_lookup_In k d v :
  dict_lookup k d = Some v -> In k (dict_keys d).
Proof.
  intros H. destruct (in_dec hkey_eq_dec k (dict_keys d)) as [|N]; auto.
  apply dict_lookup_None in N. congruence.
Qed.

Lemma dict_store_keys_old k key v d :
  In k (dict_keys d) -> dict_keys (dict_store k key v d) = dict_keys d.
Proof.
  induction d as [|[k' [key' v']] d IH]; simpl; [tauto|].
  intros H. case_key k k'; simpl; [reflexivity|].
  f_equal. apply IH. destruct H; congruence.
Qed.

Lemma dict_store_keys_new k key v d :
  ~ In k (dict_keys d) ->
  dict_keys (dict_store k key v d) = dict_keys d ++ [k].
Proof.
  induction d as [|[k' [key' v']] d IH]; simpl; [reflexivity|].
  intros H. case_key k k'; simpl; [tauto|].
  f_equal. apply IH. tauto.
Qed.

Lemma dict_lookup_store_same k key v d :
  dict_lookup k (dict_store k key v d) = Some v.
Proof.
  induction d as [|[k' [key' v']] d IH]; simpl.
  - rewrite hkey_eqb_refl; reflexivity.
  - case_key k k'; simpl.
    + rewrite hkey_eqb_refl; reflexivity.
    + rewrite (hkey_eqb_neq _ _ E). apply IH.
Qed.

Lemma dict_lookup_store_other k k0 key v d :
  k0 <> k -> dict_lookup k0 (dict_store k key v d) = dict_lookup k0 d.
Proof.
  intros N. induction d as [|[k' [key' v']] d IH]; simpl.
  - rewrite (hkey_eqb_neq _ _ N); reflexivity.
  - case_key k k'; simpl.
    + rewrite (hkey_eqb_neq _ _ N); reflexivity.
    + rewrite IH; reflexivity.
Qed.

Lemma dict_store_total (m : V -> nat) k key v default d :
  m default = 0 ->
  m v = S (m (dict_get_default k d default)) ->
  dict_total m (dict_store k key v d) = S (dict_total m d).
Proof.
  intros H0. unfold dict_total, dict_get_default.
  induction d as [|[k' [key' v']] d IH]; simpl.
  - intros ->. lia.
  - case_key k k'; simpl; intros Hv.
    + lia.
    + rewrite (IH Hv). lia.
Qed.

Lemma dict_store_well_keyed k key v d :
  py_hash key = Ok k -> well_keyed d -> well_keyed (dict_store k key v d).
Proof.
  intros Hk. induction 1 as [|[k' [key' v']] d H Hd IH]; simpl.
  - repeat constructor; assumption.
  - case_key k k'; constructor; auto.
Qed.

End Dict.

(** ** The stable descending sort *)

Section Sort.

Context {A : Type} (key : A -> nat).

Lemma insert_desc_perm (x : A) (l : list A) :
  Permutation (insert_desc key x l) (x :: l).
Proof.
  induction l as [|y l IH]; simpl; [reflexivity|].
  destruct (Nat.ltb (key x) (key y)); [|reflexivity].
  rewrite IH. apply perm_swap.
Qed.

Lemma sorted_desc_perm (l : list A) : Permutation (sorted_desc key l) l.
Proof.
  induction l as [|x l IH]; simpl; [reflexivity|].
  unfold sorted_desc in *; simpl. rewrite insert_desc_perm. auto.
Qed.

Lemma insert_desc_sorted (rank : A -> nat) (x : A) (l : list A) :
  Forall (fun y => rank x < rank y) l ->
  StronglySorted (goes_before key rank) l ->
  StronglySorted (goes_before key rank) (insert_desc key x l).
Proof.
  intros Hx Hl; induction Hl as [|y l Hl IH Hy]; simpl.
  - repeat constructor.
  - inversion Hx as [|? ? Hxy Hxl]; subst.
    destruct (Nat.ltb (key x) (key y)) eqn:E.
    + apply Nat.ltb_lt in E. constructor; [auto|].
      apply (Permutation_Forall (Permutation_sym (insert_desc_perm x l))).
      constructor; [left; assumption | assumption].
    + apply Nat.ltb_ge in E. constructor; [constructor; assumption|].
      constructor.
      * unfold goes_before. lia.
      * rewrite Forall_forall in *. intros z Hz.
        specialize (Hy z Hz). specialize (Hxl z Hz).
        unfold goes_before in *. lia.
Qed.

Lemma sorted_desc_stable (rank : A -> nat) (l : list A) :
  StronglySorted (fun x y => rank x < rank y) l ->
  StronglySorted (goes_before key rank) (sorted_desc key l).
Proof.
  induction 1 as [|x l Hl IH Hx]; [constructor|].
  change (sorted_desc key (x :: l))
    with (insert_desc key x (sorted_desc key l)).
  apply insert_desc_sorted; [|assumption].
  rewrite Forall_forall in *. intros y Hy. apply Hx.
  apply (Permutation_in _ (sorted_desc_perm l)). assumption.
Qed.

End Sort.

Lemma StronglySorted_weaken {A} (R R' : A -> A -> Prop) (l : list A) :
  (forall a b, In a l -> In b l -> R a b -> R' a b) ->
  StronglySorted R l -> StronglySorted R' l.
Proof.
  intros H Hl; induction Hl as [|x l Hl IH Hx]; constructor.
  - apply IH. intros; apply H; simpl; auto.
  - rewrite Forall_forall in *. intros y Hy. apply H; simpl; auto.
Qed.

Lemma StronglySorted_snoc {A} (R : A -> A -> Prop) (l : list A) (x : A) :
  StronglySorted R l -> Forall (fun a => R a x) l ->
  StronglySorted R (l ++ [x]).
Proof.
  induction 1 as [|y l Hl IH Hy]; simpl; intros Hx.
  - repeat constructor.
  - inversion Hx; subst. constructor; [auto|].
    apply Forall_app; split; [assumption | repeat constructor; assumption].
Qed.

Lemma StronglySorted_map {A B} (f : A -> B) (R : B -> B -> Prop) (l : list A) :
  StronglySorted (fun a b => R (f a) (f b)) l -> StronglySorted R (map f l).
Proof.
  induction 1 as [|x l Hl IH Hx]; simpl; constructor; [assumption|].
  apply Forall_map. assumption.
Qed.

Lemma StronglySorted_nth {A} (R : A -> A -> Prop) (l : list A) :
  StronglySorted R l ->
  forall i j a b, i < j -> nth_error l i = Some a -> nth_error l j = Some b ->
                  R a b.
Proof.
  induction 1 as [|x l Hl IH Hx]; intros i j a b Hij Ha Hb.
  - destruct i; discriminate.
  - destruct j as [|j]; [lia|]. destruct i as [|i]; simpl in *.
    + injection Ha as <-. rewrite Forall_forall in Hx. apply Hx.
      eapply nth_error_In; eassumption.
    + apply (IH i j); auto; lia.
Qed.

Lemma StronglySorted_unmap {A B} (f : A -> B) (R : B -> B -> Prop) (l : list A) :
  StronglySorted R (map f l) -> StronglySorted (fun a b => R (f a) (f b)) l.
Proof.
  induction l as [|x l IH]; simpl; intros H; [constructor|].
  inversion H as [|? ? Hl Hx]; subst. constructor; [auto|].
  rewrite Forall_map in Hx. assumption.
Qed.

Lemma dict_lookup_entry {V} (d : pydict V) (k : hkey) (key : json) (v : V) :
  NoDup (dict_keys d) -> In (k, (key, v)) d -> dict_lookup k d = Some v.
Proof.
  induction d as [|[k' [key' v']] d IH]; simpl; [tauto|].
  intros Hnd [H|H]; inversion Hnd as [|? ? Hk Hd]; subst.
  - injection H as -> -> ->. rewrite hkey_eqb_refl; reflexivity.
  - case_key k k'.
    + exfalso. apply Hk. change k' with (fst (k', (key, v))).
      apply in_map. assumption.
    + auto.
Qed.

(** ** First occurrences *)

Lemma first_index_app_in (a : hkey) (p q : list hkey) :
  In a p -> first_index a (p ++ q) = first_index a p.
Proof.
  induction p as [|x p IH]; simpl; [tauto|].
  intros H. case_key a x; [reflexivity|].
  f_equal. apply IH. destruct H; congruence.
Qed.

Lemma first_index_lt (a : hkey) (p : list hkey) :
  In a p -> first_index a p < List.length p.
Proof.
  induction p as [|x p IH]; simpl; [tauto|].
  intros H. case_key a x; [lia|].
  apply -> Nat.succ_lt_mono. apply IH. destruct H; congruence.
Qed.

Lemma first_index_new (a : hkey) (p : list hkey) :
  ~ In a p -> first_index a (p ++ [a]) = List.length p.
Proof.
  induction p as [|x p IH]; simpl; intros H.
  - rewrite hkey_eqb_refl; reflexivity.
  - case_key a x; [tauto|]. f_equal. apply IH. tauto.
Qed.

(** ** The table loop *)

Lemma tables_inv_nil : tables_inv [] [].
Proof.
  split; simpl; [constructor | constructor | tauto | reflexivity | constructor].
Qed.

Lemma analyze_tables_step_key (tables tables' : pydict table_data) (r : json) :
  analyze_tables_step tables r = Ok tables' ->
  exists k table_name entry,
    table_key r = Ok k /\ py_hash table_name = Ok k /\
    count entry = S (count_of tables k) /\
    tables' = dict_store k table_name entry tables.
Proof.
  unfold analyze_tables_step, table_key. intros H.
  bind_inv H. bind_inv H. bind_inv H. bind_inv H.
  injection H as <-. rewrite Ha; simpl.
  eexists a1, a, _. repeat split; [assumption..|].
  simpl. unfold count_of. lia.
Qed.

Lemma tables_inv_step (p : list hkey) (tables tables' : pydict table_data)
  (r : json) :
  tables_inv p tables -> analyze_tables_step tables r = Ok tables' ->
  exists k, table_key r = Ok k /\ tables_inv (p ++ [k]) tables'.
Proof.
  intros [Hkeyed Hnd Hkeys Hcount Hord] H.
  apply analyze_tables_step_key in H.
  destruct H as (k & table_name & entry & Hkey & Hhash & Hentry & ->).
  exists k. split; [assumption|].
  assert (Hold : forall a, In a (dict_keys tables) ->
             first_index a (p ++ [k]) = first_index a p).
  { intros a Ha. apply first_index_app_in. apply Hkeys. assumption. }
  destruct (in_dec hkey_eq_dec k (dict_keys tables)) as [Hin|Hnew].
  - split.
    + apply dict_store_well_keyed; assumption.
    + rewrite dict_store_keys_old by assumption. assumption.
    + intros k'. rewrite dict_store_keys_old by assumption.
      rewrite Hkeys, in_app_iff. simpl.
      split; [tauto|]. intros [?|[<-|[]]]; [assumption|].
      apply Hkeys. assumption.
    + intros k'. rewrite count_occ_app. simpl. unfold count_of, dict_get_default.
      destruct (hkey_eq_dec k k') as [<-|N].
      * rewrite dict_lookup_store_same, Hentry, Hcount. lia.
      * rewrite dict_lookup_store_other by congruence.
        fold (dict_get_default k' tables {| count := 0; table_actions := [] |}).
        fold (count_of tables k'). rewrite Hcount. lia.
    + rewrite dict_store_keys_old by assumption.
      apply (StronglySorted_weaken _ _ _ (fun a b Ha Hb Hab =>
               eq_ind_r (fun x => x < _)
                 (eq_ind_r (fun y => _ < y) Hab (Hold b Hb)) (Hold a Ha))).
      assumption.
  - assert (Hp : ~ In k p) by (rewrite <- Hkeys; assumption).
    split.
    + apply dict_store_well_keyed; assumption.
    + rewrite dict_store_keys_new by assumption.
      apply NoDup_app; repeat split; try assumption.
      * repeat constructor. simpl; tauto.
      * intros a Ha [<-|[]]. contradiction.
    + intros k'. rewrite dict_store_keys_new by assumption.
      rewrite !in_app_iff, Hkeys. tauto.
    + intros k'. rewrite count_occ_app. simpl. unfold count_of, dict_get_default.
      destruct (hkey_eq_dec k k') as [<-|N].
      * rewrite dict_lookup_store_same, Hentry, Hcount. lia.
      * rewrite dict_lookup_store_other by congruence.
        fold (dict_get_default k' tables {| count := 0; table_actions := [] |}).
        fold (count_of tables k'). rewrite Hcount. lia.
    + rewrite dict_store_keys_new by assumption.
      apply StronglySorted_snoc.
      * apply (StronglySorted_weaken _ _ _ (fun a b Ha Hb Hab =>
                 eq_ind_r (fun x => x < _)
                   (eq_ind_r (fun y => _ < y) Hab (Hold b Hb)) (Hold a Ha))).
        assumption.
      * apply Forall_forall. intros a Ha.
        rewrite (Hold a Ha), (first_index_new k p Hp).
        apply first_index_lt. apply Hkeys. assumption.
Qed.

Lemma tables_inv_loop (items : list json) (p : list hkey)
  (tables tables' : pydict table_data) :
  tables_inv p tables ->
  for_each analyze_tables_step items tables = Ok tables' ->
  exists keys,
    Forall2 (fun r k => table_key r = Ok k) items keys /\
    tables_inv (p ++ keys) tables'.
Proof.
  revert p tables; induction items as [|r items IH]; intros p tables Hinv H.
  - injection H as <-. exists []. rewrite app_nil_r. split; [constructor|auto].
  - simpl in H. bind_inv H.
    destruct (tables_inv_step _ _ _ _ Hinv Ha) as (k & Hk & Hinv1).
    destruct (IH _ _ Hinv1 H) as (keys & Hkeys & Hinv2).
    exists (k :: keys). split; [constructor; assumption|].
    rewrite <- app_assoc in Hinv2. exact Hinv2.
Qed.

Lemma tables_total_loop (items : list json) (tables tables' : pydict table_data) :
  for_each analyze_tables_step items tables = Ok tables' ->
  dict_total count tables' = dict_total count tables + List.length items.
Proof.
  revert tables; induction items as [|r items IH]; intros tables H.
  - injection H as <-. simpl; lia.
  - simpl in H. bind_inv H. apply IH in H. rewrite H.
    apply analyze_tables_step_key in Ha.
    destruct Ha as (k & table_name & entry & _ & _ & Hentry & ->).
    rewrite (dict_store_total count k table_name entry
               {| count := 0; table_actions := [] |});
      [simpl; lia | reflexivity | exact Hentry].
Qed.

Lemma actions_total_loop (items : list json) (acts acts' : pydict nat) :
  for_each get_actions_summary_step items acts = Ok acts' ->
  dict_total (fun n => n) acts' = dict_total (fun n => n) acts + List.length items.
Proof.
  revert acts; induction items as [|r items IH]; intros acts H.
  - injection H as <-. simpl; lia.
  - simpl in H. bind_inv H. apply IH in H. rewrite H.
    unfold get_actions_summary_step in Ha. bind_inv Ha. bind_inv Ha.
    injection Ha as <-.
    rewrite (dict_store_total (fun n => n) _ _ _ 0);
      [simpl; lia | reflexivity | lia].
Qed.

Lemma list_sum_perm (l l' : list nat) :
  Permutation l l' -> list_sum l = list_sum l'.
Proof.
  induction 1; simpl; lia.
Qed.

(** ** The decompressor *)

Section Decompressor.

Variable zlib_decompress : bytes -> Z -> result bytes.

Lemma try_methods_first_success (ms : list (string * (bytes -> result bytes)))
  (data : bytes) (k : nat) (name : string) (f : bytes -> result bytes)
  (out : bytes) :
  nth_error ms k = Some (name, f) ->
  f data = Ok out ->
  (forall j m, j < k -> nth_error ms j = Some m -> exists e, snd m data = Err e) ->
  exists lines,
    try_methods ms data = (Ok out, lines ++ [msg_success name]) /\
    failure_lines data lines (firstn k ms).
Proof.
  revert k; induction ms as [|[n m] ms IH]; intros k Hk Hf Hbefore.
  - destruct k; discriminate.
  - destruct k as [|k]; simpl in *.
    + injection Hk as -> ->. rewrite Hf. exists []. split; [reflexivity|constructor].
    + destruct (Hbefore 0 (n, m) ltac:(lia) eq_refl) as [e He]. simpl in He.
      rewrite He.
      destruct (IH k Hk Hf) as (lines & Hrun & Hlines).
      { intros j m' Hj Hm'. apply (Hbefore (S j) m'); [lia | assumption]. }
      rewrite Hrun. exists (msg_failure n e :: lines). split; [reflexivity|].
      constructor; [exists e; auto | assumption].
Qed.

Lemma try_methods_exhausted (ms : list (string * (bytes -> result bytes)))
  (data : bytes) (e : exn) :
  fst (try_methods ms data) = Err e ->
  e = exhausted_error /\
  failure_lines data (snd (try_methods ms data)) ms.
Proof.
  induction ms as [|[n m] ms IH]; simpl.
  - intros H; injection H as <-. split; [reflexivity | constructor].
  - destruct (m data) as [r|e'] eqn:Hm; simpl; [discriminate|].
    destruct (try_methods ms data) as [res out]; simpl in *.
    intros H. destruct (IH H) as [-> Hlines]. split; [reflexivity|].
    constructor; [exists e'; auto | assumption].
Qed.

(** C1.  The strategies are the four of the list, in its order: raw inflate,
    zlib-wrapped inflate, the synthetic gzip wrap, the header guesses.  When
    strategy [k] is the first that returns, the decompressor returns its
    output, and what it printed is one failure line for each of the [k]
    strategies before it, then the success line: nothing after it ran. *)
Theorem _decompress_data_first_success (data : bytes) :
  methods zlib_decompress =
    [("_try_raw_deflate", fun d => zlib_decompress d (-15));
     ("_try_zlib_deflate", fun d => zlib_decompress d 15);
     ("_try_gzip_format",
       fun d => zlib_decompress (gzip_header ++ d ++ gzip_trailer) 47);
     ("_try_with_headers", _try_with_headers zlib_decompress)] /\
  forall k name f out,
    nth_error (methods zlib_decompress) k = Some (name, f) ->
    f data = Ok out ->
    (forall j m, j < k -> nth_error (methods zlib_decompress) j = Some m ->
                 exists e, snd m data = Err e) ->
    exists lines,
      _decompress_data zlib_decompress data = (Ok out, lines ++ [msg_success name]) /\
      failure_lines data lines (firstn k (methods zlib_decompress)).
Proof.
  split; [reflexivity|].
  intros k name f out. apply try_methods_first_success.
Qed.

(** When no strategy returns, all four were tried, in order. *)
Lemma _decompress_data_all_tried (data : bytes) (e : exn) :
  fst (_decompress_data zlib_decompress data) = Err e ->
  failure_lines data (snd (_decompress_data zlib_decompress data))
    (methods zlib_decompress).
Proof.
  intros H. apply (try_methods_exhausted _ _ _ H).
Qed.

(** C8 (as the code has it).  When the four strategies raise, the
    decompressor raises the one exhaustion error, whose message is fixed;
    the reasons are printed, one line per strategy in order, and are not
    part of the error.  No other exception leaves the decompressor. *)
Theorem _decompress_data_exhausted (data : bytes) :
  (forall e1 e2 e3 e4,
      _try_raw_deflate zlib_decompress data = Err e1 ->
      _try_zlib_deflate zlib_decompress data = Err e2 ->
      _try_gzip_format zlib_decompress data = Err e3 ->
      _try_with_headers zlib_decompress data = Err e4 ->
      _decompress_data zlib_decompress data =
        (Err exhausted_error,
         [msg_failure "_try_raw_deflate" e1;
          msg_failure "_try_zlib_deflate" e2;
          msg_failure "_try_gzip_format" e3;
          msg_failure "_try_with_headers" e4])) /\
  (forall e, fst (_decompress_data zlib_decompress data) = Err e ->
             e = exhausted_error /\
             failure_lines data (snd (_decompress_data zlib_decompress data))
               (methods zlib_decompress)).
Proof.
  split.
  - intros e1 e2 e3 e4 H1 H2 H3 H4.
    unfold _decompress_data, methods; simpl.
    rewrite H1, H2, H3, H4. reflexivity.
  - intros e. apply try_methods_exhausted.
Qed.

End Decompressor.

(** ** Loading *)

Section Loading.

Variable zlib_decompress : bytes -> Z -> result bytes.
Variable utf8_decode : bytes -> result string.
Variable json_loads : string -> result json.

Lemma decode_result (fs : filesystem) (self self' : SOPAnalyzer)
  (res : result json) (out : list string) :
  decode zlib_decompress utf8_decode json_loads fs self = (res, self', out) ->
  (exists e, res = Err e /\ self' = self) \/
  (exists doc, res = Ok doc /\
               self' = {| sop_file_path := sop_file_path self; _data := doc |}).
Proof.
  unfold decode.
  destruct (fs (sop_file_path self)) eqn:Hfile;
    try (intros H; injection H as <- <- <-; left; eauto; fail);
    (destruct (read_data_file _ _) as [compressed|e];
     [|intros H; injection H as <- <- <-; left; eauto]);
    (destruct (_decompress_data zlib_decompress compressed) as [[raw|e] lines];
     [|intros H; injection H as <- <- <-; left; eauto]);
    (destruct (utf8_decode raw) as [text|e];
     [|intros H; injection H as <- <- <-; left; eauto]);
    (destruct (json_loads text) as [doc|e];
     [|intros H; injection H as <- <- <-; left; eauto]);
    intros H; injection H as <- <- <-; right; eauto.
Qed.

Lemma is_None_true (v : json) : is_None v = true <-> v = JNull.
Proof. destruct v; simpl; split; congruence. Qed.

Lemma load_data_Err (fs : filesystem) (self self' : SOPAnalyzer) (e : exn)
  (out : list string) :
  load_data zlib_decompress utf8_decode json_loads fs self = (Err e, self', out) ->
  self' = self /\ _data self = JNull.
Proof.
  unfold load_data. destruct (is_None (_data self)) eqn:Hnone; simpl.
  - intros H. apply decode_result in H.
    destruct H as [(e' & _ & ->)|(doc & Hdoc & _)]; [|discriminate].
    split; [reflexivity | apply is_None_true; assumption].
  - discriminate.
Qed.

Lemma load_data_Ok (fs : filesystem) (self self' : SOPAnalyzer) (doc : json)
  (out : list string) :
  load_data zlib_decompress utf8_decode json_loads fs self = (Ok doc, self', out) ->
  _data self' = doc /\ sop_file_path self' = sop_file_path self.
Proof.
  unfold load_data. destruct (is_None (_data self)) eqn:Hnone; simpl.
  - intros H. apply decode_result in H.
    destruct H as [(e' & He & _)|(doc' & Hdoc & ->)]; [discriminate|].
    injection Hdoc as <-. split; reflexivity.
  - intros H; injection H as <- <- <-. split; reflexivity.
Qed.

Lemma load_data_cached (fs : filesystem) (self : SOPAnalyzer) :
  _data self <> JNull ->
  load_data zlib_decompress utf8_decode json_loads fs self
    = (Ok (_data self), self, []).
Proof.
  intros H. unfold load_data.
  destruct (is_None (_data self)) eqn:Hnone; [|reflexivity].
  apply is_None_true in Hnone. contradiction.
Qed.

(** C10 (as the code has it).  A failed [load_data] leaves the analyzer as
    it was, with no cached document, so the next call runs the whole decoding
    again; after a [load_data] that returned a document other than [None]
    (the JSON [null]), every later call returns that document and decodes
    nothing, whatever the path then holds. *)
Theorem load_data_cache (fs : filesystem) (self : SOPAnalyzer) :
  (forall e self' out,
      load_data zlib_decompress utf8_decode json_loads fs self
        = (Err e, self', out) ->
      self' = self /\ _data self' = JNull /\
      forall fs2,
        load_data zlib_decompress utf8_decode json_loads fs2 self'
          = decode zlib_decompress utf8_decode json_loads fs2 self') /\
  (forall doc self' out,
      load_data zlib_decompress utf8_decode json_loads fs self
        = (Ok doc, self', out) ->
      doc <> JNull ->
      forall fs2,
        load_data zlib_decompress utf8_decode json_loads fs2 self'
          = (Ok doc, self', [])).
Proof.
  split.
  - intros e self' out H. apply load_data_Err in H. destruct H as [-> Hnone].
    repeat split; [assumption|].
    intros fs2. unfold load_data. rewrite Hnone. reflexivity.
  - intros doc self' out H Hdoc fs2. apply load_data_Ok in H.
    destruct H as [<- _]. apply load_data_cached. assumption.
Qed.

Lemma filter_none {A} (f : A -> bool) (l : list A) :
  (forall x, In x l -> f x = false) -> filter f l = [].
Proof.
  induction l as [|x l IH]; simpl; intros H; [reflexivity|].
  rewrite (H x) by auto. apply IH. auto.
Qed.

(** C7.  On an archive that opens and lists no name ending in [.data],
    [load_data] raises the error of that condition, a [ValueError] whose
    message names the missing data file; the analyzer is unchanged and
    nothing is printed.  The error is none of the others [load_data]
    raises itself. *)
Theorem load_data_missing_data_entry (fs : filesystem) (self : SOPAnalyzer)
  (entries : list (string * result bytes)) :
  _data self = JNull ->
  fs (sop_file_path self) = ZipArchive entries ->
  (forall n, In n (namelist entries) -> endswith n ".data" = false) ->
  load_data zlib_decompress utf8_decode json_loads fs self
    = (Err missing_data_error, self, []) /\
  missing_data_error <> bad_zip_error /\
  missing_data_error <> exhausted_error /\
  (forall e, missing_data_error <> json_error e) /\
  (forall path, missing_data_error <> file_not_found_error path).
Proof.
  intros Hnone Hfile Hnames.
  split; [|repeat split; try discriminate; intros ? H; discriminate H].
  unfold load_data, decode. rewrite Hnone, Hfile; simpl.
  rewrite (filter_none _ _ Hnames). reflexivity.
Qed.

(** A method whose body raises on [None] runs on a cached document: a second
    call returns what the first returned and decodes nothing. *)
Lemma method_rerun {A} (body : json -> result A) (fs : filesystem)
  (self self' : SOPAnalyzer) (r : A) (out : list string) :
  (forall r', body JNull <> Ok r') ->
  method zlib_decompress utf8_decode json_loads body fs self
    = (Ok r, self', out) ->
  forall fs2,
    method zlib_decompress utf8_decode json_loads body fs2 self'
      = (Ok r, self', []).
Proof.
  unfold method. intros Hbody H fs2.
  destruct (load_data _ _ _ fs self) as [[res s1] o1] eqn:Hload.
  injection H as H <- <-.
  destruct res as [doc|e]; simpl in H; [|discriminate].
  assert (Hdoc : doc <> JNull) by (intros ->; exact (Hbody r H)).
  apply load_data_Ok in Hload. destruct Hload as [<- _].
  rewrite (load_data_cached fs2 s1 Hdoc); simpl. rewrite H. reflexivity.
Qed.

End Loading.

(** ** Buckets *)

Lemma records_of_Ok (data : json) (items : list json) :
  records_of data = Ok items ->
  exists records, py_get data "records" (JArr []) = Ok records /\
                  py_iter records = Ok items.
Proof.
  unfold records_of. intros H. bind_inv H. eauto.
Qed.

(** C6.  The counts of the actions summary add up to the number of records,
    and so do the record counts of the table entries: every record, with or
    without [table_name] and [action], is counted in one bucket. *)
Theorem buckets_cover_records (data : json) (items : list json) :
  records_of data = Ok items ->
  (forall acts, get_actions_summary data = Ok acts ->
                list_sum (dict_values acts) = List.length items) /\
  (forall ts, analyze_tables data = Ok ts ->
              list_sum (map record_count ts) = List.length items).
Proof.
  intros H. apply records_of_Ok in H. destruct H as (records & Hget & Hiter).
  split.
  - intros acts H. unfold get_actions_summary in H.
    rewrite Hget in H; simpl in H. rewrite Hiter in H; simpl in H.
    apply actions_total_loop in H. exact H.
  - intros ts H. unfold analyze_tables in H.
    rewrite Hget in H; simpl in H. rewrite Hiter in H; simpl in H.
    bind_inv H. injection H as <-. rewrite map_map; simpl.
    apply tables_total_loop in Ha. simpl in Ha. rewrite <- Ha.
    apply list_sum_perm. apply Permutation_map. apply sorted_desc_perm.
Qed.

Lemma buckets_cover_records_witness :
  records_of sample_data
    = Ok [sample_record "users" "insert" [];
          sample_record "users" "delete" [];
          sample_record "products" "update" [("is_strong_overwrite", JBool true)];
          sample_record "orders" "insert" []] /\
  (exists acts, get_actions_summary sample_data = Ok acts /\
                list_sum (dict_values acts) = 4) /\
  (exists ts, analyze_tables sample_data = Ok ts /\
              list_sum (map record_count ts) = 4).
Proof.
  split; [reflexivity|].
  destruct (buckets_cover_records sample_data _ eq_refl) as [Hacts Htables].
  split; eexists; (split; [reflexivity|]).
  - exact (Hacts _ eq_refl).
  - exact (Htables _ eq_refl).
Defined.

(** ** Table order *)

Lemma Forall2_maps {A B C} (P : B -> C -> Prop) (f : A -> B) (g : A -> C)
  (l : list A) :
  Forall (fun e => P (f e) (g e)) l -> Forall2 P (map f l) (map g l).
Proof.
  induction 1; simpl; constructor; assumption.
Qed.

Lemma analyze_tables_Ok (data : json) (ts : list TableInfo) :
  analyze_tables data = Ok ts ->
  exists items tables,
    records_of data = Ok items /\
    for_each analyze_tables_step items [] = Ok tables /\
    ts = map table_info
           (sorted_desc (fun kv => count (snd (snd kv))) tables).
Proof.
  unfold analyze_tables, records_of. intros H.
  bind_inv H. bind_inv H. bind_inv H. injection H as <-.
  rewrite Ha; simpl. eauto.
Qed.

Lemma analyze_tables_None (ts : list TableInfo) : analyze_tables JNull <> Ok ts.
Proof. discriminate. Qed.

(** C4.  [analyze_tables] returns one entry per distinct table name, with
    the number of records of that table; entries come in descending record
    count, and entries of equal count in the order in which their tables
    first appear in the records.  A second run on the analyzer returns the
    same list, in the same order. *)
Theorem analyze_tables_order (data : json) (ts : list TableInfo) :
  analyze_tables data = Ok ts ->
  (exists items keys tkeys,
      records_of data = Ok items /\
      Forall2 (fun r k => table_key r = Ok k) items keys /\
      Forall2 (fun t k => py_hash (name t) = Ok k /\
                          record_count t = count_occ hkey_eq_dec keys k)
              ts tkeys /\
      NoDup tkeys /\
      (forall k, In k tkeys <-> In k keys) /\
      StronglySorted (fun a b => record_count b <= record_count a) ts /\
      (forall i j a b ka kb,
          i < j ->
          nth_error ts i = Some a -> nth_error ts j = Some b ->
          nth_error tkeys i = Some ka -> nth_error tkeys j = Some kb ->
          record_count a = record_count b ->
          first_index ka keys < first_index kb keys)) /\
  (forall zlib_decompress utf8_decode json_loads fs self ts1 self' out,
      method zlib_decompress utf8_decode json_loads analyze_tables fs self
        = (Ok ts1, self', out) ->
      forall fs2,
        method zlib_decompress utf8_decode json_loads analyze_tables fs2 self'
          = (Ok ts1, self', [])).
Proof.
  intros H. split.
  2:{ intros zd ud jl fs self ts1 self' out. apply method_rerun.
      apply analyze_tables_None. }
  apply analyze_tables_Ok in H.
  destruct H as (items & tables & Hitems & Hloop & ->).
  destruct (tables_inv_loop _ _ _ _ tables_inv_nil Hloop)
    as (keys & Hkeys & [Hkeyed Hnd Hin Hcount Hord]).
  simpl in *.
  set (cnt := fun kv : hkey * (json * table_data) => count (snd (snd kv))).
  set (rank := fun kv : hkey * (json * table_data) => first_index (fst kv) keys).
  set (st := sorted_desc cnt tables).
  assert (Hperm : Permutation st tables) by apply sorted_desc_perm.
  assert (Hsorted : StronglySorted (goes_before cnt rank) st).
  { apply sorted_desc_stable. apply StronglySorted_unmap in Hord. exact Hord. }
  exists items, keys, (map fst st). repeat split.
  - assumption.
  - assumption.
  - apply Forall2_maps.
    apply Forall_forall. intros [k [key td]] He.
    apply (Permutation_in _ Hperm) in He. split.
    + unfold well_keyed in Hkeyed. rewrite Forall_forall in Hkeyed.
      exact (Hkeyed _ He).
    + simpl. rewrite <- Hcount. unfold count_of, dict_get_default.
      rewrite (dict_lookup_entry _ _ _ _ Hnd He). reflexivity.
  - apply (Permutation_NoDup (Permutation_map fst (Permutation_sym Hperm))).
    exact Hnd.
  - intros Hk. apply Hin.
    apply (Permutation_in _ (Permutation_map fst Hperm)). exact Hk.
  - intros Hk. apply Hin in Hk.
    apply (Permutation_in _ (Permutation_map fst (Permutation_sym Hperm))).
    exact Hk.
  - apply StronglySorted_map.
    apply (StronglySorted_weaken (goes_before cnt rank)); [|exact Hsorted].
    intros a b _ _ [Hlt|[Heq _]]; unfold cnt in *; simpl; lia.
  - intros i j a b ka kb Hij Ha Hb Hka Hkb Hab.
    rewrite nth_error_map in Ha, Hb, Hka, Hkb.
    destruct (nth_error st i) as [ei|] eqn:Hi; [|discriminate].
    destruct (nth_error st j) as [ej|] eqn:Hj; [|discriminate].
    pose proof (StronglySorted_nth _ _ Hsorted i j ei ej Hij Hi Hj) as Hgo.
    simpl in *. injection Ha as <-. injection Hb as <-.
    injection Hka as <-. injection Hkb as <-.
    destruct Hgo as [Hlt|[_ Hrank]]; [|exact Hrank].
    unfold cnt in Hlt. simpl in Hab. lia.
Qed.

(** ** Runs on the examples *)

Example sample_data_summary :
  get_actions_summary sample_data
  = Ok [(HStr "insert", (JStr "insert", 2));
        (HStr "delete", (JStr "delete", 1));
        (HStr "update", (JStr "update", 1))].
Proof. reflexivity. Qed.

Example no_records :
  analyze_records (JObj []) = Ok {| total := 0; deletes := 0; strong_overwrites := 0 |}
  /\ analyze_tables (JObj []) = Ok []
  /\ get_actions_summary (JObj []) = Ok [].
Proof. repeat split. Qed.

Example defaults_are_buckets :
  analyze_tables (JObj [("records", JArr [JObj []; JObj []])])
  = Ok [{| name := JStr "unknown"; record_count := 2;
           actions := [(HStr "unknown", (JStr "unknown", 2))] |}].
Proof. reflexivity. Qed.

Example not_an_archive :
  load_data Zlib.decompress Utf8.decode Json.loads
    (fun _ => Unreadable (Raise BadZipFile "File is not a zip file"))
    (init "package.sop")
  = (Err bad_zip_error, init "package.sop", []).
Proof. reflexivity. Qed.

Lemma sample_package_loads :
  load_data Zlib.decompress Utf8.decode Json.loads
    (package_of sample_compressed) (init "package.sop")
  = (Ok sample_data,
     {| sop_file_path := "package.sop"; _data := sample_data |},
     [msg_failure "_try_raw_deflate"
        (Zlib.data_error "invalid stored block lengths");
      msg_success "_try_zlib_deflate"]).
Proof. vm_compute. reflexivity. Qed.

Lemma empty_object_raw_fails :
  _try_raw_deflate Zlib.decompress empty_object_compressed
  = Err (Zlib.data_error "invalid stored block lengths").
Proof. vm_compute. reflexivity. Qed.

Lemma empty_object_zlib_succeeds :
  _try_zlib_deflate Zlib.decompress empty_object_compressed = Ok [x7b; x7d].
Proof. vm_compute. reflexivity. Qed.

Lemma _decompress_data_first_success_witness :
  exists lines,
    _decompress_data Zlib.decompress empty_object_compressed
      = (Ok [x7b; x7d], lines ++ [msg_success "_try_zlib_deflate"]) /\
    failure_lines empty_object_compressed lines
      (firstn 1 (methods Zlib.decompress)).
Proof.
  apply (proj2 (_decompress_data_first_success Zlib.decompress
                  empty_object_compressed)
           1 "_try_zlib_deflate" (_try_zlib_deflate Zlib.decompress)).
  - reflexivity.
  - exact empty_object_zlib_succeeds.
  - intros j m Hj Hm. destruct j as [|j]; [|lia].
    injection Hm as <-. eexists. exact empty_object_raw_fails.
Defined.

Lemma empty_input_exhausts :
  _try_raw_deflate Zlib.decompress [] = Err Zlib.truncated /\
  _try_zlib_deflate Zlib.decompress [] = Err Zlib.truncated /\
  _try_gzip_format Zlib.decompress []
    = Err (Zlib.data_error "invalid stored block lengths") /\
  _try_with_headers Zlib.decompress [] = Err headers_failed_error.
Proof. repeat split; vm_compute; reflexivity. Qed.

Lemma _decompress_data_exhausted_witness :
  _decompress_data Zlib.decompress []
    = (Err exhausted_error,
       [msg_failure "_try_raw_deflate" Zlib.truncated;
        msg_failure "_try_zlib_deflate" Zlib.truncated;
        msg_failure "_try_gzip_format"
          (Zlib.data_error "invalid stored block lengths");
        msg_failure "_try_with_headers" headers_failed_error]) /\
  exhausted_error = exhausted_error /\
  failure_lines [] (snd (_decompress_data Zlib.decompress []))
    (methods Zlib.decompress).
Proof.
  destruct (_decompress_data_exhausted Zlib.decompress []) as [Hall Hany].
  destruct empty_input_exhausts as (H1 & H2 & H3 & H4).
  split.
  - exact (Hall _ _ _ _ H1 H2 H3 H4).
  - apply Hany. rewrite (Hall _ _ _ _ H1 H2 H3 H4). reflexivity.
Defined.

(** C8 (as the specification words it) fails: the exhaustion error does not
    carry the reasons.  The empty input and the single byte [ff] exhaust the
    strategies for different reasons and raise the same error, so the
    reasons printed cannot be read off the error. *)
Lemma exhausted_error_carries_no_reasons :
  ~ (exists reasons_of : exn -> list string,
       forall data e,
         fst (_decompress_data Zlib.decompress data) = Err e ->
         snd (_decompress_data Zlib.decompress data) = reasons_of e).
Proof.
  intros [reasons_of H].
  pose proof (H [] exhausted_error ltac:(vm_compute; reflexivity)) as H1.
  pose proof (H [xff] exhausted_error ltac:(vm_compute; reflexivity)) as H2.
  rewrite <- H2 in H1. vm_compute in H1. discriminate H1.
Qed.

Lemma load_data_missing_data_entry_witness :
  _data (init "package.sop") = JNull /\
  archive_of [("readme.txt", Ok [x68; x69])] (sop_file_path (init "package.sop"))
    = ZipArchive [("readme.txt", Ok [x68; x69])] /\
  load_data Zlib.decompress Utf8.decode Json.loads
    (archive_of [("readme.txt", Ok [x68; x69])]) (init "package.sop")
    = (Err missing_data_error, init "package.sop", []).
Proof.
  split; [reflexivity|]. split; [reflexivity|].
  apply (load_data_missing_data_entry Zlib.decompress Utf8.decode Json.loads
           (archive_of [("readme.txt", Ok [x68; x69])]) (init "package.sop")
           [("readme.txt", Ok [x68; x69])]).
  - reflexivity.
  - reflexivity.
  - intros n [<-|[]]. reflexivity.
Defined.

Lemma null_package_loads :
  load_data Zlib.decompress Utf8.decode Json.loads
    (package_of null_compressed) (init "package.sop")
  = (Ok JNull, init "package.sop",
     [msg_failure "_try_raw_deflate"
        (Zlib.data_error "invalid stored block lengths");
      msg_success "_try_zlib_deflate"]).
Proof. vm_compute. reflexivity. Qed.

Lemma load_data_cache_witness :
  (load_data Zlib.decompress Utf8.decode Json.loads no_files (init "package.sop")
     = (Err (file_not_found_error "package.sop"), init "package.sop", []) /\
   init "package.sop" = init "package.sop" /\
   _data (init "package.sop") = JNull /\
   forall fs2,
     load_data Zlib.decompress Utf8.decode Json.loads fs2 (init "package.sop")
       = decode Zlib.decompress Utf8.decode Json.loads fs2 (init "package.sop")) /\
  (sample_data <> JNull /\
   forall fs2,
     load_data Zlib.decompress Utf8.decode Json.loads fs2
       {| sop_file_path := "package.sop"; _data := sample_data |}
     = (Ok sample_data,
        {| sop_file_path := "package.sop"; _data := sample_data |}, [])).
Proof.
  split.
  - split; [reflexivity|].
    exact (proj1 (load_data_cache Zlib.decompress Utf8.decode Json.loads
                    no_files (init "package.sop"))
             _ _ _ eq_refl).
  - split; [discriminate|].
    exact (proj2 (load_data_cache Zlib.decompress Utf8.decode Json.loads
                    (package_of sample_compressed) (init "package.sop"))
             _ _ _ sample_package_loads ltac:(discriminate)).
Defined.

(** C10 (as worded) fails for the document [null]: [load_data] returns it
    ([None]) without raising, the cache stays unset, and the next call
    decodes again; with the file gone by then, it raises. *)
Lemma load_data_null_not_cached :
  ~ (forall fs self doc self' out,
       load_data Zlib.decompress Utf8.decode Json.loads fs self
         = (Ok doc, self', out) ->
       forall fs2,
         load_data Zlib.decompress Utf8.decode Json.loads fs2 self'
           = (Ok doc, self', [])).
Proof.
  intros H.
  specialize (H _ _ _ _ _ null_package_loads no_files).
  vm_compute in H. discriminate H.
Qed.

Lemma sample_tables_run :
  analyze_tables sample_data = Ok sample_tables.
Proof. reflexivity. Qed.

Lemma analyze_tables_order_witness :
  analyze_tables sample_data = Ok sample_tables /\
  map name sample_tables = [JStr "users"; JStr "products"; JStr "orders"] /\
  (exists items keys tkeys,
      records_of sample_data = Ok items /\
      Forall2 (fun r k => table_key r = Ok k) items keys /\
      Forall2 (fun t k => py_hash (name t) = Ok k /\
                          record_count t = count_occ hkey_eq_dec keys k)
              sample_tables tkeys /\
      NoDup tkeys /\
      (forall k, In k tkeys <-> In k keys) /\
      StronglySorted (fun a b => record_count b <= record_count a)
        sample_tables /\
      (forall i j a b ka kb,
          i < j ->
          nth_error sample_tables i = Some a ->
          nth_error sample_tables j = Some b ->
          nth_error tkeys i = Some ka -> nth_error tkeys j = Some kb ->
          record_count a = record_count b ->
          first_index ka keys < first_index kb keys)) /\
  (method Zlib.decompress Utf8.decode Json.loads analyze_tables
     (package_of sample_compressed) (init "package.sop")
   = (Ok sample_tables,
      {| sop_file_path := "package.sop"; _data := sample_data |},
      [msg_failure "_try_raw_deflate"
         (Zlib.data_error "invalid stored block lengths");
       msg_success "_try_zlib_deflate"]) /\
   forall fs2,
     method Zlib.decompress Utf8.decode Json.loads analyze_tables fs2
       {| sop_file_path := "package.sop"; _data := sample_data |}
     = (Ok sample_tables,
        {| sop_file_path := "package.sop"; _data := sample_data |}, [])).
Proof.
  assert (Hrun : method Zlib.decompress Utf8.decode Json.loads analyze_tables
                   (package_of sample_compressed) (init "package.sop")
                 = (Ok sample_tables,
                    {| sop_file_path := "package.sop"; _data := sample_data |},
                    [msg_failure "_try_raw_deflate"
                       (Zlib.data_error "invalid stored block lengths");
                     msg_success "_try_zlib_deflate"])).
  { unfold method. rewrite sample_package_loads. reflexivity. }
  destruct (analyze_tables_order sample_data sample_tables sample_tables_run)
    as [Horder Hrerun].
  split; [reflexivity|]. split; [reflexivity|]. split; [exact Horder|].
  split; [exact Hrun|].
  exact (Hrerun _ _ _ _ _ _ _ _ Hrun).
Defined.

(** ** The zlib decoder on framed and unframed streams *)













(** ** Comparing large results by computation *)





(** * Further properties *)

(** ** Counting dicts *)

Lemma counts_inv_nil {V} (m : V -> nat) (default : V) :
  m default = 0 -> counts_inv m default [] [].
Proof.
  intros H. split; simpl; [constructor | constructor | tauto | | constructor].
  intros k. unfold dict_get_default; simpl. exact H.
Qed.

Lemma counts_inv_store {V} (m : V -> nat) (default : V) (p : list hkey)
  (d : pydict V) (k : hkey) (key : json) (v : V) :
  counts_inv m default p d ->
  py_hash key = Ok k ->
  m v = S (m (dict_get_default k d default)) ->
  counts_inv m default (p ++ [k]) (dict_store k key v d).
Proof.
  intros [Hkeyed Hnd Hkeys Hcount Hord] Hhash Hv.
  assert (Hold : forall a, In a (dict_keys d) ->
             first_index a (p ++ [k]) = first_index a p).
  { intros a Ha. apply first_index_app_in. apply Hkeys. assumption. }
  assert (Hcnt : forall k',
             m (dict_get_default k' (dict_store k key v d) default)
             = count_occ hkey_eq_dec (p ++ [k]) k').
  { intros k'. rewrite count_occ_app. simpl. unfold dict_get_default.
    destruct (hkey_eq_dec k k') as [<-|N].
    - rewrite dict_lookup_store_same, Hv, Hcount. lia.
    - rewrite dict_lookup_store_other by congruence.
      fold (dict_get_default k' d default). rewrite Hcount. lia. }
  assert (Hweak : StronglySorted
                    (fun a b => first_index a (p ++ [k]) < first_index b (p ++ [k]))
                    (dict_keys d)).
  { apply (StronglySorted_weaken
             (fun a b => first_index a p < first_index b p)); [|assumption].
    intros a b Ha Hb Hab. rewrite (Hold a Ha), (Hold b Hb). assumption. }
  destruct (in_dec hkey_eq_dec k (dict_keys d)) as [Hin|Hnew].
  - split; try assumption.
    + apply dict_store_well_keyed; assumption.
    + rewrite dict_store_keys_old by assumption. assumption.
    + intros k'. rewrite dict_store_keys_old by assumption.
      rewrite Hkeys, in_app_iff. simpl.
      split; [tauto|]. intros [?|[<-|[]]]; [assumption|].
      apply Hkeys. assumption.
    + rewrite dict_store_keys_old by assumption. assumption.
  - assert (Hp : ~ In k p) by (rewrite <- Hkeys; assumption).
    split; try assumption.
    + apply dict_store_well_keyed; assumption.
    + rewrite dict_store_keys_new by assumption.
      apply NoDup_app; repeat split; try assumption.
      * repeat constructor. simpl; tauto.
      * intros a Ha [<-|[]]. contradiction.
    + intros k'. rewrite dict_store_keys_new by assumption.
      rewrite !in_app_iff, Hkeys. tauto.
    + rewrite dict_store_keys_new by assumption.
      apply StronglySorted_snoc; [assumption|].
      apply Forall_forall. intros a Ha.
      rewrite (Hold a Ha), (first_index_new k p Hp).
      apply first_index_lt. apply Hkeys. assumption.
Qed.

Lemma dict_store_total_gen {V} (m : V -> nat) (k : hkey) (key : json) (v default : V)
  (d : pydict V) :
  m default = 0 ->
  dict_total m (dict_store k key v d) + m (dict_get_default k d default)
  = dict_total m d + m v.
Proof.
  intros H0. unfold dict_total, dict_get_default.
  induction d as [|[k' [key' v']] d IH]; simpl.
  - lia.
  - case_key k k'; simpl; lia.
Qed.

Lemma dict_get_default_Forall {V} (P : V -> Prop) (k : hkey) (d : pydict V)
  (default : V) :
  P default -> Forall (fun e => P (snd (snd e))) d ->
  P (dict_get_default k d default).
Proof.
  intros Hd Hall. unfold dict_get_default.
  induction Hall as [|[k' [key' v']] d Hv Hall IH]; simpl; [assumption|].
  destruct (hkey_eqb k k'); [exact Hv | exact IH].
Qed.

Lemma dict_store_Forall {V} (P : V -> Prop) (k : hkey) (key : json) (v : V)
  (d : pydict V) :
  P v -> Forall (fun e => P (snd (snd e))) d ->
  Forall (fun e => P (snd (snd e))) (dict_store k key v d).
Proof.
  intros Hv Hall.
  induction Hall as [|[k' [key' v']] d Hv' Hall IH]; simpl.
  - repeat constructor. exact Hv.
  - destruct (hkey_eqb k k'); constructor; auto.
Qed.

(** ** The action summary *)

Lemma get_actions_summary_step_key (acts acts' : pydict nat) (r : json) :
  get_actions_summary_step acts r = Ok acts' ->
  exists k action,
    action_key r = Ok k /\ py_hash action = Ok k /\
    acts' = dict_store k action (S (dict_get_default k acts 0)) acts.
Proof.
  unfold get_actions_summary_step, action_key. intros H.
  bind_inv H. bind_inv H. injection H as <-. rewrite Ha; simpl.
  exists a0, a. rewrite Nat.add_1_r. auto.
Qed.

Lemma actions_inv_loop (items : list json) (p : list hkey)
  (acts acts' : pydict nat) :
  counts_inv (fun n => n) 0 p acts ->
  for_each get_actions_summary_step items acts = Ok acts' ->
  exists keys,
    Forall2 (fun r k => action_key r = Ok k) items keys /\
    counts_inv (fun n => n) 0 (p ++ keys) acts'.
Proof.
  revert p acts; induction items as [|r items IH]; intros p acts Hinv H.
  - injection H as <-. exists []. rewrite app_nil_r. split; [constructor|auto].
  - simpl in H. bind_inv H.
    apply get_actions_summary_step_key in Ha.
    destruct Ha as (k & action & Hk & Hhash & ->).
    pose proof (counts_inv_store _ _ _ _ k action _ Hinv Hhash eq_refl) as Hinv1.
    destruct (IH _ _ Hinv1 H) as (keys & Hkeys & Hinv2).
    exists (k :: keys). split; [constructor; assumption|].
    rewrite <- app_assoc in Hinv2. exact Hinv2.
Qed.

Lemma get_actions_summary_Ok (data : json) (acts : pydict nat) :
  get_actions_summary data = Ok acts ->
  exists items,
    records_of data = Ok items /\
    for_each get_actions_summary_step items [] = Ok acts.
Proof.
  unfold get_actions_summary, records_of. intros H.
  bind_inv H. bind_inv H. rewrite Ha; simpl. eauto.
Qed.

Lemma Forall2_functional {A B} (f : A -> result B) (l : list A) (k1 k2 : list B) :
  Forall2 (fun r k => f r = Ok k) l k1 ->
  Forall2 (fun r k => f r = Ok k) l k2 ->
  k1 = k2.
Proof.
  intros H1; revert k2; induction H1 as [|r k l k1 Hr Hl IH]; intros k2 H2;
    inversion H2; subst; [reflexivity|].
  f_equal; [congruence | auto].
Qed.

(** ** Records of any shape *)

Lemma py_len_of_iter (v : json) (items : list json) :
  py_iter v = Ok items -> py_len v = Ok (List.length items).
Proof.
  destruct v; simpl; intros H; try discriminate; injection H as <-;
    rewrite ?length_map; reflexivity.
Qed.

Lemma for_each_raises {S} (body : S -> json -> result S) (pre post : list json)
  (r : json) (s s1 : S) (e : exn) :
  for_each body pre s = Ok s1 ->
  body s1 r = Err e ->
  for_each body (pre ++ r :: post) s = Err e.
Proof.
  intros Hpre Hr. rewrite for_each_app, Hpre. simpl. rewrite Hr. reflexivity.
Qed.

Lemma analyze_records_step_object (s : RecordStats) (m : list (string * json)) :
  exists s', analyze_records_step s (JObj m) = Ok s'.
Proof.
  unfold analyze_records_step; simpl. eauto.
Qed.

Lemma analyze_records_objects_loop (items : list json) (s : RecordStats) :
  forallb is_object items = true ->
  exists s', for_each analyze_records_step items s = Ok s'.
Proof.
  revert s; induction items as [|r items IH]; intros s H; simpl in *.
  - eauto.
  - apply andb_prop in H. destruct H as [Hr Hitems].
    destruct r; try discriminate.
    destruct (analyze_records_step_object s items0) as (s1 & Hs1).
    rewrite Hs1; simpl. apply IH. assumption.
Qed.

Lemma well_formed_object (r : json) : well_formed r = true -> is_object r = true.
Proof. destruct r; simpl; auto. Qed.

Lemma well_formed_objects (items : list json) :
  forallb well_formed items = true -> forallb is_object items = true.
Proof.
  induction items as [|r items IH]; simpl; [reflexivity|].
  intros H. apply andb_prop in H. destruct H as [Hr Hitems].
  rewrite (well_formed_object r Hr). simpl. auto.
Qed.

Lemma plain_key_hash (v : json) :
  plain_key v = true -> exists k, py_hash v = Ok k.
Proof. destruct v; simpl; try discriminate; eauto. Qed.

Lemma analyze_tables_step_well_formed (tables : pydict table_data) (r : json) :
  well_formed r = true -> exists tables', analyze_tables_step tables r = Ok tables'.
Proof.
  destruct r as [| | | | | |m]; simpl; try discriminate.
  intros H. apply andb_prop in H. destruct H as [Ht Ha].
  destruct (plain_key_hash _ Ht) as (kt & Hkt).
  destruct (plain_key_hash _ Ha) as (ka & Hka).
  unfold analyze_tables_step; simpl. rewrite Hkt; simpl. rewrite Hka; simpl.
  eauto.
Qed.

Lemma get_actions_summary_step_well_formed (acts : pydict nat) (r : json) :
  well_formed r = true -> exists acts', get_actions_summary_step acts r = Ok acts'.
Proof.
  destruct r as [| | | | | |m]; simpl; try discriminate.
  intros H. apply andb_prop in H. destruct H as [Ht Ha].
  destruct (plain_key_hash _ Ha) as (ka & Hka).
  unfold get_actions_summary_step; simpl. rewrite Hka; simpl. eauto.
Qed.

Lemma for_each_well_formed {S} (body : S -> json -> result S) (items : list json)
  (s : S) :
  (forall s r, well_formed r = true -> exists s', body s r = Ok s') ->
  forallb well_formed items = true ->
  exists s', for_each body items s = Ok s'.
Proof.
  intros Hbody. revert s; induction items as [|r items IH]; intros s H; simpl in *.
  - eauto.
  - apply andb_prop in H. destruct H as [Hr Hitems].
    destruct (Hbody s r Hr) as (s1 & Hs1). rewrite Hs1; simpl. auto.
Qed.

(** X1.  When every record is an object, [analyze_records] returns, whatever
    the fields of the records hold: the total is the number of records, the
    two counters are the numbers of records with the action [delete] and with
    the flag [true]. *)
Theorem analyze_records_objects (data : json) (items : list json) :
  records_of data = Ok items ->
  forallb is_object items = true ->
  analyze_records data
  = Ok {| total := List.length items;
          deletes := List.length (filter delete_action items);
          strong_overwrites := List.length (filter strong_flag items) |}.
Proof.
  intros H Hobj. apply records_of_Ok in H. destruct H as (records & Hget & Hiter).
  unfold analyze_records. rewrite Hget; simpl.
  rewrite (py_len_of_iter _ _ Hiter); simpl. rewrite Hiter; simpl.
  destruct (analyze_records_objects_loop items
              {| total := List.length items; deletes := 0; strong_overwrites := 0 |}
              Hobj) as (s' & Hs').
  rewrite Hs'. apply analyze_records_loop in Hs'. simpl in Hs'.
  destruct s' as [t d o]; simpl in *. f_equal. f_equal; lia.
Qed.

Lemma analyze_records_objects_witness :
  records_of sample_data
    = Ok [sample_record "users" "insert" [];
          sample_record "users" "delete" [];
          sample_record "products" "update" [("is_strong_overwrite", JBool true)];
          sample_record "orders" "insert" []] /\
  analyze_records sample_data
    = Ok {| total := 4; deletes := 1; strong_overwrites := 1 |}.
Proof.
  split; [reflexivity|].
  apply (analyze_records_objects sample_data
           [sample_record "users" "insert" [];
            sample_record "users" "delete" [];
            sample_record "products" "update" [("is_strong_overwrite", JBool true)];
            sample_record "orders" "insert" []]); reflexivity.
Defined.

(** X2.  When every record is an object whose [table_name] and [action] are
    strings, integers, booleans or [None] (or are missing), [analyze_tables]
    and [get_actions_summary] return. *)
Theorem well_formed_records_accepted (data : json) (items : list json) :
  records_of data = Ok items ->
  forallb well_formed items = true ->
  (exists ts, analyze_tables data = Ok ts) /\
  (exists acts, get_actions_summary data = Ok acts).
Proof.
  intros H Hwf. apply records_of_Ok in H. destruct H as (records & Hget & Hiter).
  split.
  - unfold analyze_tables. rewrite Hget; simpl. rewrite Hiter; simpl.
    destruct (for_each_well_formed analyze_tables_step items []
                analyze_tables_step_well_formed Hwf) as (tables & Htables).
    rewrite Htables; simpl. eauto.
  - unfold get_actions_summary. rewrite Hget; simpl. rewrite Hiter; simpl.
    apply (for_each_well_formed get_actions_summary_step items []
             get_actions_summary_step_well_formed Hwf).
Qed.

Lemma well_formed_records_accepted_witness :
  records_of (JObj [("records",
                     JArr [JObj [("table_name", JInt 7)];
                           JObj [("action", JNull)];
                           JObj []])])
    = Ok [JObj [("table_name", JInt 7)]; JObj [("action", JNull)]; JObj []] /\
  (exists ts,
      analyze_tables (JObj [("records",
                             JArr [JObj [("table_name", JInt 7)];
                                   JObj [("action", JNull)];
                                   JObj []])]) = Ok ts) /\
  (exists acts,
      get_actions_summary (JObj [("records",
                                  JArr [JObj [("table_name", JInt 7)];
                                        JObj [("action", JNull)];
                                        JObj []])]) = Ok acts).
Proof.
  split; [reflexivity|].
  apply (well_formed_records_accepted _
           [JObj [("table_name", JInt 7)]; JObj [("action", JNull)]; JObj []]);
    reflexivity.
Defined.

(** X3.  A record that is no object, after records that are well formed,
    makes the three record walks raise the same [AttributeError], which names
    the type of that record; what follows it is not looked at. *)
Theorem non_object_record_raises (data : json) (pre post : list json) (r : json) :
  records_of data = Ok (pre ++ r :: post) ->
  forallb well_formed pre = true ->
  is_object r = false ->
  analyze_records data = Err (no_get_error r) /\
  analyze_tables data = Err (no_get_error r) /\
  get_actions_summary data = Err (no_get_error r).
Proof.
  intros H Hwf Hr. apply records_of_Ok in H. destruct H as (records & Hget & Hiter).
  split; [|split].
  - unfold analyze_records. rewrite Hget; simpl.
    rewrite (py_len_of_iter _ _ Hiter); simpl. rewrite Hiter; simpl.
    destruct (analyze_records_objects_loop pre
                {| total := List.length (pre ++ r :: post); deletes := 0;
                   strong_overwrites := 0 |}
                (well_formed_objects _ Hwf)) as (s1 & Hs1).
    apply (for_each_raises _ _ _ _ _ _ _ Hs1).
    destruct r; try discriminate; reflexivity.
  - unfold analyze_tables. rewrite Hget; simpl. rewrite Hiter; simpl.
    destruct (for_each_well_formed analyze_tables_step pre []
                analyze_tables_step_well_formed Hwf) as (s1 & Hs1).
    rewrite (for_each_raises _ _ post r _ _ (no_get_error r) Hs1); [reflexivity|].
    destruct r; try discriminate; reflexivity.
  - unfold get_actions_summary. rewrite Hget; simpl. rewrite Hiter; simpl.
    destruct (for_each_well_formed get_actions_summary_step pre []
                get_actions_summary_step_well_formed Hwf) as (s1 & Hs1).
    apply (for_each_raises _ _ _ _ _ _ _ Hs1).
    destruct r; try discriminate; reflexivity.
Qed.

Lemma non_object_record_raises_witness :
  records_of (JObj [("records", JArr [JObj []; JInt 5; JObj []])])
    = Ok ([JObj []] ++ JInt 5 :: [JObj []]) /\
  analyze_records (JObj [("records", JArr [JObj []; JInt 5; JObj []])])
    = Err (Raise AttributeError "'int' object has no attribute 'get'") /\
  analyze_tables (JObj [("records", JArr [JObj []; JInt 5; JObj []])])
    = Err (Raise AttributeError "'int' object has no attribute 'get'") /\
  get_actions_summary (JObj [("records", JArr [JObj []; JInt 5; JObj []])])
    = Err (Raise AttributeError "'int' object has no attribute 'get'").
Proof.
  split; [reflexivity|].
  apply (non_object_record_raises _ [JObj []] [JObj []] (JInt 5)); reflexivity.
Defined.

Lemma analyze_records_objects_return (data : json) (items : list json) :
  records_of data = Ok items ->
  forallb is_object items = true ->
  exists stats, analyze_records data = Ok stats.
Proof.
  intros H Hobj. apply records_of_Ok in H. destruct H as (records & Hget & Hiter).
  unfold analyze_records. rewrite Hget; simpl.
  rewrite (py_len_of_iter _ _ Hiter); simpl. rewrite Hiter; simpl.
  apply analyze_records_objects_loop. assumption.
Qed.

(** X4.  A record whose [action] is a list or an object is accepted by
    [analyze_records], which only compares the action, and makes
    [get_actions_summary] and [analyze_tables], which file it as a key,
    raise [TypeError: unhashable type]. *)
Theorem unhashable_action_raises (data : json) (pre post : list json)
  (m : list (string * json)) (a : json) :
  records_of data = Ok (pre ++ JObj m :: post) ->
  forallb well_formed pre = true ->
  forallb is_object post = true ->
  assoc "action" m = Some a ->
  (exists l, a = JArr l) \/ (exists o, a = JObj o) ->
  plain_key (match assoc "table_name" m with
             | Some x => x
             | None => JStr "unknown"
             end) = true ->
  (exists stats, analyze_records data = Ok stats) /\
  get_actions_summary data = Err (unhashable_error a) /\
  analyze_tables data = Err (unhashable_error a).
Proof.
  intros H Hwf Hpost Hm Ha Ht.
  split; [|split].
  - apply (analyze_records_objects_return data _ H).
    rewrite forallb_app. rewrite (well_formed_objects _ Hwf). simpl. exact Hpost.
  - apply records_of_Ok in H. destruct H as (records & Hget & Hiter).
    unfold get_actions_summary. rewrite Hget; simpl. rewrite Hiter; simpl.
    destruct (for_each_well_formed get_actions_summary_step pre []
                get_actions_summary_step_well_formed Hwf) as (s1 & Hs1).
    apply (for_each_raises _ _ _ _ _ _ _ Hs1).
    unfold get_actions_summary_step; simpl. rewrite Hm.
    destruct Ha as [(l & ->)|(o & ->)]; reflexivity.
  - apply records_of_Ok in H. destruct H as (records & Hget & Hiter).
    unfold analyze_tables. rewrite Hget; simpl. rewrite Hiter; simpl.
    destruct (for_each_well_formed analyze_tables_step pre []
                analyze_tables_step_well_formed Hwf) as (s1 & Hs1).
    rewrite (for_each_raises _ _ post (JObj m) _ _ (unhashable_error a) Hs1);
      [reflexivity|].
    unfold analyze_tables_step; simpl. rewrite Hm.
    destruct (plain_key_hash _ Ht) as (kt & Hkt). rewrite Hkt; simpl.
    destruct Ha as [(l & ->)|(o & ->)]; reflexivity.
Qed.

Lemma unhashable_action_raises_witness :
  (exists stats,
      analyze_records
        (JObj [("records", JArr [JObj [("action", JArr [JStr "insert"])]])])
      = Ok stats) /\
  get_actions_summary
    (JObj [("records", JArr [JObj [("action", JArr [JStr "insert"])]])])
    = Err (Raise TypeError "unhashable type: 'list'") /\
  analyze_tables
    (JObj [("records", JArr [JObj [("action", JArr [JStr "insert"])]])])
    = Err (Raise TypeError "unhashable type: 'list'").
Proof.
  apply (unhashable_action_raises _ [] [] [("action", JArr [JStr "insert"])]
           (JArr [JStr "insert"])); try reflexivity.
  left. eexists; reflexivity.
Defined.

(** ** Actions across the views *)

Lemma analyze_records_counts (data : json) (stats : RecordStats) :
  analyze_records data = Ok stats ->
  exists items,
    records_of data = Ok items /\
    total stats = List.length items /\
    deletes stats = List.length (filter delete_action items) /\
    strong_overwrites stats = List.length (filter strong_flag items).
Proof.
  intros H. unfold analyze_records in H. unfold records_of.
  bind_inv H. rewrite Ha; simpl. bind_inv H. bind_inv H.
  exists a1. split; [assumption|].
  apply analyze_records_loop in H; simpl in H.
  pose proof (py_len_iter _ _ _ Ha0 Ha1). lia.
Qed.

Lemma float_key_not_str (literal s : string) : float_key literal <> HStr s.
Proof.
  unfold float_key. destruct (Float.of_literal literal) as [m e|negative|];
    try discriminate.
  destruct (0 <=? e)%Z; [discriminate|].
  destruct (_ =? 1)%Z; discriminate.
Qed.

Lemma delete_action_key (r : json) (k : hkey) :
  action_key r = Ok k ->
  (if delete_action r then 1 else 0)
  = (if hkey_eq_dec k (HStr "delete") then 1 else 0).
Proof.
  unfold action_key, delete_action, field.
  destruct r as [| | | | | |m]; simpl; try discriminate.
  destruct (assoc "action" m) as [[| | |f|a| |]|]; simpl; intros H;
    try discriminate; injection H as <-;
    try (destruct (hkey_eq_dec _ _) as [E|E];
         [first [discriminate | apply float_key_not_str in E; contradiction]
         | reflexivity]).
  destruct (String.eqb_spec a "delete") as [->|N];
    destruct (hkey_eq_dec _ _) as [E|E]; try reflexivity.
  - contradiction.
  - injection E as ->. contradiction.
Qed.

Lemma delete_actions_counted (items : list json) (keys : list hkey) :
  Forall2 (fun r k => action_key r = Ok k) items keys ->
  List.length (filter delete_action items)
  = count_occ hkey_eq_dec keys (HStr "delete").
Proof.
  induction 1 as [|r k items keys Hr Hitems IH]; simpl; [reflexivity|].
  pose proof (delete_action_key r k Hr) as Hd.
  destruct (delete_action r), (hkey_eq_dec k (HStr "delete"));
    simpl; try discriminate; lia.
Qed.

(** X5.  The summary of actions counts, under each action, the records that
    carry it (a record without [action] under [unknown]); its keys are the
    distinct actions in the order in which they first appear, each filed
    under the key object of its first record. *)
Theorem get_actions_summary_counts (data : json) (acts : pydict nat) :
  get_actions_summary data = Ok acts ->
  exists items keys,
    records_of data = Ok items /\
    Forall2 (fun r k => action_key r = Ok k) items keys /\
    (forall k, dict_get_default k acts 0 = count_occ hkey_eq_dec keys k) /\
    (forall k, In k (dict_keys acts) <-> In k keys) /\
    NoDup (dict_keys acts) /\
    StronglySorted (fun a b => first_index a keys < first_index b keys)
      (dict_keys acts) /\
    well_keyed acts.
Proof.
  intros H. apply get_actions_summary_Ok in H. destruct H as (items & Hrec & Hloop).
  destruct (actions_inv_loop items [] [] acts
              (counts_inv_nil (fun n => n) 0 eq_refl) Hloop)
    as (keys & Hkeys & [Hkeyed Hnd Hin Hcount Hord]).
  simpl in *. exists items, keys. repeat split; auto; apply Hin.
Qed.

Lemma get_actions_summary_counts_witness :
  exists items keys,
    records_of sample_data = Ok items /\
    Forall2 (fun r k => action_key r = Ok k) items keys /\
    (forall k,
        dict_get_default k
          [(HStr "insert", (JStr "insert", 2)); (HStr "delete", (JStr "delete", 1));
           (HStr "update", (JStr "update", 1))] 0
        = count_occ hkey_eq_dec keys k) /\
    (forall k,
        In k (dict_keys
                [(HStr "insert", (JStr "insert", 2));
                 (HStr "delete", (JStr "delete", 1));
                 (HStr "update", (JStr "update", 1))]) <-> In k keys) /\
    NoDup (dict_keys
             [(HStr "insert", (JStr "insert", 2));
              (HStr "delete", (JStr "delete", 1));
              (HStr "update", (JStr "update", 1))]) /\
    StronglySorted (fun a b => first_index a keys < first_index b keys)
      (dict_keys
         [(HStr "insert", (JStr "insert", 2));
          (HStr "delete", (JStr "delete", 1));
          (HStr "update", (JStr "update", 1))]) /\
    well_keyed
      [(HStr "insert", (JStr "insert", 2)); (HStr "delete", (JStr "delete", 1));
       (HStr "update", (JStr "update", 1))].
Proof.
  apply (get_actions_summary_counts sample_data). reflexivity.
Defined.

(** X6.  The delete counter of [analyze_records] is the count the summary
    of actions keeps under [delete], or 0 when the summary has no such key. *)
Theorem deletes_in_summary (data : json) (stats : RecordStats) (acts : pydict nat) :
  analyze_records data = Ok stats ->
  get_actions_summary data = Ok acts ->
  deletes stats = dict_get_default (HStr "delete") acts 0.
Proof.
  intros Hstats Hacts.
  apply analyze_records_counts in Hstats.
  destruct Hstats as (items & Hrec & _ & Hdel & _).
  apply get_actions_summary_Ok in Hacts.
  destruct Hacts as (items' & Hrec' & Hloop).
  rewrite Hrec in Hrec'. injection Hrec' as <-.
  destruct (actions_inv_loop items [] [] acts
              (counts_inv_nil (fun n => n) 0 eq_refl) Hloop)
    as (keys & Hkeys & Hinv).
  rewrite Hdel, (cnt_count _ _ _ _ Hinv). simpl.
  apply delete_actions_counted. assumption.
Qed.

Lemma deletes_in_summary_witness :
  deletes {| total := 4; deletes := 1; strong_overwrites := 1 |}
  = dict_get_default (HStr "delete")
      [(HStr "insert", (JStr "insert", 2)); (HStr "delete", (JStr "delete", 1));
       (HStr "update", (JStr "update", 1))] 0.
Proof.
  apply (deletes_in_summary sample_data); reflexivity.
Defined.

(** ** Actions within the tables *)

Lemma analyze_tables_step_full (tables tables' : pydict table_data) (r : json) :
  analyze_tables_step tables r = Ok tables' ->
  exists kt ka table_name action,
    action_key r = Ok ka /\
    py_hash table_name = Ok kt /\ py_hash action = Ok ka /\
    tables' =
      dict_store kt table_name
        {| count :=
             count (dict_get_default kt tables {| count := 0; table_actions := [] |})
             + 1;
           table_actions :=
             dict_store ka action
               (dict_get_default ka
                  (table_actions
                     (dict_get_default kt tables
                        {| count := 0; table_actions := [] |})) 0 + 1)
               (table_actions
                  (dict_get_default kt tables
                     {| count := 0; table_actions := [] |})) |}
        tables.
Proof.
  unfold analyze_tables_step, action_key. intros H.
  bind_inv H. bind_inv H. bind_inv H. bind_inv H. injection H as <-.
  rewrite Ha0; simpl. exists a1, a2, a, a0. auto.
Qed.

Lemma dict_get_default_store {V} (k k0 : hkey) (key : json) (v default : V)
  (d : pydict V) :
  dict_get_default k0 (dict_store k key v d) default
  = if hkey_eq_dec k0 k then v else dict_get_default k0 d default.
Proof.
  unfold dict_get_default. destruct (hkey_eq_dec k0 k) as [->|N].
  - rewrite dict_lookup_store_same. reflexivity.
  - rewrite dict_lookup_store_other by assumption. reflexivity.
Qed.

Lemma tables_actions_loop (items : list json) (tables tables' : pydict table_data) :
  for_each analyze_tables_step items tables = Ok tables' ->
  exists keys,
    Forall2 (fun r k => action_key r = Ok k) items keys /\
    (balanced tables -> balanced tables') /\
    forall k, action_total k tables'
              = action_total k tables + count_occ hkey_eq_dec keys k.
Proof.
  revert tables; induction items as [|r items IH]; intros tables H.
  - injection H as <-. exists []. split; [constructor|].
    split; [auto | intros k; simpl; lia].
  - simpl in H. bind_inv H.
    apply analyze_tables_step_full in Ha.
    destruct Ha as (kt & ka & table_name & action & Hka & _ & _ & ->).
    destruct (IH _ H) as (keys & Hkeys & Hbal & Htot).
    exists (ka :: keys). split; [constructor; assumption|]. split.
    + intros Hb. apply Hbal. unfold balanced in *.
      apply (dict_store_Forall
               (fun v => dict_total (fun n => n) (table_actions v) = count v));
        [|exact Hb].
      simpl.
      pose proof (dict_get_default_Forall
                    (fun v => dict_total (fun n => n) (table_actions v) = count v)
                    kt tables {| count := 0; table_actions := [] |}
                    eq_refl Hb) as Hentry.
      simpl in Hentry.
      pose proof (dict_store_total_gen (fun n => n) ka action
                    (dict_get_default ka
                       (table_actions
                          (dict_get_default kt tables
                             {| count := 0; table_actions := [] |})) 0 + 1)
                    0
                    (table_actions
                       (dict_get_default kt tables
                          {| count := 0; table_actions := [] |}))
                    eq_refl) as Hsum.
      simpl in Hsum. lia.
    + intros k. rewrite Htot. unfold action_total.
      pose proof (dict_store_total_gen
                    (fun v => dict_get_default k (table_actions v) 0)
                    kt table_name
                    {| count :=
                         count (dict_get_default kt tables
                                  {| count := 0; table_actions := [] |}) + 1;
                       table_actions :=
                         dict_store ka action
                           (dict_get_default ka
                              (table_actions
                                 (dict_get_default kt tables
                                    {| count := 0; table_actions := [] |})) 0 + 1)
                           (table_actions
                              (dict_get_default kt tables
                                 {| count := 0; table_actions := [] |})) |}
                    {| count := 0; table_actions := [] |}
                    tables eq_refl) as Hsum.
      simpl in Hsum. rewrite dict_get_default_store in Hsum.
      simpl. destruct (hkey_eq_dec k ka) as [E1|N];
        destruct (hkey_eq_dec ka k) as [E|E]; try congruence; subst; lia.
Qed.

(** X7.  In every entry [analyze_tables] returns, the counts of the actions
    add up to the record count of the table. *)
Theorem table_actions_cover_records (data : json) (ts : list TableInfo) :
  analyze_tables data = Ok ts ->
  Forall (fun t => list_sum (dict_values (actions t)) = record_count t) ts.
Proof.
  intros H. apply analyze_tables_Ok in H.
  destruct H as (items & tables & _ & Hloop & ->).
  destruct (tables_actions_loop _ _ _ Hloop) as (keys & _ & Hbal & _).
  specialize (Hbal (Forall_nil _)).
  apply Forall_map.
  apply (Permutation_Forall
           (Permutation_sym (sorted_desc_perm (fun kv => count (snd (snd kv))) tables))).
  unfold balanced, dict_total in Hbal.
  eapply Forall_impl; [|exact Hbal].
  intros [k [key v]]; simpl. unfold dict_values.
  intros <-. f_equal.
Qed.

Lemma table_actions_cover_records_witness :
  Forall (fun t => list_sum (dict_values (actions t)) = record_count t)
    sample_tables.
Proof.
  apply (table_actions_cover_records sample_data). reflexivity.
Defined.

(** X8.  For every action, the count in the summary of actions is the sum of
    the counts the tables keep for it. *)
Theorem summary_is_sum_of_tables (data : json) (ts : list TableInfo)
  (acts : pydict nat) :
  analyze_tables data = Ok ts ->
  get_actions_summary data = Ok acts ->
  forall k,
    dict_get_default k acts 0
    = list_sum (map (fun t => dict_get_default k (actions t) 0) ts).
Proof.
  intros Hts Hacts k.
  apply analyze_tables_Ok in Hts.
  destruct Hts as (items & tables & Hrec & Hloop & ->).
  apply get_actions_summary_Ok in Hacts.
  destruct Hacts as (items' & Hrec' & Hloop').
  rewrite Hrec in Hrec'. injection Hrec' as <-.
  destruct (actions_inv_loop items [] [] acts
              (counts_inv_nil (fun n => n) 0 eq_refl) Hloop')
    as (keys & Hkeys & Hinv).
  destruct (tables_actions_loop _ _ _ Hloop) as (keys' & Hkeys' & _ & Htot).
  rewrite (Forall2_functional _ _ _ _ Hkeys' Hkeys) in Htot.
  rewrite (cnt_count _ _ _ _ Hinv). simpl.
  specialize (Htot k). unfold action_total, dict_total in Htot. simpl in Htot.
  rewrite <- Htot. rewrite map_map. simpl.
  apply list_sum_perm. apply Permutation_map. apply Permutation_sym.
  apply sorted_desc_perm.
Qed.

Lemma summary_is_sum_of_tables_witness :
  dict_get_default (HStr "insert")
    [(HStr "insert", (JStr "insert", 2)); (HStr "delete", (JStr "delete", 1));
     (HStr "update", (JStr "update", 1))] 0
  = list_sum (map (fun t => dict_get_default (HStr "insert") (actions t) 0)
                sample_tables).
Proof.
  apply (summary_is_sum_of_tables sample_data); reflexivity.
Defined.

(** ** The fallback strategy *)

Section Fallback.

Variable zlib_decompress : bytes -> Z -> result bytes.

Lemma try_headers_Some (headers : list bytes) (data r : bytes) :
  try_headers zlib_decompress headers data = Some r ->
  exists pre header post,
    headers = pre ++ header :: post /\
    Forall (header_fails zlib_decompress data) pre /\
    zlib_decompress (header ++ data) 15 = Ok r.
Proof.
  induction headers as [|h headers IH]; simpl; [discriminate|].
  destruct (zlib_decompress (h ++ data) 15) as [r'|e] eqn:Hh.
  - intros H; injection H as <-. exists [], h, headers.
    split; [reflexivity|]. split; [constructor | assumption].
  - intros H. destruct (IH H) as (pre & header & post & -> & Hpre & Hr).
    exists (h :: pre), header, post. split; [reflexivity|].
    split; [constructor; [exists e; assumption | assumption] | assumption].
Qed.

Lemma try_headers_None (headers : list bytes) (data : bytes) :
  try_headers zlib_decompress headers data = None ->
  Forall (header_fails zlib_decompress data) headers.
Proof.
  induction headers as [|h headers IH]; simpl; [constructor|].
  destruct (zlib_decompress (h ++ data) 15) as [r'|e] eqn:Hh; [discriminate|].
  intros H. constructor; [exists e; assumption | auto].
Qed.

Lemma try_offsets_Some (a n : nat) (data r : bytes) :
  try_offsets zlib_decompress (seq a n) data = Some r ->
  exists i,
    a <= i < a + n /\
    (forall j, a <= j < i -> offset_fails zlib_decompress data j) /\
    zlib_decompress (skipn i data) (-15) = Ok r.
Proof.
  revert a; induction n as [|n IH]; intros a; simpl; [discriminate|].
  destruct (zlib_decompress (skipn a data) (-15)) as [r'|e] eqn:Ha.
  - intros H; injection H as <-. exists a. split; [lia|].
    split; [intros j Hj; lia | assumption].
  - intros H. destruct (IH _ H) as (i & Hi & Hbefore & Hr).
    exists i. split; [lia|]. split; [|assumption].
    intros j Hj. destruct (Nat.eq_dec j a) as [->|N].
    + exists e; assumption.
    + apply Hbefore. lia.
Qed.

Lemma try_offsets_None (a n : nat) (data : bytes) :
  try_offsets zlib_decompress (seq a n) data = None ->
  forall i, a <= i < a + n -> offset_fails zlib_decompress data i.
Proof.
  revert a; induction n as [|n IH]; intros a; simpl; [intros _ i Hi; lia|].
  destruct (zlib_decompress (skipn a data) (-15)) as [r'|e] eqn:Ha; [discriminate|].
  intros H i Hi. destruct (Nat.eq_dec i a) as [->|N].
  - exists e; assumption.
  - apply (IH _ H). lia.
Qed.

(** X9.  [_try_with_headers] returns the output of its first attempt that
    does not raise: the data behind each of the four header prefixes, with
    the zlib wrapper, then the data from each offset below [min(10, len)],
    without wrapper.  It raises only when all of them raised, and then the
    one error whose message is fixed. *)
Theorem _try_with_headers_attempts (data : bytes) :
  (forall r,
      _try_with_headers zlib_decompress data = Ok r ->
      (exists pre header post,
          headers_to_try = pre ++ header :: post /\
          Forall (header_fails zlib_decompress data) pre /\
          zlib_decompress (header ++ data) 15 = Ok r) \/
      (Forall (header_fails zlib_decompress data) headers_to_try /\
       exists i,
         i < Nat.min 10 (List.length data) /\
         (forall j, j < i -> offset_fails zlib_decompress data j) /\
         zlib_decompress (skipn i data) (-15) = Ok r)) /\
  (forall e,
      _try_with_headers zlib_decompress data = Err e ->
      e = headers_failed_error /\
      Forall (header_fails zlib_decompress data) headers_to_try /\
      forall i, i < Nat.min 10 (List.length data) -> offset_fails zlib_decompress data i).
Proof.
  unfold _try_with_headers. split.
  - intros r H.
    destruct (try_headers zlib_decompress headers_to_try data) as [r1|] eqn:Hh.
    + injection H as <-. left. apply try_headers_Some. assumption.
    + destruct (try_offsets _ _ _) as [r2|] eqn:Ho; [|discriminate].
      injection H as <-. right. split; [apply try_headers_None; assumption|].
      destruct (try_offsets_Some _ _ _ _ Ho) as (i & Hi & Hbefore & Hr).
      exists i. split; [lia|]. split; [|assumption].
      intros j Hj. apply Hbefore. lia.
  - intros e H.
    destruct (try_headers zlib_decompress headers_to_try data) as [r1|] eqn:Hh;
      [discriminate|].
    destruct (try_offsets _ _ _) as [r2|] eqn:Ho; [discriminate|].
    injection H as <-. split; [reflexivity|].
    split; [apply try_headers_None; assumption|].
    intros i Hi. apply (try_offsets_None _ _ _ Ho). lia.
Qed.

End Fallback.

Lemma zlib_wrapper_over_raw (c f : byte) (data r : bytes) :
  Zlib.decompress (c :: f :: data) 15 = Ok r ->
  Zlib.decompress data (-15) = Ok r.
Proof.
  change (Zlib.decompress (c :: f :: data) 15)
    with (Zlib.inflate_zlib (c :: f :: data)).
  change (Zlib.decompress data (-15)) with (Zlib.inflate_raw data).
  unfold Zlib.inflate_zlib, Zlib.inflate_raw, bind.
  destruct (Zlib.zlib_header c f) as [[|]|e]; try discriminate.
  - destruct (Zlib.take 4 data); discriminate.
  - destruct (Zlib.inflate_blocks _ _ _) as [[s o]|e]; [|discriminate].
    destruct (Zlib.take 4 (Zlib.rest s)) as [[check t]|]; [|discriminate].
    destruct (_ =? _)%N; [|discriminate]. auto.
Qed.

Lemma fallback_skips_junk (data r : bytes) (e1 e2 : exn) :
  _try_raw_deflate Zlib.decompress data = Err e1 ->
  _try_zlib_deflate Zlib.decompress data = Err e2 ->
  _try_with_headers Zlib.decompress data = Ok r ->
  exists i,
    1 <= i < Nat.min 10 (List.length data) /\
    Zlib.decompress (skipn i data) (-15) = Ok r /\
    forall j, j < i -> exists e, Zlib.decompress (skipn j data) (-15) = Err e.
Proof.
  unfold _try_raw_deflate, _try_zlib_deflate, _try_with_headers.
  intros Hraw Hzlib H.
  assert (Hh : try_headers Zlib.decompress headers_to_try data = None).
  { unfold headers_to_try; simpl try_headers. rewrite Hzlib.
    repeat match goal with
    | |- context [Zlib.decompress (?c :: ?f :: data) 15] =>
        let E := fresh "E" in
        destruct (Zlib.decompress (c :: f :: data) 15) eqn:E;
          [apply zlib_wrapper_over_raw in E; congruence|]
    end.
    reflexivity. }
  rewrite Hh in H.
  destruct (try_offsets _ _ _) as [r2|] eqn:Ho; [|discriminate].
  injection H as <-.
  destruct (try_offsets_Some _ _ _ _ _ Ho) as (i & Hi & Hbefore & Hr).
  exists i. split; [|split].
  - destruct i as [|i]; [|lia]. simpl in Hr. congruence.
  - assumption.
  - intros j Hj. apply Hbefore. lia.
Qed.

(** X10.  With the zlib library as modelled, the header prefixes of
    [_try_with_headers] find nothing the first two strategies have not: when
    raw inflate and zlib inflate raise on the data and [_try_with_headers]
    returns, its output is the raw inflate of the data from an offset between
    1 and 9, the first one at which raw inflate does not raise. *)
Theorem _try_with_headers_skips_junk (data r : bytes) (e1 e2 : exn) :
  _try_raw_deflate Zlib.decompress data = Err e1 ->
  _try_zlib_deflate Zlib.decompress data = Err e2 ->
  _try_with_headers Zlib.decompress data = Ok r ->
  exists i,
    1 <= i < Nat.min 10 (List.length data) /\
    Zlib.decompress (skipn i data) (-15) = Ok r /\
    forall j, j < i -> exists e, Zlib.decompress (skipn j data) (-15) = Err e.
Proof.
  apply fallback_skips_junk.
Qed.

Lemma _try_with_headers_skips_junk_witness :
  exists i,
    1 <= i < Nat.min 10 (List.length [xff; xab; xae; x05; x00]) /\
    Zlib.decompress (skipn i [xff; xab; xae; x05; x00]) (-15) = Ok [x7b; x7d] /\
    forall j, j < i ->
      exists e, Zlib.decompress (skipn j [xff; xab; xae; x05; x00]) (-15) = Err e.
Proof.
  apply (_try_with_headers_skips_junk [xff; xab; xae; x05; x00] [x7b; x7d]
           (Zlib.data_error "invalid block type")
           (Zlib.data_error "incorrect header check"));
    vm_compute; reflexivity.
Defined.

(** ** What leaves [load_data] *)

Lemma handle_class (e : exn) :
  exn_cls (handle e) <> BadZipFile /\ exn_cls (handle e) <> JSONDecodeError.
Proof.
  destruct e as [c m]. destruct c; simpl; split; discriminate.
Qed.

Lemma zip_read_skip (pre entries : list (string * result bytes)) (name : string) :
  In name (namelist entries) ->
  zip_read (pre ++ entries) name = zip_read entries name.
Proof.
  intros Hin. induction pre as [|[n r] pre IH]; simpl; [reflexivity|].
  replace (existsb (String.eqb name) (namelist (pre ++ entries))) with true.
  - rewrite andb_false_r. exact IH.
  - symmetry. apply existsb_exists. exists name. split; [|apply String.eqb_refl].
    unfold namelist. rewrite map_app. apply in_or_app. right. exact Hin.
Qed.

Lemma zip_read_last (n : string) (r : result bytes)
  (post : list (string * result bytes)) :
  zip_read ((n, r) :: post) n
  = if existsb (String.eqb n) (namelist post) then zip_read post n else r.
Proof.
  simpl. rewrite String.eqb_refl. simpl.
  destruct (existsb (String.eqb n) (namelist post)); reflexivity.
Qed.

Lemma filter_data_files (pre post : list (string * result bytes)) (n : string)
  (r : result bytes) :
  Forall (fun e => endswith (fst e) ".data" = false) pre ->
  endswith n ".data" = true ->
  exists others,
    filter (fun f => endswith f ".data") (namelist (pre ++ (n, r) :: post))
    = n :: others.
Proof.
  intros Hpre Hn. unfold namelist. rewrite map_app, filter_app.
  rewrite (filter_none (fun f => endswith f ".data") (map fst pre)).
  - simpl. rewrite Hn. eauto.
  - intros x Hx. apply in_map_iff in Hx. destruct Hx as (e & <- & He).
    rewrite Forall_forall in Hpre. auto.
Qed.

Section Entries.

Variable zlib_decompress : bytes -> Z -> result bytes.
Variable utf8_decode : bytes -> result string.
Variable json_loads : string -> result json.

(** X11.  Whatever [load_data] raises, it is neither a [BadZipFile] nor a
    [JSONDecodeError]: the two are replaced by a [ValueError], wherever in
    the body they come from. *)
Theorem load_data_error_classes (fs : filesystem) (self self' : SOPAnalyzer)
  (e : exn) (out : list string) :
  load_data zlib_decompress utf8_decode json_loads fs self = (Err e, self', out) ->
  exn_cls e <> BadZipFile /\ exn_cls e <> JSONDecodeError.
Proof.
  unfold load_data. destruct (negb (is_None (_data self))); [discriminate|].
  unfold decode.
  destruct (fs (sop_file_path self)) eqn:Hfile;
    try (intros H; injection H as <- _ _; split; discriminate);
    (destruct (read_data_file _ _) as [compressed|er];
     [|intros H; injection H as <- _ _; apply handle_class]);
    (destruct (_decompress_data zlib_decompress compressed) as [[raw|ed] lines];
     [|intros H; injection H as <- _ _; apply handle_class]);
    (destruct (utf8_decode raw) as [text|eu];
     [|intros H; injection H as <- _ _; apply handle_class]);
    (destruct (json_loads text) as [doc|ej];
     [discriminate | intros H; injection H as <- _ _; apply handle_class]).
Qed.

(** X12.  [load_data] reads the entry named by the first name of the
    listing that ends in [.data]: the entries listed before it and the
    entries of other names after it change nothing, and when the name is
    listed again the last entry of that name is the one read. *)
Theorem load_data_first_data_entry (fs1 fs2 : filesystem) (self : SOPAnalyzer)
  (pre post : list (string * result bytes)) (n : string) (r : result bytes) :
  fs1 (sop_file_path self) = ZipArchive (pre ++ (n, r) :: post) ->
  Forall (fun e => endswith (fst e) ".data" = false) pre ->
  endswith n ".data" = true ->
  fs2 (sop_file_path self)
  = ZipArchive [(n, if existsb (String.eqb n) (namelist post)
                    then zip_read post n else r)] ->
  load_data zlib_decompress utf8_decode json_loads fs1 self
  = load_data zlib_decompress utf8_decode json_loads fs2 self.
Proof.
  intros H1 Hpre Hn H2. unfold load_data.
  destruct (negb (is_None (_data self))); [reflexivity|].
  unfold decode. rewrite H1, H2. unfold read_data_file.
  destruct (filter_data_files pre post n r Hpre Hn) as (others & ->).
  rewrite zip_read_skip by (simpl; auto).
  rewrite zip_read_last.
  simpl filter. rewrite Hn.
  rewrite (zip_read_last n _ []). simpl existsb. reflexivity.
Qed.

End Entries.

Lemma load_data_error_classes_witness :
  exn_cls bad_zip_error <> BadZipFile /\ exn_cls bad_zip_error <> JSONDecodeError.
Proof.
  apply (load_data_error_classes Zlib.decompress Utf8.decode Json.loads
           (fun _ => Unreadable (Raise BadZipFile "File is not a zip file"))
           (init "package.sop") (init "package.sop") bad_zip_error []).
  reflexivity.
Defined.

Lemma load_data_first_data_entry_witness :
  load_data Zlib.decompress Utf8.decode Json.loads
    (archive_of [("readme.txt", Ok []);
                 ("package.data", Ok null_compressed);
                 ("other.data", Ok []);
                 ("package.data", Ok sample_compressed)])
    (init "package.sop")
  = load_data Zlib.decompress Utf8.decode Json.loads
      (package_of sample_compressed) (init "package.sop").
Proof.
  apply (load_data_first_data_entry Zlib.decompress Utf8.decode Json.loads
           (archive_of [("readme.txt", Ok []);
                        ("package.data", Ok null_compressed);
                        ("other.data", Ok []);
                        ("package.data", Ok sample_compressed)])
           (package_of sample_compressed) (init "package.sop")
           [("readme.txt", Ok [])]
           [("other.data", Ok []); ("package.data", Ok sample_compressed)]
           "package.data" (Ok null_compressed)).
  - reflexivity.
  - repeat constructor.
  - reflexivity.
  - reflexivity.
Defined.

(** ** Documents that are no objects *)

Section Documents.

Variable zlib_decompress : bytes -> Z -> result bytes.
Variable utf8_decode : bytes -> result string.
Variable json_loads : string -> result json.

(** X13.  When the payload decodes to a document that is no object (a list,
    a string, a number, a boolean, [null]), the four query methods raise the
    [AttributeError] that names the type of the document, after the decoding
    that [load_data] does. *)
Theorem non_object_document (fs : filesystem) (self self' : SOPAnalyzer)
  (doc : json) (out : list string) :
  load_data zlib_decompress utf8_decode json_loads fs self = (Ok doc, self', out) ->
  is_object doc = false ->
  method zlib_decompress utf8_decode json_loads get_metadata fs self
    = (Err (no_get_error doc), self', out) /\
  method zlib_decompress utf8_decode json_loads analyze_records fs self
    = (Err (no_get_error doc), self', out) /\
  method zlib_decompress utf8_decode json_loads analyze_tables fs self
    = (Err (no_get_error doc), self', out) /\
  method zlib_decompress utf8_decode json_loads get_actions_summary fs self
    = (Err (no_get_error doc), self', out).
Proof.
  intros H Hdoc. unfold method. rewrite H.
  destruct doc; try discriminate; repeat split; reflexivity.
Qed.

End Documents.

Lemma non_object_document_witness :
  method Zlib.decompress Utf8.decode Json.loads get_metadata
    (package_of null_compressed) (init "package.sop")
    = (Err (Raise AttributeError "'NoneType' object has no attribute 'get'"),
       init "package.sop",
       [msg_failure "_try_raw_deflate"
          (Zlib.data_error "invalid stored block lengths");
        msg_success "_try_zlib_deflate"]) /\
  method Zlib.decompress Utf8.decode Json.loads analyze_records
    (package_of null_compressed) (init "package.sop")
    = (Err (Raise AttributeError "'NoneType' object has no attribute 'get'"),
       init "package.sop",
       [msg_failure "_try_raw_deflate"
          (Zlib.data_error "invalid stored block lengths");
        msg_success "_try_zlib_deflate"]) /\
  method Zlib.decompress Utf8.decode Json.loads analyze_tables
    (package_of null_compressed) (init "package.sop")
    = (Err (Raise AttributeError "'NoneType' object has no attribute 'get'"),
       init "package.sop",
       [msg_failure "_try_raw_deflate"
          (Zlib.data_error "invalid stored block lengths");
        msg_success "_try_zlib_deflate"]) /\
  method Zlib.decompress Utf8.decode Json.loads get_actions_summary
    (package_of null_compressed) (init "package.sop")
    = (Err (Raise AttributeError "'NoneType' object has no attribute 'get'"),
       init "package.sop",
       [msg_failure "_try_raw_deflate"
          (Zlib.data_error "invalid stored block lengths");
        msg_success "_try_zlib_deflate"]).
Proof.
  apply (non_object_document Zlib.decompress Utf8.decode Json.loads
           (package_of null_compressed) (init "package.sop") (init "package.sop")
           JNull _ null_package_loads).
  reflexivity.
Defined.

(** ** The diagnostic view *)

Lemma hex2_length (b : byte) : String.length (hex2 b) = 2.
Proof. destruct b; reflexivity. Qed.

Lemma string_length_app (a b : string) :
  String.length (a ++ b) = String.length a + String.length b.
Proof.
  induction a as [|c a IH]; simpl; [reflexivity | rewrite IH; reflexivity].
Qed.

Lemma bytes_hex_length (data : bytes) :
  String.length (bytes_hex data) = 2 * List.length data.
Proof.
  unfold bytes_hex. induction data as [|b data IH]; [reflexivity|].
  destruct data as [|b' data].
  - simpl. rewrite hex2_length. reflexivity.
  - change (String.concat "" (map hex2 (b :: b' :: data)))
      with (hex2 b ++ "" ++ String.concat "" (map hex2 (b' :: data)))%string.
    rewrite !string_length_app, IH, hex2_length. simpl. lia.
Qed.

Lemma get_raw_data_info_Info (fs : filesystem) (self : SOPAnalyzer) (n : nat)
  (f l : string) (names : list string) :
  get_raw_data_info fs self = Info n f l names ->
  exists entries first others raw_data,
    fs (sop_file_path self) = ZipArchive entries /\
    filter (fun f => endswith f ".data") (namelist entries) = first :: others /\
    zip_read entries first = Ok raw_data /\
    n = List.length raw_data /\
    f = bytes_hex (first_bytes 10 raw_data) /\
    l = bytes_hex (last_bytes 10 raw_data) /\
    names = namelist entries.
Proof.
  unfold get_raw_data_info, zip_open.
  destruct (fs (sop_file_path self)) as [|e|entries]; simpl; try discriminate.
  destruct (filter _ (namelist entries)) as [|first others] eqn:Hfilter;
    [discriminate|].
  destruct (zip_read entries first) as [raw_data|e] eqn:Hread; simpl;
    [|discriminate].
  intros H; injection H as <- <- <- <-.
  exists entries, first, others, raw_data. repeat split; auto.
Qed.

Lemma _decompress_data_prints (zlib_decompress : bytes -> Z -> result bytes)
  (data : bytes) :
  snd (_decompress_data zlib_decompress data) <> [].
Proof.
  unfold _decompress_data, methods, try_methods.
  destruct (_try_raw_deflate _ _); [discriminate|].
  destruct (_try_zlib_deflate _ _); [discriminate|].
  destruct (_try_gzip_format _ _); [discriminate|].
  destruct (_try_with_headers _ _); discriminate.
Qed.

Section Diagnostics.

Variable zlib_decompress : bytes -> Z -> result bytes.
Variable utf8_decode : bytes -> result string.
Variable json_loads : string -> result json.

(** X14.  What [get_raw_data_info] describes is what [load_data] decodes:
    the size and the two previews are those of the bytes of one entry, and
    [load_data] on the archive does what it does on an archive that holds
    only an entry with these bytes. *)
Theorem get_raw_data_info_describes_loaded_entry (fs : filesystem)
  (self : SOPAnalyzer) (n : nat) (f l : string) (names : list string) :
  get_raw_data_info fs self = Info n f l names ->
  exists entries raw_data,
    fs (sop_file_path self) = ZipArchive entries /\
    names = namelist entries /\
    n = List.length raw_data /\
    f = bytes_hex (first_bytes 10 raw_data) /\
    l = bytes_hex (last_bytes 10 raw_data) /\
    load_data zlib_decompress utf8_decode json_loads fs self
    = load_data zlib_decompress utf8_decode json_loads
        (fun _ => ZipArchive [("package.data", Ok raw_data)]) self.
Proof.
  intros H. apply get_raw_data_info_Info in H.
  destruct H as (entries & first & others & raw_data
                 & Hfile & Hfilter & Hread & -> & -> & -> & ->).
  exists entries, raw_data. repeat split; auto.
  unfold load_data. destruct (negb (is_None (_data self))); [reflexivity|].
  unfold decode. rewrite Hfile. unfold read_data_file.
  rewrite Hfilter, Hread. reflexivity.
Qed.

(** X15.  [get_raw_data_info] reports an error exactly when [load_data], on
    an analyzer that has cached nothing, raises before it tries to
    decompress anything, that is without printing a line. *)
Theorem get_raw_data_info_error (fs : filesystem) (self : SOPAnalyzer) :
  _data self = JNull ->
  (exists msg, get_raw_data_info fs self = InfoError msg) <->
  (exists e,
      load_data zlib_decompress utf8_decode json_loads fs self = (Err e, self, [])).
Proof.
  intros Hnone. unfold load_data. rewrite Hnone. simpl negb. cbv iota.
  unfold get_raw_data_info, decode, zip_open, read_data_file.
  destruct (fs (sop_file_path self)) as [|e0|entries]; simpl.
  - split; eauto.
  - split; eauto.
  - destruct (filter _ (namelist entries)) as [|first others].
    + split; eauto.
    + destruct (zip_read entries first) as [raw_data|e0]; simpl.
      * split; [intros (msg & H); discriminate|].
        intros (e & H).
        pose proof (_decompress_data_prints zlib_decompress raw_data) as Hp.
        destruct (_decompress_data zlib_decompress raw_data) as [[raw|ed] lines];
          simpl in Hp.
        -- destruct (utf8_decode raw) as [text|eu];
             [destruct (json_loads text) as [doc|ej]|];
             try discriminate; injection H as _ H; contradiction.
        -- injection H as _ H; contradiction.
      * split; eauto.
Qed.

End Diagnostics.

Lemma get_raw_data_info_describes_loaded_entry_witness :
  exists entries raw_data,
    package_of null_compressed (sop_file_path (init "package.sop"))
      = ZipArchive entries /\
    ["package.data"] = namelist entries /\
    12 = List.length raw_data /\
    "789ccb2bcdc90100045f" = bytes_hex (first_bytes 10 raw_data) /\
    "cb2bcdc90100045f01bc" = bytes_hex (last_bytes 10 raw_data) /\
    load_data Zlib.decompress Utf8.decode Json.loads
      (package_of null_compressed) (init "package.sop")
    = load_data Zlib.decompress Utf8.decode Json.loads
        (fun _ => ZipArchive [("package.data", Ok raw_data)]) (init "package.sop").
Proof.
  apply (get_raw_data_info_describes_loaded_entry
           Zlib.decompress Utf8.decode Json.loads).
  reflexivity.
Defined.

Lemma get_raw_data_info_error_witness :
  (exists msg,
      get_raw_data_info (archive_of [("readme.txt", Ok [])]) (init "package.sop")
      = InfoError msg) <->
  (exists e,
      load_data Zlib.decompress Utf8.decode Json.loads
        (archive_of [("readme.txt", Ok [])]) (init "package.sop")
      = (Err e, init "package.sop", [])).
Proof.
  apply (get_raw_data_info_error Zlib.decompress Utf8.decode Json.loads).
  reflexivity.
Defined.

(** X16.  The two previews of [get_raw_data_info] are hexadecimal texts of
    two digits per byte shown, ten bytes or the whole entry when it is
    shorter; for an entry of at most ten bytes the two previews are the same
    text. *)
Theorem get_raw_data_info_previews (fs : filesystem) (self : SOPAnalyzer)
  (n : nat) (f l : string) (names : list string) :
  get_raw_data_info fs self = Info n f l names ->
  String.length f = 2 * Nat.min 10 n /\
  String.length l = 2 * Nat.min 10 n /\
  (n <= 10 -> f = l).
Proof.
  intros H. apply get_raw_data_info_Info in H.
  destruct H as (entries & first & others & raw_data
                 & _ & _ & _ & -> & -> & -> & _).
  unfold first_bytes, last_bytes. rewrite !bytes_hex_length.
  rewrite length_firstn, length_skipn. repeat split; try lia.
  intros Hn. replace (List.length raw_data - 10) with 0 by lia.
  rewrite firstn_all2 by lia. reflexivity.
Qed.

Lemma get_raw_data_info_previews_witness :
  String.length "789cabae0500017500f9" = 2 * Nat.min 10 10 /\
  String.length "789cabae0500017500f9" = 2 * Nat.min 10 10 /\
  (10 <= 10 -> "789cabae0500017500f9" = "789cabae0500017500f9").
Proof.
  apply (get_raw_data_info_previews (package_of empty_object_compressed)
           (init "package.sop") 10 _ _ ["package.data"]).
  reflexivity.
Defined.

(** ** The report *)

Lemma analyze_records_returns (data : json) (items : list json) :
  records_of data = Ok items ->
  forallb well_formed items = true ->
  exists stats, analyze_records data = Ok stats.
Proof.
  intros H Hwf. apply records_of_Ok in H. destruct H as (records & Hget & Hiter).
  unfold analyze_records. rewrite Hget; simpl.
  rewrite (py_len_of_iter _ _ Hiter); simpl. rewrite Hiter; simpl.
  apply analyze_records_objects_loop. apply well_formed_objects. assumption.
Qed.

Lemma analyze_tables_returns (data : json) (items : list json) :
  records_of data = Ok items ->
  forallb well_formed items = true ->
  exists ts, analyze_tables data = Ok ts.
Proof.
  intros H Hwf. apply records_of_Ok in H. destruct H as (records & Hget & Hiter).
  unfold analyze_tables. rewrite Hget; simpl. rewrite Hiter; simpl.
  destruct (for_each_well_formed analyze_tables_step items []
              analyze_tables_step_well_formed Hwf) as (tables & Htables).
  rewrite Htables; simpl. eauto.
Qed.

Lemma get_actions_summary_returns (data : json) (items : list json) :
  records_of data = Ok items ->
  forallb well_formed items = true ->
  exists acts, get_actions_summary data = Ok acts.
Proof.
  intros H Hwf. apply records_of_Ok in H. destruct H as (records & Hget & Hiter).
  unfold get_actions_summary. rewrite Hget; simpl. rewrite Hiter; simpl.
  apply (for_each_well_formed get_actions_summary_step items []
           get_actions_summary_step_well_formed Hwf).
Qed.

Lemma get_metadata_object (data : json) (md : Metadata) :
  get_metadata data = Ok md -> data <> JNull.
Proof.
  destruct data; simpl; discriminate.
Qed.

Section Reports.

Variable zlib_decompress : bytes -> Z -> result bytes.
Variable utf8_decode : bytes -> result string.
Variable json_loads : string -> result json.
Variable stat_size : string -> result nat.
Variable now_isoformat : string.

Lemma generate_report_loaded (fs : filesystem) (self self1 : SOPAnalyzer)
  (doc : json) (out : list string) :
  load_data zlib_decompress utf8_decode json_loads fs self = (Ok doc, self1, out) ->
  generate_report zlib_decompress utf8_decode json_loads stat_size now_isoformat
    fs self
  = (metadata <- get_metadata doc ;;
     record_stats <- analyze_records doc ;;
     tables <- analyze_tables doc ;;
     actions <- get_actions_summary doc ;;
     size <- stat_size (sop_file_path self) ;;
     Ok {| report_metadata := metadata;
           total_records := total record_stats;
           delete_operations := deletes record_stats;
           report_strong_overwrites := strong_overwrites record_stats;
           actions_breakdown := actions;
           report_tables := tables;
           file_path := sop_file_path self;
           file_size := size;
           analysis_date := now_isoformat |},
     self1, out).
Proof.
  intros Hload. unfold generate_report, and_then.
  unfold method at 1. rewrite Hload. simpl.
  destruct (get_metadata doc) as [md|e] eqn:Hmd; simpl; [|reflexivity].
  pose proof (get_metadata_object _ _ Hmd) as Hdoc.
  destruct (load_data_Ok _ _ _ _ _ _ _ _ Hload) as [Hcached Hpath].
  assert (Hagain : load_data zlib_decompress utf8_decode json_loads fs self1
                   = (Ok doc, self1, [])).
  { rewrite <- Hcached. apply load_data_cached. rewrite Hcached. assumption. }
  unfold method. rewrite Hagain. simpl.
  destruct (analyze_records doc) as [stats|e]; simpl;
    [|rewrite app_nil_r; reflexivity].
  rewrite Hagain. simpl.
  destruct (analyze_tables doc) as [ts|e]; simpl;
    [|rewrite app_nil_r; reflexivity].
  rewrite Hagain. simpl.
  destruct (get_actions_summary doc) as [acts|e]; simpl;
    [|rewrite app_nil_r; reflexivity].
  rewrite app_nil_r, Hpath. reflexivity.
Qed.

Lemma generate_report_failed (fs : filesystem) (self self1 : SOPAnalyzer)
  (e : exn) (out : list string) :
  load_data zlib_decompress utf8_decode json_loads fs self = (Err e, self1, out) ->
  generate_report zlib_decompress utf8_decode json_loads stat_size now_isoformat
    fs self
  = (Err e, self1, out).
Proof.
  intros Hload. unfold generate_report, and_then.
  unfold method at 1. rewrite Hload. reflexivity.
Qed.

(** X17.  [generate_report] decodes the package once: whatever it returns or
    raises, the lines it prints and the analyzer it leaves are those of one
    call of [load_data]; when that call raises, the report raises the same
    error. *)
Theorem generate_report_loads_once (fs : filesystem) (self : SOPAnalyzer) :
  exists res,
    load_data zlib_decompress utf8_decode json_loads fs self
    = (res,
       snd (fst (generate_report zlib_decompress utf8_decode json_loads
                   stat_size now_isoformat fs self)),
       snd (generate_report zlib_decompress utf8_decode json_loads
              stat_size now_isoformat fs self)) /\
    forall e,
      res = Err e ->
      fst (fst (generate_report zlib_decompress utf8_decode json_loads
                  stat_size now_isoformat fs self)) = Err e.
Proof.
  destruct (load_data zlib_decompress utf8_decode json_loads fs self)
    as [[[doc|e] self1] out] eqn:Hload.
  - rewrite (generate_report_loaded _ _ _ _ _ Hload). simpl.
    exists (Ok doc). split; [reflexivity | discriminate].
  - rewrite (generate_report_failed _ _ _ _ _ Hload). simpl.
    exists (Err e). split; [reflexivity|]. intros e' H; injection H as <-.
    reflexivity.
Qed.

(** X18.  The numbers of a report agree: the total is the sum of the record
    counts of the tables and the sum of the counts of the actions, the delete
    operations are the count of the action [delete], and neither the deletes
    nor the strong overwrites exceed the total. *)
Theorem generate_report_consistent (fs : filesystem) (self self' : SOPAnalyzer)
  (rep : Report) (out : list string) :
  generate_report zlib_decompress utf8_decode json_loads stat_size now_isoformat
    fs self = (Ok rep, self', out) ->
  total_records rep = list_sum (map record_count (report_tables rep)) /\
  total_records rep = list_sum (dict_values (actions_breakdown rep)) /\
  delete_operations rep
  = dict_get_default (HStr "delete") (actions_breakdown rep) 0 /\
  delete_operations rep <= total_records rep /\
  report_strong_overwrites rep <= total_records rep /\
  file_path rep = sop_file_path self.
Proof.
  intros H.
  destruct (load_data zlib_decompress utf8_decode json_loads fs self)
    as [[[doc|e] self1] o1] eqn:Hload.
  - rewrite (generate_report_loaded _ _ _ _ _ Hload) in H.
    injection H as H _ _.
    bind_inv H. bind_inv H. bind_inv H. bind_inv H. bind_inv H.
    injection H as <-. simpl.
    rename a0 into stats, a1 into ts, a2 into acts.
    destruct (analyze_records_counts _ _ Ha0)
      as (items & Hrec & Htotal & Hdel & Hstrong).
    destruct (analyze_tables_Ok _ _ Ha1) as (items1 & tables & Hrec1 & Hloop1 & ->).
    destruct (get_actions_summary_Ok _ _ Ha2) as (items2 & Hrec2 & Hloop2).
    rewrite Hrec in Hrec1, Hrec2.
    injection Hrec1 as <-. injection Hrec2 as <-.
    destruct (actions_inv_loop items [] [] acts
                (counts_inv_nil (fun n => n) 0 eq_refl) Hloop2)
      as (keys & Hkeys & Hinv).
    pose proof (tables_total_loop _ _ _ Hloop1) as Htables.
    pose proof (actions_total_loop _ _ _ Hloop2) as Hacts.
    unfold dict_total in Htables, Hacts. simpl in Htables, Hacts.
    repeat split.
    + rewrite Htotal, <- Htables, map_map. simpl.
      apply list_sum_perm. apply Permutation_map. apply Permutation_sym.
      apply sorted_desc_perm.
    + rewrite Htotal, <- Hacts. reflexivity.
    + rewrite Hdel, (cnt_count _ _ _ _ Hinv). simpl.
      apply delete_actions_counted. assumption.
    + rewrite Hdel, Htotal. apply filter_length_le.
    + rewrite Hstrong, Htotal. apply filter_length_le.
  - rewrite (generate_report_failed _ _ _ _ _ Hload) in H. discriminate.
Qed.

(** X19.  For a package that loads to an object whose records are well
    formed, and a file whose size can be read, [generate_report] returns a
    report: it carries the path, that size and the date. *)
Theorem generate_report_returns (fs : filesystem) (self self' : SOPAnalyzer)
  (m : list (string * json)) (items : list json) (out : list string) (size : nat) :
  load_data zlib_decompress utf8_decode json_loads fs self
    = (Ok (JObj m), self', out) ->
  records_of (JObj m) = Ok items ->
  forallb well_formed items = true ->
  stat_size (sop_file_path self) = Ok size ->
  exists rep,
    generate_report zlib_decompress utf8_decode json_loads stat_size now_isoformat
      fs self = (Ok rep, self', out) /\
    get_metadata (JObj m) = Ok (report_metadata rep) /\
    total_records rep = List.length items /\
    file_path rep = sop_file_path self /\
    file_size rep = size /\
    analysis_date rep = now_isoformat.
Proof.
  intros Hload Hrec Hwf Hsize.
  rewrite (generate_report_loaded _ _ _ _ _ Hload).
  destruct (analyze_records_returns _ _ Hrec Hwf) as (stats & Hstats).
  destruct (analyze_tables_returns _ _ Hrec Hwf) as (ts & Hts).
  destruct (get_actions_summary_returns _ _ Hrec Hwf) as (acts & Hacts).
  rewrite Hstats, Hts, Hacts, Hsize. simpl.
  eexists. split; [reflexivity|]. simpl.
  destruct (analyze_records_counts _ _ Hstats) as (items' & Hrec' & Htotal & _).
  rewrite Hrec in Hrec'. injection Hrec' as <-.
  repeat split; auto.
Qed.

End Reports.

Lemma sample_report_generated :
  generate_report Zlib.decompress Utf8.decode Json.loads
    (fun _ => Ok 261) "2024-01-01T00:00:00"
    (package_of sample_compressed) (init "package.sop")
  = (Ok sample_report,
     {| sop_file_path := "package.sop"; _data := sample_data |},
     [msg_failure "_try_raw_deflate"
        (Zlib.data_error "invalid stored block lengths");
      msg_success "_try_zlib_deflate"]).
Proof.
  rewrite (generate_report_loaded _ _ _ _ _ _ _ _ _ _ sample_package_loads).
  vm_compute. reflexivity.
Qed.

Lemma generate_report_consistent_witness :
  total_records sample_report
  = list_sum (map record_count (report_tables sample_report)) /\
  total_records sample_report
  = list_sum (dict_values (actions_breakdown sample_report)) /\
  delete_operations sample_report
  = dict_get_default (HStr "delete") (actions_breakdown sample_report) 0 /\
  delete_operations sample_report <= total_records sample_report /\
  report_strong_overwrites sample_report <= total_records sample_report /\
  file_path sample_report = sop_file_path (init "package.sop").
Proof.
  apply (generate_report_consistent _ _ _ _ _ _ _ _ _ _ sample_report_generated).
Defined.

Lemma generate_report_returns_witness :
  exists rep,
    generate_report Zlib.decompress Utf8.decode Json.loads
      (fun _ => Ok 261) "2024-01-01T00:00:00"
      (package_of sample_compressed) (init "package.sop")
    = (Ok rep,
       {| sop_file_path := "package.sop"; _data := sample_data |},
       [msg_failure "_try_raw_deflate"
          (Zlib.data_error "invalid stored block lengths");
        msg_success "_try_zlib_deflate"]) /\
    get_metadata
      (JObj [("records",
              JArr [sample_record "users" "insert" [];
                    sample_record "users" "delete" [];
                    sample_record "products" "update"
                      [("is_strong_overwrite", JBool true)];
                    sample_record "orders" "insert" []])])
    = Ok (report_metadata rep) /\
    total_records rep
    = List.length
        [sample_record "users" "insert" [];
         sample_record "users" "delete" [];
         sample_record "products" "update" [("is_strong_overwrite", JBool true)];
         sample_record "orders" "insert" []] /\
    file_path rep = sop_file_path (init "package.sop") /\
    file_size rep = 261 /\
    analysis_date rep = "2024-01-01T00:00:00".
Proof.
  apply (generate_report_returns Zlib.decompress Utf8.decode Json.loads
           (fun _ => Ok 261) "2024-01-01T00:00:00"
           (package_of sample_compressed) (init "package.sop")
           {| sop_file_path := "package.sop"; _data := sample_data |}
           [("records",
             JArr [sample_record "users" "insert" [];
                   sample_record "users" "delete" [];
                   sample_record "products" "update"
                     [("is_strong_overwrite", JBool true)];
                   sample_record "orders" "insert" []])]
           [sample_record "users" "insert" [];
            sample_record "users" "delete" [];
            sample_record "products" "update" [("is_strong_overwrite", JBool true)];
            sample_record "orders" "insert" []]
           _ 261 sample_package_loads); reflexivity.
Defined.

(** ** The table printer *)

Lemma str_len_app (a b : string) : str_len (a ++ b) = str_len a + str_len b.
Proof.
  unfold str_len. induction a as [|c a IH]; simpl; [reflexivity|].
  destruct (negb (continues c)); simpl; rewrite IH; reflexivity.
Qed.

Lemma str_len_spaces (n : nat) : str_len (str_repeat " " n) = n.
Proof.
  induction n as [|n IH]; [reflexivity|].
  change (str_repeat " " (S n)) with (" " ++ str_repeat " " n)%string.
  rewrite str_len_app, IH. reflexivity.
Qed.

Lemma str_len_dashes (n : nat) : str_len (str_repeat "-" n) = n.
Proof.
  induction n as [|n IH]; [reflexivity|].
  change (str_repeat "-" (S n)) with ("-" ++ str_repeat "-" n)%string.
  rewrite str_len_app, IH. reflexivity.
Qed.

Lemma str_len_ljust (s : string) (width : nat) :
  str_len s <= width -> str_len (ljust s width) = width.
Proof.
  intros H. unfold ljust. rewrite str_len_app, str_len_spaces. lia.
Qed.

Lemma col_width_header (rows : list (list string)) (i : nat) (header : string) :
  str_len header + 2 <= col_width rows i header.
Proof.
  unfold col_width. apply Nat.add_le_mono_r.
  generalize (str_len header) as a.
  induction rows as [|row rows IH]; intros a; simpl; [lia|].
  destruct (nth_error row i) as [cell|]; [|apply IH].
  etransitivity; [|apply IH]. lia.
Qed.

Lemma col_width_cell (rows : list (list string)) (i : nat) (header : string)
  (row : list string) (cell : string) :
  In row rows -> nth_error row i = Some cell ->
  str_len cell + 2 <= col_width rows i header.
Proof.
  unfold col_width. intros Hin Hcell. apply Nat.add_le_mono_r.
  generalize (str_len header) as a.
  assert (Hmono : forall rows a,
             a <= fold_left (fun max_width row =>
                               match nth_error row i with
                               | Some cell => Nat.max max_width (str_len cell)
                               | None => max_width
                               end) rows a).
  { clear. induction rows as [|row rows IH]; intros a; simpl; [lia|].
    destruct (nth_error row i) as [cell|]; [|apply IH].
    etransitivity; [|apply IH]. lia. }
  induction rows as [|row' rows IH]; intros a; simpl; [contradiction|].
  destruct Hin as [->|Hin].
  - rewrite Hcell. etransitivity; [|apply Hmono]. lia.
  - apply IH. assumption.
Qed.

Lemma nth_error_enumerate_map {A B} (f : nat * A -> B) (l : list A) (i j : nat) :
  nth_error (map f (enumerate_from i l)) j
  = option_map (fun x => f (i + j, x)) (nth_error l j).
Proof.
  revert i j; induction l as [|x l IH]; intros i j; simpl.
  - destruct j; reflexivity.
  - destruct j as [|j]; simpl; [rewrite Nat.add_0_r; reflexivity|].
    rewrite IH. replace (S i + j) with (i + S j) by lia. reflexivity.
Qed.

Lemma col_widths_nth (headers : list string) (rows : list (list string))
  (j : nat) :
  nth_error (col_widths headers rows) j
  = option_map (col_width rows j) (nth_error headers j).
Proof.
  unfold col_widths, enumerate. rewrite nth_error_enumerate_map. reflexivity.
Qed.

Lemma col_widths_length (headers : list string) (rows : list (list string)) :
  List.length (col_widths headers rows) = List.length headers.
Proof.
  unfold col_widths, enumerate. rewrite length_map.
  generalize 0. induction headers as [|h headers IH]; intros i; simpl; auto.
Qed.

Lemma skipn_nth_error {A} (l : list A) (i : nat) (x : A) :
  nth_error l i = Some x -> skipn i l = x :: skipn (S i) l.
Proof.
  revert i; induction l as [|y l IH]; intros [|i]; simpl; try discriminate.
  - intros H; injection H as <-. reflexivity.
  - intros H. rewrite (IH _ H). reflexivity.
Qed.

Lemma format_cells_fits (widths : list nat) (cells : list string) (i : nat) :
  (forall j cell,
      nth_error cells j = Some cell ->
      exists w, nth_error widths (i + j) = Some w /\ str_len cell <= w) ->
  exists line,
    format_cells widths (enumerate_from i cells) = Ok line /\
    str_len line = list_sum (firstn (List.length cells) (skipn i widths)).
Proof.
  revert i; induction cells as [|cell cells IH]; intros i H; simpl.
  - exists ""%string. split; reflexivity.
  - destruct (H 0 cell eq_refl) as (w & Hw & Hfit).
    rewrite Nat.add_0_r in Hw. rewrite Hw.
    destruct (IH (S i)) as (rest & Hrest & Hlen).
    { intros j c Hc. destruct (H (S j) c Hc) as (w' & Hw' & Hfit').
      exists w'. split; [|assumption].
      replace (S i + j) with (i + S j) by lia. assumption. }
    rewrite Hrest. simpl. eexists. split; [reflexivity|].
    rewrite str_len_app, (str_len_ljust _ _ Hfit), Hlen.
    rewrite (skipn_nth_error _ _ _ Hw). reflexivity.
Qed.

Lemma format_cells_overflow (widths : list nat) (cells : list string) (i : nat) :
  List.length widths < i + List.length cells ->
  i <= List.length widths ->
  format_cells widths (enumerate_from i cells) = Err index_error.
Proof.
  revert i; induction cells as [|cell cells IH]; intros i H Hi; simpl in *.
  - lia.
  - destruct (nth_error widths i) as [w|] eqn:Hw; [|reflexivity].
    assert (i < List.length widths) by (apply nth_error_Some; congruence).
    rewrite IH; [reflexivity | lia | lia].
Qed.

Lemma row_fits (headers : list string) (rows : list (list string))
  (row : list string) :
  In row rows ->
  List.length row <= List.length headers ->
  exists line,
    format_cells (col_widths headers rows) (enumerate row) = Ok line /\
    str_len line
    = list_sum (firstn (List.length row) (col_widths headers rows)).
Proof.
  intros Hin Hlen.
  apply (format_cells_fits (col_widths headers rows) row 0).
  intros j cell Hcell. simpl. rewrite col_widths_nth.
  destruct (nth_error headers j) as [h|] eqn:Hh.
  - simpl. eexists. split; [reflexivity|].
    pose proof (col_width_cell rows j h row cell Hin Hcell). lia.
  - apply nth_error_None in Hh.
    assert (j < List.length row) by (apply nth_error_Some; congruence). lia.
Qed.

Lemma header_fits (headers : list string) (rows : list (list string)) :
  exists header_line,
    format_cells (col_widths headers rows) (enumerate headers) = Ok header_line /\
    str_len header_line = list_sum (col_widths headers rows).
Proof.
  destruct (format_cells_fits (col_widths headers rows) headers 0)
    as (line & Hline & Hlen).
  - intros j h Hh. simpl. rewrite col_widths_nth, Hh. simpl.
    eexists. split; [reflexivity|].
    pose proof (col_width_header rows j h). lia.
  - exists line. split; [assumption|].
    rewrite Hlen. simpl skipn. rewrite <- (col_widths_length headers rows).
    rewrite firstn_all. reflexivity.
Qed.

(** *** Lines that can be written *)

Lemma scan_prefix (s : bytes) (n : nat) :
  s <> [] -> Utf8.scan s = inl n ->
  1 <= n <= List.length s /\ forall t, Utf8.scan (s ++ t) = inl n.
Proof.
  intros Hs. unfold Utf8.scan.
  destruct s as [|b1 s]; [contradiction|]. cbn [app].
  destruct (Byte.to_N b1 <? 128)%N.
  { intros H; injection H as <-. simpl. split; [lia | reflexivity]. }
  destruct (Byte.to_N b1 <? 194)%N; [discriminate|].
  destruct (Byte.to_N b1 <? 224)%N.
  { destruct s as [|b2 s]; [discriminate|]. cbn [app].
    destruct (is_continuation b2); [|discriminate].
    intros H; injection H as <-. simpl. split; [lia | reflexivity]. }
  destruct (Byte.to_N b1 <? 240)%N.
  { destruct s as [|b2 s]; [discriminate|]. cbn [app].
    destruct (_ || _); [discriminate|].
    destruct s as [|b3 s]; [discriminate|]. cbn [app].
    destruct (is_continuation b3); [|discriminate].
    intros H; injection H as <-. simpl. split; [lia | reflexivity]. }
  destruct (Byte.to_N b1 <? 245)%N; [|discriminate].
  destruct s as [|b2 s]; [discriminate|]. cbn [app].
  destruct (_ || _); [discriminate|].
  destruct s as [|b3 s]; [discriminate|]. cbn [app].
  destruct (negb (is_continuation b3)); [discriminate|].
  destruct s as [|b4 s]; [discriminate|]. cbn [app].
  destruct (is_continuation b4); [|discriminate].
  intros H; injection H as <-. simpl. split; [lia | reflexivity].
Qed.

Lemma utf8_app (a b : bytes) : utf8 a -> utf8 b -> utf8 (a ++ b).
Proof.
  intros Ha Hb. induction Ha as [|s n Hs Hscan Hrest IH]; [assumption|].
  destruct (scan_prefix s n Hs Hscan) as [Hn Happ].
  apply (utf8_seq _ n).
  - destruct s; [contradiction | discriminate].
  - apply Happ.
  - rewrite skipn_app. replace (n - List.length s) with 0 by lia. assumption.
Qed.

Lemma unencodable_utf8 (fuel : nat) (s : bytes) (pos : nat) :
  List.length s <= fuel ->
  unencodable fuel s pos = None <-> utf8 s.
Proof.
  revert s pos; induction fuel as [|fuel IH]; intros s pos Hfuel.
  - destruct s; [|simpl in Hfuel; lia]. simpl. split; [constructor | reflexivity].
  - cbn [unencodable]. destruct s as [|b s]; [split; [constructor | reflexivity]|].
    destruct (Utf8.scan (b :: s)) as [n|f] eqn:Hscan.
    + destruct (scan_prefix (b :: s) n ltac:(discriminate) Hscan) as [Hn _].
      rewrite IH by (rewrite length_skipn; cbn [List.length] in *; lia).
      split.
      * intros H. apply (utf8_seq _ n); [discriminate | assumption | assumption].
      * intros H. inversion H as [|? n' ? Hscan' Hrest]; subst.
        rewrite Hscan in Hscan'. injection Hscan' as <-. assumption.
    + split; [discriminate|].
      intros H. inversion H as [|? n' ? Hscan' Hrest]; subst. congruence.
Qed.

Lemma list_byte_of_string_app (a b : string) :
  list_byte_of_string (a ++ b) = list_byte_of_string a ++ list_byte_of_string b.
Proof.
  induction a as [|c a IH]; simpl; [reflexivity|].
  unfold list_byte_of_string in *. simpl. rewrite IH. reflexivity.
Qed.

Lemma printable_utf8 (line : string) :
  printable line <-> utf8 (list_byte_of_string line).
Proof.
  unfold printable, print_error.
  rewrite <- (unencodable_utf8 _ _ 0 (Nat.le_refl _)).
  destruct (unencodable _ _ _) as [[pos s']|]; split; congruence.
Qed.

Lemma printable_app (a b : string) :
  printable a -> printable b -> printable (a ++ b).
Proof.
  rewrite !printable_utf8, list_byte_of_string_app. apply utf8_app.
Qed.

Lemma printable_repeat (s : string) (n : nat) :
  printable s -> printable (str_repeat s n).
Proof.
  intros H. induction n as [|n IH]; [reflexivity|].
  change (str_repeat s (S n)) with (s ++ str_repeat s n)%string.
  apply printable_app; assumption.
Qed.

Lemma printable_ljust (s : string) (width : nat) :
  printable s -> printable (ljust s width).
Proof.
  intros H. unfold ljust. apply printable_app; [assumption|].
  apply printable_repeat. reflexivity.
Qed.

Lemma printable_cells (widths : list nat) (cells : list string) (i : nat)
  (line : string) :
  Forall printable cells ->
  format_cells widths (enumerate_from i cells) = Ok line ->
  printable line.
Proof.
  revert i line; induction cells as [|cell cells IH]; intros i line Hall; simpl.
  - intros H; injection H as <-. reflexivity.
  - inversion Hall as [|? ? Hcell Hcells]; subst.
    destruct (nth_error widths i) as [w|]; [|discriminate].
    destruct (format_cells widths _) as [rest|e] eqn:Hrest; [|discriminate].
    simpl. intros H; injection H as <-.
    apply printable_app; [apply printable_ljust; assumption | eauto].
Qed.

Lemma print_printable (line : string) (next : result unit * list string) :
  printable line ->
  print line next = (fst next, line :: snd next).
Proof.
  unfold printable, print. intros ->. destruct next; reflexivity.
Qed.

Lemma print_rows_fit (headers : list string) (all rows : list (list string)) :
  (forall row, In row rows -> In row all) ->
  Forall (Forall printable) rows ->
  Forall (fun row => List.length row <= List.length headers) rows ->
  exists lines,
    print_rows (col_widths headers all) rows = (Ok tt, lines) /\
    Forall2 (fun row line =>
               str_len line
               = list_sum (firstn (List.length row) (col_widths headers all)))
            rows lines.
Proof.
  induction rows as [|row rows IH]; intros Hin Hp Hall; simpl.
  - exists []. split; [reflexivity | constructor].
  - inversion Hall as [|? ? Hrow Hrows]; subst.
    inversion Hp as [|? ? Hprow Hprows]; subst.
    destruct (row_fits headers all row (Hin row (or_introl eq_refl)) Hrow)
      as (line & Hline & Hlen).
    rewrite Hline.
    rewrite (print_printable line _ (printable_cells _ _ _ _ Hprow Hline)).
    destruct IH as (lines & Hlines & Hlens);
      [intros r Hr; apply Hin; right; assumption | assumption | assumption |].
    rewrite Hlines. exists (line :: lines).
    split; [reflexivity | constructor; assumption].
Qed.

Lemma print_rows_overflow (headers : list string)
  (all pre post : list (list string)) (row : list string) :
  (forall r, In r pre -> In r all) ->
  Forall (Forall printable) pre ->
  Forall (fun r => List.length r <= List.length headers) pre ->
  List.length headers < List.length row ->
  exists lines,
    print_rows (col_widths headers all) (pre ++ row :: post)
    = (Err index_error, lines) /\
    List.length lines = List.length pre.
Proof.
  induction pre as [|r pre IH]; intros Hin Hp Hall Hrow; simpl.
  - unfold enumerate.
    rewrite (format_cells_overflow (col_widths headers all) row 0).
    + exists []. split; reflexivity.
    + rewrite col_widths_length. simpl. assumption.
    + lia.
  - inversion Hall as [|? ? Hr Hpre]; subst.
    inversion Hp as [|? ? Hpr Hppre]; subst.
    destruct (row_fits headers all r (Hin r (or_introl eq_refl)) Hr)
      as (line & Hline & _).
    rewrite Hline.
    rewrite (print_printable line _ (printable_cells _ _ _ _ Hpr Hline)).
    destruct IH as (lines & Hlines & Hlen);
      [intros r' Hr'; apply Hin; right; assumption | assumption | assumption
      | assumption |].
    rewrite Hlines. exists (line :: lines).
    split; [reflexivity | simpl; congruence].
Qed.

Lemma print_title (title : string) (table : result unit * list string) :
  printable title ->
  (if String.eqb title "" then table
   else print (newline ++ title) (print (str_repeat "=" 60) table))
  = (fst table, title_lines title ++ snd table).
Proof.
  intros Ht. unfold title_lines. destruct (String.eqb title "").
  - destruct table; reflexivity.
  - rewrite print_printable by (apply printable_app; [reflexivity | assumption]).
    rewrite print_printable by reflexivity. reflexivity.
Qed.

(** X20.  When the title, the headers and the cells hold no lone surrogate
    and no row has more cells than there are headers, [print_table] returns.
    Without rows it writes the title lines and the line that says there are
    no data.  With rows it writes, after the title, the header line, a line
    of dashes of the same length, and one line per row: the header line is
    as long as the column widths add up to, and the line of a row as long as
    the widths of the columns it fills, so rows of full length are as long
    as the header; every cell is narrower than its column by two at
    least. *)
Theorem print_table_aligned (headers : list string) (rows : list (list string))
  (title : string) :
  printable title ->
  Forall printable headers ->
  Forall (Forall printable) rows ->
  Forall (fun row => List.length row <= List.length headers) rows ->
  (rows = [] ->
   print_table headers rows title
   = (Ok tt, title_lines title ++ ["Нет данных"])) /\
  (rows <> [] ->
   exists header_line lines,
     print_table headers rows title
     = (Ok tt, title_lines title ++ header_line :: separator header_line :: lines) /\
     str_len header_line = list_sum (col_widths headers rows) /\
     str_len (separator header_line) = str_len header_line /\
     Forall2 (fun row line =>
                str_len line
                = list_sum (firstn (List.length row) (col_widths headers rows)) /\
                (List.length row = List.length headers ->
                 str_len line = str_len header_line))
             rows lines /\
     forall row i cell,
       In row rows -> nth_error row i = Some cell ->
       exists w, nth_error (col_widths headers rows) i = Some w /\
                 str_len cell + 2 <= w).
Proof.
  intros Ht Hh Hp Hall. split.
  { intros ->. unfold print_table. rewrite (print_title _ _ Ht).
    rewrite print_printable by reflexivity. reflexivity. }
  intros Hrows.
  destruct (header_fits headers rows) as (header_line & Hheader & Hlen).
  destruct (print_rows_fit headers rows rows (fun r H => H) Hp Hall)
    as (lines & Hlines & Hlens).
  exists header_line, lines. split; [|split; [|split; [|split]]].
  - unfold print_table, separator. rewrite (print_title _ _ Ht).
    destruct rows as [|row rows]; [contradiction|].
    rewrite Hheader.
    rewrite print_printable by (apply (printable_cells _ _ _ _ Hh Hheader)).
    rewrite print_printable by (apply printable_repeat; reflexivity).
    rewrite Hlines. reflexivity.
  - assumption.
  - unfold separator. apply str_len_dashes.
  - eapply Forall2_impl; [|exact Hlens].
    intros row line Hline. split; [assumption|].
    intros Hfull. rewrite Hline, Hlen, Hfull.
    rewrite <- (col_widths_length headers rows), firstn_all. reflexivity.
  - intros row i cell Hin Hcell. rewrite col_widths_nth.
    destruct (nth_error headers i) as [h|] eqn:Hhd.
    + simpl. eexists. split; [reflexivity|].
      apply (col_width_cell rows i h row cell Hin Hcell).
    + apply nth_error_None in Hhd.
      assert (i < List.length row) by (apply nth_error_Some; congruence).
      rewrite Forall_forall in Hall. specialize (Hall row Hin). lia.
Qed.

(** X21.  A row with more cells than there are headers makes [print_table]
    raise [IndexError], when the title, the headers and the rows before it
    hold no lone surrogate and have no more cells than headers; the title,
    the header, the dashes and those rows are written by then, the row
    itself and the rows after it are not. *)
Theorem print_table_long_row (headers : list string)
  (pre post : list (list string)) (row : list string) (title : string) :
  printable title ->
  Forall printable headers ->
  Forall (Forall printable) pre ->
  Forall (fun r => List.length r <= List.length headers) pre ->
  List.length headers < List.length row ->
  exists header_line lines,
    print_table headers (pre ++ row :: post) title
    = (Err index_error,
       title_lines title ++ header_line :: separator header_line :: lines) /\
    List.length lines = List.length pre.
Proof.
  intros Ht Hh Hp Hpre Hrow.
  destruct (header_fits headers (pre ++ row :: post))
    as (header_line & Hheader & _).
  destruct (print_rows_overflow headers (pre ++ row :: post) pre post row)
    as (lines & Hlines & Hlen); try assumption.
  { intros r Hr. apply in_or_app. left. assumption. }
  exists header_line, lines. split; [|assumption].
  unfold print_table, separator. rewrite (print_title _ _ Ht).
  destruct (pre ++ row :: post) as [|r0 rs] eqn:E.
  - destruct pre; discriminate.
  - rewrite Hheader.
    rewrite print_printable by (apply (printable_cells _ _ _ _ Hh Hheader)).
    rewrite print_printable by (apply printable_repeat; reflexivity).
    rewrite Hlines. reflexivity.
Qed.

Lemma print_table_aligned_witness :
  ([["xyz"; "1"]; ["x"]] = [] ->
   print_table ["a"; "bb"] [["xyz"; "1"]; ["x"]] "t"
   = (Ok tt, title_lines "t" ++ ["Нет данных"])) /\
  ([["xyz"; "1"]; ["x"]] <> [] ->
   exists header_line lines,
     print_table ["a"; "bb"] [["xyz"; "1"]; ["x"]] "t"
     = (Ok tt, title_lines "t" ++ header_line :: separator header_line :: lines) /\
     str_len header_line = list_sum (col_widths ["a"; "bb"] [["xyz"; "1"]; ["x"]]) /\
     str_len (separator header_line) = str_len header_line /\
     Forall2 (fun row line =>
                str_len line
                = list_sum (firstn (List.length row) (col_widths ["a"; "bb"] [["xyz"; "1"]; ["x"]])) /\
                (List.length row = List.length ["a"; "bb"] ->
                 str_len line = str_len header_line))
             [["xyz"; "1"]; ["x"]] lines /\
     forall row i cell,
       In row [["xyz"; "1"]; ["x"]] -> nth_error row i = Some cell ->
       exists w, nth_error (col_widths ["a"; "bb"] [["xyz"; "1"]; ["x"]]) i = Some w /\
                 str_len cell + 2 <= w).
Proof.
  apply (print_table_aligned ["a"; "bb"] [["xyz"; "1"]; ["x"]] "t").
  - reflexivity.
  - repeat constructor.
  - repeat constructor.
  - repeat constructor.
Defined.

Lemma print_table_long_row_witness :
  exists header_line lines,
    print_table ["a"] ([["x"]] ++ ["y"; "z"] :: [["w"]]) "t"
    = (Err index_error,
       title_lines "t" ++ header_line :: separator header_line :: lines) /\
    List.length lines = List.length [["x"]].
Proof.
  apply (print_table_long_row ["a"] [["x"]] [["w"]] ["y"; "z"] "t").
  - reflexivity.
  - repeat constructor.
  - repeat constructor.
  - repeat constructor.
  - simpl. lia.
Defined.

(** ** Streams followed by other bytes *)

Lemma tame_err {R V} (st : R -> Zlib.bitstream) (val : R -> V) (e : exn) :
  tame st val (fun _ => Err e).
Proof. split; intros; discriminate. Qed.

Lemma reads_ret {A} (v : A) : reads (fun s => Ok (v, s)).
Proof.
  unfold reads. split.
  - intros s r H; injection H as <-; simpl; lia.
  - intros t s1 s2 r2 Hext H; injection H as <-. right.
    exists (v, s1). simpl. auto.
Qed.

Lemma writes_ret (o : Zlib.output) : writes (fun s => Ok (s, o)).
Proof.
  unfold writes. split.
  - intros s r H; injection H as <-; simpl; lia.
  - intros t s1 s2 r2 Hext H; injection H as <-. right.
    exists (s1, o). simpl. auto.
Qed.

Lemma tame_bind {A R V} (st : R -> Zlib.bitstream) (val : R -> V)
  (f : Zlib.bitstream -> result (A * Zlib.bitstream))
  (g : A -> Zlib.bitstream -> result R) :
  reads f -> (forall v, tame st val (g v)) ->
  tame st val (fun s => '(v, s1) <- f s ;; g v s1).
Proof.
  unfold reads. intros [Hf1 Hf2] Hg. split.
  - intros s r H. destruct (f s) as [[v s1]|e] eqn:E; [|discriminate].
    simpl in H. destruct (Hf1 _ _ E) as [L1 B1]. simpl in *.
    destruct (proj1 (Hg v) _ _ H) as [L2 B2]. lia.
  - intros t s1 s2 r2 Hext H.
    destruct (f s2) as [[v s2a]|e] eqn:E; [|discriminate]. simpl in H.
    destruct (Hf2 _ _ _ _ Hext E) as [Hover|([v1 s1a] & E1 & Hv & Hext1)];
      simpl in *.
    + left. destruct (proj1 (Hg v) _ _ H) as [L2 _]. lia.
    + subst v1. rewrite E1. simpl. apply (proj2 (Hg v) _ _ _ _ Hext1 H).
Qed.

Lemma tame_bind_writes {R V} (st : R -> Zlib.bitstream) (val : R -> V)
  (f : Zlib.bitstream -> result (Zlib.bitstream * Zlib.output))
  (g : Zlib.output -> Zlib.bitstream -> result R) :
  writes f -> (forall o, tame st val (g o)) ->
  tame st val (fun s => '(s1, o) <- f s ;; g o s1).
Proof.
  unfold writes. intros [Hf1 Hf2] Hg. split.
  - intros s r H. destruct (f s) as [[s1 o]|e] eqn:E; [|discriminate].
    simpl in H. destruct (Hf1 _ _ E) as [L1 B1]. simpl in *.
    destruct (proj1 (Hg o) _ _ H) as [L2 B2]. lia.
  - intros t s1 s2 r2 Hext H.
    destruct (f s2) as [[s2a o]|e] eqn:E; [|discriminate]. simpl in H.
    destruct (Hf2 _ _ _ _ Hext E) as [Hover|([s1a o1] & E1 & Hv & Hext1)];
      simpl in *.
    + left. destruct (proj1 (Hg o) _ _ H) as [L2 _]. lia.
    + subst o1. rewrite E1. simpl. apply (proj2 (Hg o) _ _ _ _ Hext1 H).
Qed.

Lemma byte_bits_length (x : byte) : List.length (Zlib.byte_bits x) = 8.
Proof. destruct x; reflexivity. Qed.

Lemma reads_getbit : reads Zlib.getbit.
Proof.
  unfold reads. split.
  - intros [c r] [b s'] H. unfold Zlib.getbit in H; simpl in H. unfold bits; simpl.
    destruct c as [|b0 c].
    + destruct r as [|x r]; [discriminate|].
      pose proof (byte_bits_length x) as Hx.
      destruct (Zlib.byte_bits x) as [|b1 c1]; [discriminate|].
      injection H as <- <-. simpl in *. lia.
    + injection H as <- <-. simpl. lia.
  - intros t [c1 r1] [c2 r2] [b s2'] [Hc Hr] H. simpl in Hc, Hr. subst c2 r2.
    unfold Zlib.getbit in *; simpl in *.
    destruct c1 as [|b0 c].
    + destruct r1 as [|x r]; simpl in H.
      * left. destruct t as [|x t]; [discriminate|].
        destruct (Zlib.byte_bits x) as [|b1 c1]; [discriminate|].
        injection H as <- <-. simpl. lia.
      * destruct (Zlib.byte_bits x) as [|b1 c1]; [discriminate|].
        injection H as <- <-. right. eexists. split; [reflexivity|].
        split; [reflexivity|]. split; reflexivity.
    + injection H as <- <-. right. eexists. split; [reflexivity|].
      split; [reflexivity|]. split; reflexivity.
Qed.

Lemma tame_ext {R V} (st : R -> Zlib.bitstream) (val : R -> V)
  (f g : Zlib.bitstream -> result R) :
  (forall s, f s = g s) -> tame st val g -> tame st val f.
Proof.
  intros E [H1 H2]. split.
  - intros s r H. rewrite E in H. eauto.
  - intros t s1 s2 r2 Hext H. rewrite E in H.
    destruct (H2 _ _ _ _ Hext H) as [?|(r1 & Hr1 & ?)]; [auto|].
    right. exists r1. rewrite E. auto.
Qed.

Ltac tame_unfold f := eapply tame_ext; [intros ?; cbn [f]; reflexivity|].
Lemma reads_getbits (n : nat) : reads (Zlib.getbits n).
Proof.
  induction n as [|n IH]; unfold reads.
  - apply (reads_ret 0).
  - tame_unfold Zlib.getbits. apply tame_bind; [apply reads_getbit | intros b].
    apply tame_bind; [apply IH | intros v]. apply reads_ret.
Qed.

Lemma reads_decode_sym (lv : list (list nat)) (code first : nat) :
  reads (Zlib.decode_sym lv code first).
Proof.
  revert code first; induction lv as [|syms lv IH]; intros code first;
    unfold reads.
  - apply (reads_ret None).
  - tame_unfold Zlib.decode_sym. apply tame_bind; [apply reads_getbit | intros b].
    destruct (Nat.ltb _ _); [apply reads_ret | apply IH].
Qed.

Lemma reads_decode (lv : list (list nat)) : reads (Zlib.decode lv).
Proof.
  unfold Zlib.decode.
  destruct lv as [|[|x syms] lv]; try apply reads_decode_sym.
  destruct lv; [|apply reads_decode_sym].
  apply tame_bind; [apply reads_getbit | intros b]. apply reads_ret.
Qed.

Lemma reads_read_code_lens (n : nat) : reads (Zlib.read_code_lens n).
Proof.
  induction n as [|n IH]; unfold reads.
  - apply (reads_ret []).
  - tame_unfold Zlib.read_code_lens. apply tame_bind; [apply reads_getbits | intros v].
    apply tame_bind; [apply IH | intros vs]. apply reads_ret.
Qed.

Lemma reads_read_lens (fuel : nat) (cl : list (list nat)) (want : nat)
  (lens : list nat) :
  reads (Zlib.read_lens fuel cl want lens).
Proof.
  revert lens; induction fuel as [|fuel IH]; intros lens; unfold reads.
  - apply tame_err.
  - tame_unfold Zlib.read_lens. destruct (Nat.leb _ _); [apply reads_ret|].
    apply tame_bind; [apply reads_decode | intros sym].
    destruct (Nat.ltb _ 16); [apply IH|].
    apply tame_bind.
    + destruct (Nat.eqb _ 16); [|destruct (Nat.eqb _ 17)].
      * apply tame_bind; [apply reads_getbits | intros x].
        destruct lens; [apply tame_err | apply reads_ret].
      * apply tame_bind; [apply reads_getbits | intros x]. apply reads_ret.
      * apply tame_bind; [apply reads_getbits | intros x]. apply reads_ret.
    + intros [len copy]. destruct (Nat.ltb _ _); [apply tame_err | apply IH].
Qed.

Lemma writes_inflate_codes (fuel : nat) (lit dist : list (list nat))
  (o : Zlib.output) :
  writes (fun s => Zlib.inflate_codes fuel lit dist s o).
Proof.
  revert o; induction fuel as [|fuel IH]; intros o; unfold writes.
  - apply tame_err.
  - tame_unfold Zlib.inflate_codes. apply tame_bind; [apply reads_decode | intros [v|]];
      [|apply tame_err].
    destruct (Nat.ltb v 256); [apply IH|].
    destruct (Nat.eqb v 256); [apply writes_ret|].
    destruct (Nat.leb 286 v); [apply tame_err|].
    apply tame_bind; [apply reads_getbits | intros extra].
    apply tame_bind; [apply reads_decode | intros [d|]]; [|apply tame_err].
    destruct (Nat.leb 30 d); [apply tame_err|].
    apply tame_bind; [apply reads_getbits | intros dextra].
    destruct (_ <? _)%N; [apply tame_err | apply IH].
Qed.

Lemma take_spec {A} (n : nat) (l a b : list A) :
  Zlib.take n l = Some (a, b) -> l = a ++ b /\ List.length a = n.
Proof.
  revert l a b; induction n as [|n IH]; intros l a b H; simpl in H.
  - injection H as <- <-. auto.
  - destruct l as [|x l]; [discriminate|].
    destruct (Zlib.take n l) as [[a' b']|] eqn:E; [|discriminate].
    injection H as <- <-. destruct (IH _ _ _ E) as [-> <-]. auto.
Qed.

Lemma take_app {A} (n : nat) (l t a b : list A) :
  Zlib.take n (l ++ t) = Some (a, b) ->
  List.length b < List.length t \/
  exists b', b = b' ++ t /\ Zlib.take n l = Some (a, b').
Proof.
  revert l a b; induction n as [|n IH]; intros l a b H.
  - simpl in H. injection H as <- <-. right. exists l. auto.
  - destruct l as [|x l].
    + left. simpl app in H. apply take_spec in H. destruct H as [-> Ha].
      rewrite length_app. lia.
    + simpl in H. destruct (Zlib.take n (l ++ t)) as [[a' b']|] eqn:E;
        [|discriminate].
      injection H as <- <-. destruct (IH _ _ _ E) as [?|(b'' & -> & E')]; [auto|].
      right. exists b''. simpl. rewrite E'. auto.
Qed.

Lemma inflate_stored_length (s s' : Zlib.bitstream) (o o' : Zlib.output) :
  Zlib.inflate_stored s o = Ok (s', o') ->
  Zlib.cur s' = [] /\
  List.length (Zlib.rest s') + 4 <= List.length (Zlib.rest s).
Proof.
  unfold Zlib.inflate_stored.
  destruct (Zlib.rest s) as [|l0 [|l1 [|n0 [|n1 data]]]]; try discriminate.
  destruct (negb _); [discriminate|].
  destruct (Zlib.take _ data) as [[block data']|] eqn:E; [|discriminate].
  intros H; injection H as <- <-. simpl.
  apply take_spec in E. destruct E as [-> _]. rewrite length_app. split; [auto|lia].
Qed.

Lemma writes_inflate_stored (o : Zlib.output) :
  writes (fun s => Zlib.inflate_stored s o).
Proof.
  unfold writes. split.
  - intros s [s' o'] H. apply inflate_stored_length in H. unfold bits. simpl.
    destruct H as [-> H]. simpl. lia.
  - intros t [c1 r1] [c2 r2] [s2' o'] [Hc Hr] H. simpl in Hc, Hr. subst c2 r2.
    simpl.
    destruct r1 as [|l0 [|l1 [|n0 [|n1 data]]]];
      try (left; apply inflate_stored_length in H; simpl in H;
           rewrite ?length_app in H; simpl in H; lia).
    unfold Zlib.inflate_stored in *. simpl in *.
    destruct (negb _); [discriminate|].
    destruct (Zlib.take _ (data ++ t)) as [[block data']|] eqn:E; [|discriminate].
    injection H as <- <-. simpl.
    destruct (take_app _ _ _ _ _ E) as [?|(b' & -> & ->)]; [auto|].
    right. eexists. split; [reflexivity|]. split; [reflexivity|].
    split; reflexivity.
Qed.

Lemma writes_inflate_dynamic (fuel : nat) (o : Zlib.output) :
  writes (fun s => Zlib.inflate_dynamic fuel s o).
Proof.
  unfold writes. tame_unfold Zlib.inflate_dynamic.
  apply tame_bind; [apply reads_getbits | intros hlit].
  apply tame_bind; [apply reads_getbits | intros hdist].
  apply tame_bind; [apply reads_getbits | intros hclen].
  destruct (_ || _); [apply tame_err|].
  apply tame_bind; [apply reads_read_code_lens | intros vs].
  destruct (Zlib.inflate_table _ _) as [cl|]; [|apply tame_err].
  apply tame_bind; [apply reads_read_lens | intros lens].
  destruct (Nat.eqb _ 0); [apply tame_err|].
  destruct (Zlib.inflate_table _ _) as [lit|]; [|apply tame_err].
  destruct (Zlib.inflate_table _ _) as [dist|]; [|apply tame_err].
  apply writes_inflate_codes.
Qed.

Lemma writes_inflate_blocks (fuel : nat) (o : Zlib.output) :
  writes (fun s => Zlib.inflate_blocks fuel s o).
Proof.
  revert o; induction fuel as [|fuel IH]; intros o; unfold writes.
  - apply tame_err.
  - tame_unfold Zlib.inflate_blocks.
    apply tame_bind; [apply reads_getbit | intros last].
    apply tame_bind; [apply reads_getbits | intros type].
    apply tame_bind_writes.
    + destruct type as [|[|[|type]]].
      * apply writes_inflate_stored.
      * apply writes_inflate_codes.
      * apply writes_inflate_dynamic.
      * apply tame_err.
    + intros o3. destruct last; [apply writes_ret | apply IH].
Qed.

(** *** Fuel *)

Lemma reads_bits {A} (f : Zlib.bitstream -> result (A * Zlib.bitstream))
  (s s' : Zlib.bitstream) (v : A) :
  reads f -> f s = Ok (v, s') -> bits s' <= bits s.
Proof.
  intros [H _] E. apply (H _ _ E).
Qed.

Lemma writes_bits (f : Zlib.bitstream -> result (Zlib.bitstream * Zlib.output))
  (s s' : Zlib.bitstream) (o : Zlib.output) :
  writes f -> f s = Ok (s', o) -> bits s' <= bits s.
Proof.
  intros [H _] E. apply (H _ _ E).
Qed.

Lemma getbit_bits (s s' : Zlib.bitstream) (b : bool) :
  Zlib.getbit s = Ok (b, s') -> bits s' < bits s.
Proof.
  destruct s as [c r]. unfold Zlib.getbit, bits; simpl.
  destruct c as [|b0 c].
  - destruct r as [|x r]; [discriminate|].
    pose proof (byte_bits_length x) as Hx.
    destruct (Zlib.byte_bits x) as [|b1 c1]; [discriminate|].
    intros H; injection H as <- <-. simpl in *. lia.
  - intros H; injection H as <- <-. simpl. lia.
Qed.

Lemma decode_sym_bits (lv : list (list nat)) (code first : nat)
  (s s' : Zlib.bitstream) (v : nat) :
  Zlib.decode_sym lv code first s = Ok (Some v, s') -> bits s' < bits s.
Proof.
  destruct lv as [|syms lv]; cbn [Zlib.decode_sym]; [discriminate|].
  destruct (Zlib.getbit s) as [[b s1]|e] eqn:E; cbn [bind]; [|discriminate].
  apply getbit_bits in E.
  destruct (Nat.ltb _ _).
  - intros H; injection H as _ <-. assumption.
  - intros H. pose proof (reads_bits _ _ _ _ (reads_decode_sym _ _ _) H). lia.
Qed.

Lemma decode_bits (lv : list (list nat)) (s s' : Zlib.bitstream) (v : nat) :
  Zlib.decode lv s = Ok (Some v, s') -> bits s' < bits s.
Proof.
  unfold Zlib.decode.
  destruct lv as [|[|x syms] lv]; try apply decode_sym_bits.
  destruct lv; [|apply decode_sym_bits].
  destruct (Zlib.getbit s) as [[b s1]|e]; cbn [bind]; discriminate.
Qed.

Lemma inflate_codes_fuel (lit dist : list (list nat)) (fuel : nat) :
  forall s o s' o',
    Zlib.inflate_codes fuel lit dist s o = Ok (s', o') ->
    bits s' < bits s /\
    forall g, bits s - bits s' <= g ->
              Zlib.inflate_codes g lit dist s o = Ok (s', o').
Proof.
  induction fuel as [|fuel IH]; intros s o s' o' H; [discriminate|].
  cbn [Zlib.inflate_codes] in H.
  destruct (Zlib.decode lit s) as [[[v|] s1]|e] eqn:E; cbn [bind] in H;
    try discriminate.
  pose proof (decode_bits _ _ _ _ E) as B1.
  destruct (Nat.ltb v 256) eqn:C1.
  { destruct (IH _ _ _ _ H) as [B IHg]. split; [lia|].
    intros [|g] Hg; [lia|]. cbn [Zlib.inflate_codes]. rewrite E. cbn [bind].
    rewrite C1. apply IHg. lia. }
  destruct (Nat.eqb v 256) eqn:C2.
  { injection H as <- <-. split; [lia|].
    intros [|g] Hg; [lia|]. cbn [Zlib.inflate_codes]. rewrite E. cbn [bind].
    rewrite C1, C2. reflexivity. }
  destruct (Nat.leb 286 v) eqn:C3; [discriminate|].
  destruct (Zlib.getbits _ s1) as [[extra s2]|e] eqn:E2; cbn [bind] in H;
    [|discriminate].
  destruct (Zlib.decode dist s2) as [[[d|] s3]|e] eqn:E3; cbn [bind] in H;
    try discriminate.
  destruct (Nat.leb 30 d) eqn:C4; [discriminate|].
  destruct (Zlib.getbits _ s3) as [[dextra s4]|e] eqn:E4; cbn [bind] in H;
    [|discriminate].
  destruct (_ <? _)%N eqn:C5; [discriminate|].
  pose proof (reads_bits _ _ _ _ (reads_getbits _) E2) as B2.
  pose proof (reads_bits _ _ _ _ (reads_decode _) E3) as B3.
  pose proof (reads_bits _ _ _ _ (reads_getbits _) E4) as B4.
  destruct (IH _ _ _ _ H) as [B IHg]. split; [lia|].
  intros [|g] Hg; [lia|]. cbn [Zlib.inflate_codes]. rewrite E. cbn [bind].
  rewrite C1, C2, C3, E2. cbn [bind]. rewrite E3. cbn [bind].
  rewrite C4, E4. cbn [bind]. rewrite C5. apply IHg. lia.
Qed.

Lemma inflate_dynamic_fuel (fuel : nat) (s s' : Zlib.bitstream)
  (o o' : Zlib.output) :
  Zlib.inflate_dynamic fuel s o = Ok (s', o') ->
  bits s' < bits s /\
  forall g, bits s - bits s' <= g ->
            Zlib.inflate_dynamic g s o = Ok (s', o').
Proof.
  unfold Zlib.inflate_dynamic.
  destruct (Zlib.getbits 5 s) as [[hlit s1]|e] eqn:E1; cbn [bind];
    [|discriminate].
  destruct (Zlib.getbits 5 s1) as [[hdist s2]|e] eqn:E2; cbn [bind];
    [|discriminate].
  destruct (Zlib.getbits 4 s2) as [[hclen s3]|e] eqn:E3; cbn [bind];
    [|discriminate].
  destruct (_ || _); [discriminate|].
  destruct (Zlib.read_code_lens _ s3) as [[vs s4]|e] eqn:E4; cbn [bind];
    [|discriminate].
  destruct (Zlib.inflate_table _ _) as [cl|]; [|discriminate].
  destruct (Zlib.read_lens _ _ _ _ s4) as [[lens s5]|e] eqn:E5; cbn [bind];
    [|discriminate].
  destruct (Nat.eqb _ 0); [discriminate|].
  destruct (Zlib.inflate_table _ _) as [lit|]; [|discriminate].
  destruct (Zlib.inflate_table _ _) as [dist|]; [|discriminate].
  intros H.
  pose proof (reads_bits _ _ _ _ (reads_getbits _) E1) as B1.
  pose proof (reads_bits _ _ _ _ (reads_getbits _) E2) as B2.
  pose proof (reads_bits _ _ _ _ (reads_getbits _) E3) as B3.
  pose proof (reads_bits _ _ _ _ (reads_read_code_lens _) E4) as B4.
  pose proof (reads_bits _ _ _ _ (reads_read_lens _ _ _ _) E5) as B5.
  destruct (inflate_codes_fuel _ _ _ _ _ _ _ H) as [B Hg].
  split; [lia|]. intros g Hle. apply Hg. lia.
Qed.

Lemma inflate_blocks_fuel (fuel : nat) :
  forall s o s' o',
    Zlib.inflate_blocks fuel s o = Ok (s', o') ->
    bits s' < bits s /\
    forall g, bits s - bits s' <= g ->
              Zlib.inflate_blocks g s o = Ok (s', o').
Proof.
  induction fuel as [|fuel IH]; intros s o s' o' H; [discriminate|].
  cbn [Zlib.inflate_blocks] in H.
  destruct (Zlib.getbit s) as [[last s1]|e] eqn:E1; cbn [bind] in H;
    [|discriminate].
  destruct (Zlib.getbits 2 s1) as [[type s2]|e] eqn:E2; cbn [bind] in H;
    [|discriminate].
  pose proof (getbit_bits _ _ _ E1) as B1.
  pose proof (reads_bits _ _ _ _ (reads_getbits _) E2) as B2.
  assert (Hblock : exists s3 o3,
             (forall g, bits s2 - bits s3 <= g ->
                match type with
                | 0 => Zlib.inflate_stored s2 o
                | 1 => Zlib.inflate_codes g (Zlib.levels Zlib.fixed_lit_lens)
                         (Zlib.levels Zlib.fixed_dist_lens) s2 o
                | 2 => Zlib.inflate_dynamic g s2 o
                | _ => Err (Zlib.data_error "invalid block type")
                end = Ok (s3, o3)) /\
             bits s3 <= bits s2 /\
             (if last : bool then Ok (s3, o3)
              else Zlib.inflate_blocks fuel s3 o3) = Ok (s', o')).
  { destruct type as [|[|[|type]]].
    - destruct (Zlib.inflate_stored s2 o) as [[s3 o3]|e] eqn:E3;
        cbn [bind] in H; [|discriminate].
      exists s3, o3. split; [auto|]. split; [|assumption].
      apply (writes_bits _ _ _ _ (writes_inflate_stored o) E3).
    - destruct (Zlib.inflate_codes fuel _ _ s2 o) as [[s3 o3]|e] eqn:E3;
        cbn [bind] in H; [|discriminate].
      destruct (inflate_codes_fuel _ _ _ _ _ _ _ E3) as [B Hg].
      exists s3, o3. split; [assumption|]. split; [lia | assumption].
    - destruct (Zlib.inflate_dynamic fuel s2 o) as [[s3 o3]|e] eqn:E3;
        cbn [bind] in H; [|discriminate].
      destruct (inflate_dynamic_fuel _ _ _ _ _ E3) as [B Hg].
      exists s3, o3. split; [assumption|]. split; [lia | assumption].
    - discriminate. }
  destruct Hblock as (s3 & o3 & Hg3 & B3 & Hrest).
  assert (Hend : bits s' <= bits s3 /\
                 forall g, bits s3 - bits s' <= g ->
                   (if last : bool then Ok (s3, o3)
                    else Zlib.inflate_blocks g s3 o3) = Ok (s', o')).
  { destruct last.
    - injection Hrest as <- <-. split; [lia | reflexivity].
    - destruct (IH _ _ _ _ Hrest) as [B Hg]. split; [lia | assumption]. }
  destruct Hend as [B Hg]. split; [lia|].
  intros [|g] Hle; [lia|]. cbn [Zlib.inflate_blocks]. rewrite E1. cbn [bind].
  rewrite E2. cbn [bind]. rewrite Hg3 by lia. cbn [bind]. apply Hg. lia.
Qed.

(** *** The gzip frame around the data *)

Lemma gzip_frame (data : bytes) :
  Zlib.gzip_header_rest (gzip_header ++ data ++ gzip_trailer)
    ([x08; x00; x00; x00; x00; x00; x02; xff] ++ data ++ gzip_trailer)
  = Ok (data ++ gzip_trailer).
Proof. reflexivity. Qed.

Lemma gzip_over_raw (data r : bytes) :
  Zlib.decompress (gzip_header ++ data ++ gzip_trailer) (15 + 32) = Ok r ->
  Zlib.decompress data (-15) = Ok r.
Proof.
  change (Zlib.decompress (gzip_header ++ data ++ gzip_trailer) (15 + 32))
    with (Zlib.inflate_gzip (gzip_header ++ data ++ gzip_trailer)
            ([x08; x00; x00; x00; x00; x00; x02; xff] ++ data ++ gzip_trailer)).
  change (Zlib.decompress data (-15)) with (Zlib.inflate_raw data).
  unfold Zlib.inflate_gzip, Zlib.inflate_raw. rewrite gzip_frame. cbn [bind].
  destruct (Zlib.inflate_blocks _ (Zlib.start (data ++ gzip_trailer)) _)
    as [[s o]|e] eqn:E; cbn [bind]; [|discriminate].
  destruct (Zlib.take 4 (Zlib.rest s)) as [[check trailer]|] eqn:T1;
    [|discriminate].
  destruct (negb _); [discriminate|].
  destruct (Zlib.take 4 trailer) as [[isize tail]|] eqn:T2; [|discriminate].
  destruct (_ =? _)%N; [|discriminate].
  intros H; injection H as <-.
  apply take_spec in T1. destruct T1 as [Hrest L1].
  apply take_spec in T2. destruct T2 as [-> L2].
  assert (Hlen : 8 <= List.length (Zlib.rest s)).
  { rewrite Hrest, !length_app. lia. }
  destruct (proj2 (writes_inflate_blocks (Zlib.fuel_for (data ++ gzip_trailer))
                     Zlib.empty) gzip_trailer
              (Zlib.start data) (Zlib.start (data ++ gzip_trailer)) (s, o))
    as [Hover|([s1 o1] & E1 & Ho & Hext)].
  - split; reflexivity.
  - exact E.
  - simpl in Hover. lia.
  - simpl in Ho. subst o1.
    destruct (inflate_blocks_fuel _ _ _ _ _ E1) as [B Hg].
    rewrite (Hg (Zlib.fuel_for data)); [reflexivity|].
    unfold Zlib.fuel_for, bits at 1. simpl. lia.
Qed.

(** ** What the decompressor can return *)

(** X23.  With the zlib library as modelled, [_try_gzip_format] finds
    nothing raw inflate has not: whenever it returns, [_try_raw_deflate]
    returns the same bytes on the same data. *)
Theorem _try_gzip_format_adds_nothing (data r : bytes) :
  _try_gzip_format Zlib.decompress data = Ok r ->
  _try_raw_deflate Zlib.decompress data = Ok r.
Proof.
  unfold _try_gzip_format, _try_raw_deflate. apply gzip_over_raw.
Qed.

Lemma _try_gzip_format_adds_nothing_witness :
  _try_raw_deflate Zlib.decompress [x03; x00] = Ok [].
Proof.
  apply (_try_gzip_format_adds_nothing [x03; x00] []).
  vm_compute. reflexivity.
Defined.

(** X24.  With the zlib library as modelled, what [_decompress_data]
    returns is the raw inflate of the data, or the zlib inflate of the data
    when raw inflate raised, or else, by [_try_with_headers], the raw inflate
    of the data from an offset between 1 and 9; the success line it prints
    names the strategy, and never [_try_gzip_format]. *)
Theorem _decompress_data_sources (data r : bytes) (out : list string) :
  _decompress_data Zlib.decompress data = (Ok r, out) ->
  (Zlib.decompress data (-15) = Ok r /\
   out = [msg_success "_try_raw_deflate"]) \/
  (exists e1,
      Zlib.decompress data (-15) = Err e1 /\
      Zlib.decompress data 15 = Ok r /\
      out = [msg_failure "_try_raw_deflate" e1;
             msg_success "_try_zlib_deflate"]) \/
  (exists e1 e2 e3 i,
      Zlib.decompress data (-15) = Err e1 /\
      Zlib.decompress data 15 = Err e2 /\
      1 <= i < Nat.min 10 (List.length data) /\
      Zlib.decompress (skipn i data) (-15) = Ok r /\
      out = [msg_failure "_try_raw_deflate" e1;
             msg_failure "_try_zlib_deflate" e2;
             msg_failure "_try_gzip_format" e3;
             msg_success "_try_with_headers"]).
Proof.
  unfold _decompress_data, methods, try_methods.
  destruct (_try_raw_deflate Zlib.decompress data) as [r1|e1] eqn:E1.
  { intros H; injection H as <- <-. left. auto. }
  destruct (_try_zlib_deflate Zlib.decompress data) as [r2|e2] eqn:E2.
  { intros H; injection H as <- <-. right; left. exists e1. auto. }
  destruct (_try_gzip_format Zlib.decompress data) as [r3|e3] eqn:E3.
  { apply gzip_over_raw in E3. unfold _try_raw_deflate in E1. congruence. }
  destruct (_try_with_headers Zlib.decompress data) as [r4|e4] eqn:E4;
    [|discriminate].
  intros H; injection H as <- <-. right; right.
  destruct (fallback_skips_junk _ _ _ _ E1 E2 E4) as (i & Hi & Hr & _).
  exists e1, e2, e3, i. auto.
Qed.

Lemma _decompress_data_sources_witness :
  (Zlib.decompress [xff; xab; xae; x05; x00] (-15) = Ok [x7b; x7d] /\
   [msg_failure "_try_raw_deflate" (Zlib.data_error "invalid block type");
    msg_failure "_try_zlib_deflate" (Zlib.data_error "incorrect header check");
    msg_failure "_try_gzip_format" (Zlib.data_error "invalid block type");
    msg_success "_try_with_headers"]
   = [msg_success "_try_raw_deflate"]) \/
  (exists e1,
      Zlib.decompress [xff; xab; xae; x05; x00] (-15) = Err e1 /\
      Zlib.decompress [xff; xab; xae; x05; x00] 15 = Ok [x7b; x7d] /\
      [msg_failure "_try_raw_deflate" (Zlib.data_error "invalid block type");
       msg_failure "_try_zlib_deflate" (Zlib.data_error "incorrect header check");
       msg_failure "_try_gzip_format" (Zlib.data_error "invalid block type");
       msg_success "_try_with_headers"]
      = [msg_failure "_try_raw_deflate" e1;
         msg_success "_try_zlib_deflate"]) \/
  (exists e1 e2 e3 i,
      Zlib.decompress [xff; xab; xae; x05; x00] (-15) = Err e1 /\
      Zlib.decompress [xff; xab; xae; x05; x00] 15 = Err e2 /\
      1 <= i < Nat.min 10 (List.length [xff; xab; xae; x05; x00]) /\
      Zlib.decompress (skipn i [xff; xab; xae; x05; x00]) (-15) = Ok [x7b; x7d] /\
      [msg_failure "_try_raw_deflate" (Zlib.data_error "invalid block type");
       msg_failure "_try_zlib_deflate" (Zlib.data_error "incorrect header check");
       msg_failure "_try_gzip_format" (Zlib.data_error "invalid block type");
       msg_success "_try_with_headers"]
      = [msg_failure "_try_raw_deflate" e1;
         msg_failure "_try_zlib_deflate" e2;
         msg_failure "_try_gzip_format" e3;
         msg_success "_try_with_headers"]).
Proof.
  apply (_decompress_data_sources [xff; xab; xae; x05; x00] [x7b; x7d]).
  vm_compute. reflexivity.
Defined.
